(** * dra-driver-sriov: a shallow embedding of the driver's Go code

  The development follows the packages of the repository:
  - [devicestate] (discovery part): [DiscoverSriovDevices] over the
    [HelpersInterface];
  - [state]: the checkpoint-backed [DeviceState];
  - [devicestate]: the NRI-integrated [DeviceStateManager];
  - [dra_hook]: the pod-manager-backed [Driver] hooks;
  - [nri]: the sandbox hooks of the NRI plugin;
  - [checkpoint]: checkpoint serialisation and its checksum.

  Go maps are [gmap]s, Go strings are byte strings ([string]), a Go
  [(T, error)] is a [result], and a call that can also panic is an
  [outcome]. *)

From stdpp Require Import gmap strings list fin_maps sorting.
From Stdlib Require Import ZArith Ascii.

Set Default Proof Using "Type".

(** Closes an equation between closed terms by evaluating both sides,
    without normalising the type they live in. *)
Ltac eval_refl :=
  lazymatch goal with
  | |- @eq ?A _ ?b => vm_cast_no_check (@eq_refl A b)
  end.

(** ** Results of Go calls *)

(** A Go [(T, error)]: [Ok v] is [(v, nil)], [Err e] is a non-nil error whose
  text is [e]. *)
Inductive result (A : Type) : Type :=
| Ok (a : A)
| Err (e : string).
Arguments Ok {A} a.
Arguments Err {A} e.

(** A call that either returns or panics. *)
Inductive outcome (A : Type) : Type :=
| Return (r : result A)
| Panic (msg : string).
Arguments Return {A} r.
Arguments Panic {A} msg.

Definition is_err {A} (r : result A) : Prop :=
  match r with Err _ => True | Ok _ => False end.

Definition is_ok {A} (r : result A) : Prop :=
  match r with Ok _ => True | Err _ => False end.

(** ** The parts of Go's standard library the code uses *)

Module gostrings.

(** [strings.ReplaceAll(s, old, new)] where [old] and [new] are one byte
    long, as at every call site of the driver. *)
Fixpoint ReplaceAll (s : string) (old new : ascii) : string :=
  match s with
  | EmptyString => EmptyString
  | String c s' =>
      String (if decide (c = old) then new else c) (ReplaceAll s' old new)
  end.

End gostrings.

Module strconv.

Definition hexDigit (c : ascii) : option Z :=
  let n := Z.of_N (N_of_ascii c) in
  if (48 <=? n)%Z && (n <=? 57)%Z then Some (n - 48)%Z
  else if (97 <=? n)%Z && (n <=? 102)%Z then Some (n - 97 + 10)%Z
  else if (65 <=? n)%Z && (n <=? 70)%Z then Some (n - 65 + 10)%Z
  else None.

Definition maxUint64 : Z := (2 ^ 64 - 1)%Z.

(** The digit loop of [strconv.ParseUint(s, 16, 64)]: [None] stands for a
    non-nil error (a byte that is no hexadecimal digit, or a value past
    [maxUint64]). *)
Fixpoint parseHexDigits (s : string) (n : Z) : option Z :=
  match s with
  | EmptyString => Some n
  | String c s' =>
      match hexDigit c with
      | None => None
      | Some d =>
          let n1 := (n * 16 + d)%Z in
          if (maxUint64 <? n1)%Z then None else parseHexDigits s' n1
      end
  end.

Definition ParseUint16 (s : string) : option Z :=
  match s with
  | EmptyString => None
  | _ => parseHexDigits s 0
  end.

(** [strconv.ParseInt(s, 16, 64)]: an optional sign, then [ParseUint], then
    the range check against [1 << 63]. [None] is a non-nil error. *)
Definition ParseInt16 (s : string) : option Z :=
  match s with
  | EmptyString => None
  | String c s' =>
      let '(neg, digits) :=
        if decide (c = "+"%char) then (false, s')
        else if decide (c = "-"%char) then (true, s')
        else (false, s) in
      match ParseUint16 digits with
      | None => None
      | Some un =>
          let cutoff := (2 ^ 63)%Z in
          if negb neg && (cutoff <=? un)%Z then None
          else if neg && (cutoff <? un)%Z then None
          else Some (if neg then (- un)%Z else un)
      end
  end.

End strconv.

(** ** Go maps written in a loop *)

Module gomap.
Section insertAll.
Context {V : Type}.
Implicit Types (m : gmap string V) (kvs : list (string * V)).

(** [for _, kv := range kvs { m[kv.key] = kv.value }]. *)
Definition insertAll m kvs : gmap string V :=
  foldl (λ m kv, <[kv.1 := kv.2]> m) m kvs.

Lemma insertAll_app m kvs1 kvs2 :
  insertAll m (kvs1 ++ kvs2) = insertAll (insertAll m kvs1) kvs2.
Proof. apply foldl_app. Qed.

Lemma insertAll_list_to_map m kvs :
  insertAll m kvs = list_to_map (reverse kvs) ∪ m.
Proof.
  revert m. induction kvs as [|[k v] kvs IH]; intros m; simpl.
  - by rewrite (left_id_L ∅ (∪)).
  - unfold insertAll in *. simpl. rewrite IH, reverse_cons, list_to_map_app.
    simpl. rewrite <-(assoc_L (∪)). f_equal.
    by rewrite insert_union_singleton_l, insert_empty.
Qed.

Lemma insertAll_lookup_Some kvs k v :
  insertAll ∅ kvs !! k = Some v → (k, v) ∈ kvs.
Proof.
  rewrite insertAll_list_to_map, (right_id_L ∅ (∪)).
  intros H%elem_of_list_to_map_2. by apply elem_of_reverse.
Qed.

Lemma insertAll_is_Some kvs k :
  k ∈ kvs.*1 → is_Some (insertAll ∅ kvs !! k).
Proof.
  rewrite insertAll_list_to_map, (right_id_L ∅ (∪)). intros Hk.
  destruct (list_to_map (reverse kvs) !! k) as [v|] eqn:Hl; [by eexists|].
  apply not_elem_of_list_to_map in Hl. rewrite fmap_reverse in Hl.
  by rewrite elem_of_reverse in Hl.
Qed.

Lemma insertAll_NoDup_lookup kvs k v :
  NoDup kvs.*1 → (k, v) ∈ kvs → insertAll ∅ kvs !! k = Some v.
Proof.
  rewrite insertAll_list_to_map, (right_id_L ∅ (∪)). intros Hnd Hin.
  apply elem_of_list_to_map; [|by apply elem_of_reverse].
  by rewrite fmap_reverse, reverse_Permutation.
Qed.

Lemma insertAll_NoDup_size kvs :
  NoDup kvs.*1 → size (insertAll ∅ kvs) = length kvs.
Proof.
  rewrite insertAll_list_to_map, (right_id_L ∅ (∪)). intros Hnd.
  rewrite map_size_list_to_map, length_reverse; [done|].
  by rewrite fmap_reverse, reverse_Permutation.
Qed.

End insertAll.
End gomap.

(** ** k8s.io/api/resource/v1: the fields the driver reads or writes *)

Module resourceapi.

(** A [DeviceAttribute] holding a [*string]; [None] is the nil pointer. *)
Record DeviceAttribute := { StringValue : option string }.

Record Device := {
  Name : string;
  Attributes : gmap string DeviceAttribute;
}.

(** The allocated device of a result is its field [Device]; it is [Device_]
    here, next to the record of the same name. *)
Record DeviceRequestAllocationResult := {
  Request : string;
  Driver : string;
  Pool : string;
  Device_ : string;
}.

(** An opaque configuration as the claim carries it, before decoding. *)
Record DeviceAllocationConfiguration := {
  Source : string;
  Requests : list string;
  OpaqueDriver : string;
  OpaqueParameters : string;
}.

Record DeviceAllocationResult := {
  Results : list DeviceRequestAllocationResult;
  Config : list DeviceAllocationConfiguration;
}.

Record AllocationResult := { Devices : DeviceAllocationResult }.

Record ResourceClaimConsumerReference := {
  ConsumerName : string;
  ConsumerUID : string;
}.

(** [nil] for [Allocation] is [None]. *)
Record ResourceClaimStatus := {
  Allocation : option AllocationResult;
  ReservedFor : list ResourceClaimConsumerReference;
}.

(** [ResourceClaim] with the fields of its [ObjectMeta] inlined. *)
Record ResourceClaim := {
  ClaimName : string;
  Namespace : string;
  UID : string;
  Status : ResourceClaimStatus;
}.

#[global] Instance result_eq_dec : EqDecision DeviceRequestAllocationResult.
Proof. solve_decision. Defined.

End resourceapi.

(** ** The driver's configuration objects (package configapi) *)

Module configapi.

Record VfConfig := {
  NetAttachDefName : string;
  IfName : string;
}.

(** A [runtime.Object] as the driver meets it: a pointer, whose pointee is a
    [VfConfig] ([Some]) or an object of another kind ([None]). Two interface
    values are equal in Go when they hold the same pointer; an address has
    one pointee, so that is equality of these records. *)
Record RuntimeObject := {
  objAddr : positive;
  objValue : option VfConfig;
}.

#[global] Instance VfConfig_eq_dec : EqDecision VfConfig.
Proof. solve_decision. Defined.

#[global] Instance RuntimeObject_eq_dec : EqDecision RuntimeObject.
Proof. solve_decision. Defined.

#[global] Instance RuntimeObject_countable : Countable RuntimeObject.
Proof.
  apply (inj_countable'
           (λ o, (objAddr o,
                  (λ c, (NetAttachDefName c, IfName c)) <$> objValue o))
           (λ p, {| objAddr := p.1;
                    objValue := (λ q, {| NetAttachDefName := q.1;
                                         IfName := q.2 |}) <$> p.2 |})).
  by intros [a [[n i]|]].
Defined.

(** Modelled from the spec: [DefaultVfConfig], whose source is not at hand,
    returns "a zero-value default instance"; it is a newly allocated object,
    at the address [a]. *)
Definition DefaultVfConfig (a : positive) : RuntimeObject :=
  {| objAddr := a;
     objValue := Some {| NetAttachDefName := ""; IfName := "" |} |}.

End configapi.

(** ** k8s.io/kubelet/pkg/apis/dra/v1beta1 and the CDI container edits *)

Module drapbv1.

Record Device := {
  RequestNames : list string;
  PoolName : string;
  DeviceName : string;
  CDIDeviceIDs : list string;
}.

End drapbv1.

Module cdiapi.

(** [cdiapi.ContainerEdits]: the driver fills in [Env] only. *)
Record ContainerEdits := { Env : list string }.

End cdiapi.

(** ** What the driver does to the world outside it, in the order it does
    it *)

Inductive Event :=
| EvGetCheckpoint
| EvCreateCheckpoint
| EvCreateClaimSpecFile (claimUID : string) (devices : list string)
| EvDeleteClaimSpecFile (claimUID : string)
| EvGetNetAttachDef (name namespace : string)
| EvPrepareDevices (claimUID : string)
| EvUnprepare (claimUID : string)
| EvAttachNetwork (deviceName netns sandboxID : string)
| EvDetachNetwork (deviceName netns sandboxID : string).

(** ** Matching a result with a config: the loop shared by both managers *)

Module types.

Record OpaqueDeviceConfig := {
  Requests : list string;
  Config : configapi.RuntimeObject;
}.

(** [PreparedDevice] of src/pkg/types/types.go; a nil [ContainerEdits] is
    [None]. *)
Record PreparedDevice := {
  Device : drapbv1.Device;
  ContainerEdits : option cdiapi.ContainerEdits;
}.

(** [PreparedDevices]: a slice built by [append] from the nil slice, so it is
    nil exactly when it is empty. *)
Abbreviation PreparedDevices := (list PreparedDevice).

Definition GetDevices (pds : PreparedDevices) : list drapbv1.Device :=
  Device <$> pds.

End types.

(** ** SR-IOV discovery (package devicestate) *)

Module discovery.
Import resourceapi.

(** [ghw.PCIDevice]: the address and the identifiers of its class, vendor
    and product, which ghw always fills in. *)
Record PCIDevice := {
  Address : string;
  Class_ID : string;
  Vendor_ID : string;
  Product_ID : string;
}.

Record PCIInfo := { Devices : list PCIDevice }.

(** [HelpersInterface]: the methods [DiscoverSriovDevices] calls. *)
Record HelpersInterface := {
  IsSriovVF : string -> bool;
  GetVFList : string -> result (list string);
  PCI : result PCIInfo;
  TryGetInterfaceName : string -> string;
  GetNicSriovMode : string -> string;
}.

Record PFInfo := {
  PciAddress : string;
  NetName : string;
  VendorID : string;
  DeviceID : string;
  PF_Address : string;
  EswitchMode : string;
}.

Definition NetClass : Z := 2.

(** The attribute names of package consts, whose values are not part of
    the sources at hand. *)
Record AttributeNames := {
  AttributeVendorID : string;
  AttributeDeviceID : string;
  AttributePciAddress : string;
  AttributePFName : string;
  AttributeEswitchMode : string;
}.

Section Discover.
Variable helpers : HelpersInterface.
Variable consts : AttributeNames.

(** The first loop: [for _, device := range devices]. *)
Fixpoint scanDevices (devices : list PCIDevice) (pfList : list PFInfo)
    : list PFInfo :=
    match devices with
    | [] => pfList
    | device :: rest =>
        match strconv.ParseInt16 (Class_ID device) with
        | None => scanDevices rest pfList
        | Some devClass =>
            if negb (devClass =? NetClass)%Z then scanDevices rest pfList
            else if IsSriovVF helpers (Address device) then
              scanDevices rest pfList
            else
              let pfNetName := TryGetInterfaceName helpers (Address device) in
              if decide (pfNetName = "") then scanDevices rest pfList
              else
                let eswitchMode := GetNicSriovMode helpers (Address device) in
                scanDevices rest
                  (pfList ++ [ {| PciAddress := Address device;
                                  NetName := pfNetName;
                                  VendorID := Vendor_ID device;
                                  DeviceID := Product_ID device;
                                  PF_Address := Address device;
                                  EswitchMode := eswitchMode |} ])
        end
    end.

Definition deviceNameOf (vfPciAddress : string) : string :=
    let deviceName := gostrings.ReplaceAll vfPciAddress ":" "-" in
    gostrings.ReplaceAll deviceName "." "-".

Definition attr (s : string) : DeviceAttribute :=
    {| StringValue := Some s |}.

(** The map literal of the catalog entry: five keyed elements. *)
Definition vfDevice (pfInfo : PFInfo) (vfPciAddress : string) : Device :=
    {| Name := deviceNameOf vfPciAddress;
       Attributes :=
         list_to_map
           [ (AttributeVendorID consts, attr (VendorID pfInfo));
             (AttributeDeviceID consts, attr (DeviceID pfInfo));
             (AttributePciAddress consts, attr vfPciAddress);
             (AttributePFName consts, attr (NetName pfInfo));
             (AttributeEswitchMode consts, attr (EswitchMode pfInfo)) ] |}.

(** The inner loop: [for _, vfPciAddress := range vfList]. *)
Fixpoint addVFs (pfInfo : PFInfo) (vfList : list string)
      (resourceList : gmap string Device) : gmap string Device :=
    match vfList with
    | [] => resourceList
    | vfPciAddress :: rest =>
        addVFs pfInfo rest
          (<[deviceNameOf vfPciAddress := vfDevice pfInfo vfPciAddress]>
             resourceList)
    end.

(** The second loop: [for _, pfInfo := range pfList]. *)
Fixpoint collectVFs (pfList : list PFInfo)
      (resourceList : gmap string Device) : result (gmap string Device) :=
    match pfList with
    | [] => Ok resourceList
    | pfInfo :: rest =>
        match GetVFList helpers (PF_Address pfInfo) with
        | Err e => Err ("error getting VF list: " +:+ e)
        | Ok vfList => collectVFs rest (addVFs pfInfo vfList resourceList)
        end
    end.

Definition DiscoverSriovDevices : result (gmap string Device) :=
    match PCI helpers with
    | Err e => Err ("error getting PCI info: " +:+ e)
    | Ok pci =>
        let devices := Devices pci in
        if decide (length devices = 0) then
          Err "could not retrieve PCI devices"
        else collectVFs (scanDevices devices []) ∅
    end.

(** *** What the two loops compute *)

(** A device passes the four [continue] guards of the first loop. *)
Definition isPF (device : PCIDevice) : bool :=
  match strconv.ParseInt16 (Class_ID device) with
  | None => false
  | Some devClass =>
      (devClass =? NetClass)%Z
      && negb (IsSriovVF helpers (Address device))
      && negb (bool_decide (TryGetInterfaceName helpers (Address device) = ""))
  end.

Definition pfInfoOf (device : PCIDevice) : PFInfo :=
  {| PciAddress := Address device;
     NetName := TryGetInterfaceName helpers (Address device);
     VendorID := Vendor_ID device;
     DeviceID := Product_ID device;
     PF_Address := Address device;
     EswitchMode := GetNicSriovMode helpers (Address device) |}.

(** The VF addresses listed under a PF, and the (PF, VF) pairs of a PF list,
    in the order the second loop visits them. *)
Definition vfsOf (pfInfo : PFInfo) : list string :=
  match GetVFList helpers (PF_Address pfInfo) with
  | Ok vfList => vfList
  | Err _ => []
  end.

Definition vfPairs (pfList : list PFInfo) : list (PFInfo * string) :=
  pfList ≫= λ pfInfo, (pfInfo,.) <$> vfsOf pfInfo.

Definition catalogEntry (p : PFInfo * string) : string * Device :=
  (deviceNameOf p.2, vfDevice p.1 p.2).

Lemma scanDevices_skip device rest pfList :
  isPF device = false →
  scanDevices (device :: rest) pfList = scanDevices rest pfList.
Proof.
  unfold isPF. simpl.
  destruct (strconv.ParseInt16 (Class_ID device)) as [devClass|]; [|done].
  destruct (devClass =? NetClass)%Z; simpl; [|done].
  destruct (IsSriovVF helpers (Address device)); simpl; [done|].
  destruct (decide (TryGetInterfaceName helpers (Address device) = ""))
    as [->|Hne]; [done|].
  rewrite bool_decide_eq_false_2; done.
Qed.

Lemma scanDevices_keep device rest pfList :
  isPF device = true →
  scanDevices (device :: rest) pfList
  = scanDevices rest (pfList ++ [pfInfoOf device]).
Proof.
  unfold isPF. simpl.
  destruct (strconv.ParseInt16 (Class_ID device)) as [devClass|]; [|done].
  destruct (devClass =? NetClass)%Z; simpl; [|done].
  destruct (IsSriovVF helpers (Address device)); simpl; [done|].
  destruct (decide (TryGetInterfaceName helpers (Address device) = ""))
    as [Heq|Hne]; [|done].
  rewrite bool_decide_eq_true_2; done.
Qed.

Lemma scanDevices_filter devices pfList :
  scanDevices devices pfList
  = pfList ++ (pfInfoOf <$> filter (λ d, isPF d = true) devices).
Proof.
  revert pfList. induction devices as [|device rest IH]; intros pfList.
  - by rewrite app_nil_r.
  - destruct (isPF device) eqn:Hpf.
    + rewrite scanDevices_keep, IH by done.
      rewrite filter_cons_True by done. by rewrite fmap_cons, <-app_assoc.
    + rewrite scanDevices_skip, IH by done.
      rewrite filter_cons_False; [done|]. by rewrite Hpf.
Qed.

Lemma isPF_false_iff device :
  isPF device = false ↔
    strconv.ParseInt16 (Class_ID device) = None
    ∨ (∃ devClass, strconv.ParseInt16 (Class_ID device) = Some devClass
                   ∧ devClass ≠ NetClass)
    ∨ IsSriovVF helpers (Address device) = true
    ∨ TryGetInterfaceName helpers (Address device) = "".
Proof.
  unfold isPF.
  destruct (strconv.ParseInt16 (Class_ID device)) as [devClass|];
    [|by split; [left|]].
  destruct (Z.eqb_spec devClass NetClass) as [->|Hne]; simpl.
  2:{ split; [|done]. intros _. right; left. by exists devClass. }
  destruct (IsSriovVF helpers (Address device)); simpl.
  { split; [|done]. intros _. by right; right; left. }
  case_bool_decide as Hname; simpl.
  { split; [|done]. intros _. by right; right; right. }
  split; [done|].
  intros [?|[(c & [= <-] & Hc)|[?|?]]]; done.
Qed.

Lemma addVFs_foldl pfInfo vfList resourceList :
  addVFs pfInfo vfList resourceList
  = gomap.insertAll resourceList (catalogEntry <$> ((pfInfo,.) <$> vfList)).
Proof.
  revert resourceList. induction vfList as [|vf rest IH]; intros m; [done|].
  simpl. by rewrite IH.
Qed.

Lemma collectVFs_ok pfList resourceList :
  Forall (λ pfInfo, is_ok (GetVFList helpers (PF_Address pfInfo))) pfList →
  collectVFs pfList resourceList
  = Ok (gomap.insertAll resourceList (catalogEntry <$> vfPairs pfList)).
Proof.
  intros Hok. revert resourceList.
  induction Hok as [|pfInfo rest Hpf _ IH]; intros m; [done|].
  assert (vfPairs (pfInfo :: rest)
          = ((pfInfo,.) <$> vfsOf pfInfo) ++ vfPairs rest) as -> by done.
  rewrite fmap_app, gomap.insertAll_app. cbn [collectVFs]. unfold vfsOf.
  destruct (GetVFList helpers (PF_Address pfInfo)) as [vfList|e]; [|done].
  by rewrite IH, addVFs_foldl.
Qed.

Lemma collectVFs_err_iff pfList resourceList :
  is_err (collectVFs pfList resourceList)
  ↔ Exists (λ pfInfo, is_err (GetVFList helpers (PF_Address pfInfo))) pfList.
Proof.
  revert resourceList. induction pfList as [|pfInfo rest IH]; intros m; simpl.
  - rewrite Exists_nil. done.
  - rewrite Exists_cons.
    destruct (GetVFList helpers (PF_Address pfInfo)) as [vfList|e]; simpl.
    + rewrite IH. tauto.
    + tauto.
Qed.

Lemma collectVFs_inv pfList resourceList catalog :
  collectVFs pfList resourceList = Ok catalog →
  Forall (λ pfInfo, is_ok (GetVFList helpers (PF_Address pfInfo))) pfList.
Proof.
  intros Hc. apply Forall_forall. intros pfInfo Hin.
  destruct (GetVFList helpers (PF_Address pfInfo)) as [l|e] eqn:Hl; [done|].
  assert (is_err (collectVFs pfList resourceList)) as Herr.
  { apply collectVFs_err_iff, Exists_exists. exists pfInfo. by rewrite Hl. }
  by rewrite Hc in Herr.
Qed.

End Discover.

(** *** A small sysfs tree: one PF with two VFs, one of the VFs listed as a
    PCI device of its own, a storage controller and a device whose class
    does not parse. *)

Definition demoConsts : AttributeNames :=
  {| AttributeVendorID := "vendor";
     AttributeDeviceID := "deviceID";
     AttributePciAddress := "pciAddress";
     AttributePFName := "PFName";
     AttributeEswitchMode := "EswitchMode" |}.

Definition demoDevices : list PCIDevice :=
  [ {| Address := "0000:00:1f.2"; Class_ID := "01";
       Vendor_ID := "8086"; Product_ID := "a102" |};
    {| Address := "0000:01:00.0"; Class_ID := "02";
       Vendor_ID := "15b3"; Product_ID := "1017" |};
    {| Address := "0000:01:00.2"; Class_ID := "02";
       Vendor_ID := "15b3"; Product_ID := "1018" |};
    {| Address := "0000:02:00.0"; Class_ID := "zz";
       Vendor_ID := "10de"; Product_ID := "1eb8" |} ].

Definition demoHelpers (vfList : list string) : HelpersInterface :=
  {| IsSriovVF := λ a, bool_decide (a = "0000:01:00.2");
     GetVFList := λ a,
       if decide (a = "0000:01:00.0") then Ok vfList
       else Err "failed to read PF directory";
     PCI := Ok {| Devices := demoDevices |};
     TryGetInterfaceName := λ a,
       if decide (a = "0000:01:00.0") then "ens1f0" else "";
     GetNicSriovMode := λ _, "legacy" |}.

Definition catalogOf (r : result (gmap string Device)) : gmap string Device :=
  match r with Ok catalog => catalog | Err _ => ∅ end.

(** *** Discovery: the catalog and the error cases *)

Section DiscoverFacts.
Variable helpers : HelpersInterface.
Variable consts : AttributeNames.

Lemma discover_inv catalog :
  DiscoverSriovDevices helpers consts = Ok catalog →
  ∃ pci, PCI helpers = Ok pci ∧ Devices pci ≠ [] ∧
    let pfList := pfInfoOf helpers <$> filter (λ d, isPF helpers d = true)
                                        (Devices pci) in
    Forall (λ pfInfo, is_ok (GetVFList helpers (PF_Address pfInfo))) pfList ∧
    catalog = gomap.insertAll ∅
                (catalogEntry consts <$> vfPairs helpers pfList).
Proof.
  unfold DiscoverSriovDevices. intros Hd.
  destruct (PCI helpers) as [pci|e]; [|done]. exists pci. split; [done|].
  destruct (decide (length (Devices pci) = 0)) as [|Hlen]; [done|].
  split; [by intros Hnil; rewrite Hnil in Hlen|].
  rewrite scanDevices_filter in Hd. simpl in Hd |- *.
  pose proof (collectVFs_inv _ _ _ _ _ Hd) as Hok. split; [done|].
  rewrite (collectVFs_ok _ _ _ _ Hok) in Hd. by injection Hd.
Qed.

Lemma vfDevice_attributes pfInfo vf :
  NoDup [AttributeVendorID consts; AttributeDeviceID consts;
         AttributePciAddress consts; AttributePFName consts;
         AttributeEswitchMode consts] →
  let d := vfDevice consts pfInfo vf in
  Name d = deviceNameOf vf
  ∧ Attributes d !! AttributeVendorID consts = Some (attr (VendorID pfInfo))
  ∧ Attributes d !! AttributeDeviceID consts = Some (attr (DeviceID pfInfo))
  ∧ Attributes d !! AttributePciAddress consts = Some (attr vf)
  ∧ Attributes d !! AttributePFName consts = Some (attr (NetName pfInfo))
  ∧ Attributes d !! AttributeEswitchMode consts
    = Some (attr (EswitchMode pfInfo)).
Proof.
  intros Hnd. unfold vfDevice. cbn [Name Attributes]. split; [done|].
  repeat split; (apply elem_of_list_to_map_1; [exact Hnd|set_solver]).
Qed.

End DiscoverFacts.

Definition pciDevices (helpers : HelpersInterface) : list PCIDevice :=
  match PCI helpers with Ok pci => Devices pci | Err _ => [] end.

(** The PFs the first loop keeps, and the VF symlinks found under them. *)
Definition discoveredPFs (helpers : HelpersInterface) : list PFInfo :=
  pfInfoOf helpers <$> filter (λ d, isPF helpers d = true) (pciDevices helpers).

Definition discoveredVFs (helpers : HelpersInterface)
  : list (PFInfo * string) :=
  vfPairs helpers (discoveredPFs helpers).

(** C2 (as amended). When discovery succeeds and the VF addresses found under
    the discovered PFs give pairwise distinct device names, the catalog has
    exactly one entry per VF symlink: its key is the VF address with ':' and
    '.' replaced by '-', its vendor ID, device ID, PF name and eswitch mode
    are those of the parent PF, and its pciAddress is the VF's own address;
    and the catalog has no other entry. *)
Theorem discover_catalog (helpers : HelpersInterface) (consts : AttributeNames)
    (catalog : gmap string Device) :
  DiscoverSriovDevices helpers consts = Ok catalog →
  NoDup [AttributeVendorID consts; AttributeDeviceID consts;
         AttributePciAddress consts; AttributePFName consts;
         AttributeEswitchMode consts] →
  NoDup ((deviceNameOf ∘ snd) <$> discoveredVFs helpers) →
  size catalog = length (discoveredVFs helpers)
  ∧ (∀ pfInfo vf, (pfInfo, vf) ∈ discoveredVFs helpers →
       ∃ d, catalog !! gostrings.ReplaceAll
                         (gostrings.ReplaceAll vf ":" "-") "." "-" = Some d
         ∧ Attributes d !! AttributeVendorID consts
           = Some (attr (VendorID pfInfo))
         ∧ Attributes d !! AttributeDeviceID consts
           = Some (attr (DeviceID pfInfo))
         ∧ Attributes d !! AttributePFName consts
           = Some (attr (NetName pfInfo))
         ∧ Attributes d !! AttributeEswitchMode consts
           = Some (attr (EswitchMode pfInfo))
         ∧ Attributes d !! AttributePciAddress consts = Some (attr vf))
  ∧ (∀ k d, catalog !! k = Some d →
       ∃ pfInfo vf, (pfInfo, vf) ∈ discoveredVFs helpers
         ∧ k = deviceNameOf vf ∧ d = vfDevice consts pfInfo vf)
  ∧ (∀ pfInfo, pfInfo ∈ discoveredPFs helpers →
       ∃ device, device ∈ pciDevices helpers
         ∧ isPF helpers device = true
         ∧ VendorID pfInfo = Vendor_ID device
         ∧ DeviceID pfInfo = Product_ID device
         ∧ NetName pfInfo = TryGetInterfaceName helpers (Address device)
         ∧ EswitchMode pfInfo = GetNicSriovMode helpers (Address device)).
Proof.
  intros Hd Hattrs Hkeys.
  destruct (discover_inv _ _ _ Hd) as (pci & Hpci & _ & _ & ->).
  unfold discoveredVFs, discoveredPFs, pciDevices in *. rewrite Hpci in *.
  set (vfs := vfPairs helpers _) in *.
  assert (NoDup (catalogEntry consts <$> vfs).*1) as Hnd.
  { by rewrite <-list_fmap_compose. }
  split; [|split; [|split]].
  - by rewrite gomap.insertAll_NoDup_size, length_fmap.
  - intros pfInfo vf Hin. exists (vfDevice consts pfInfo vf).
    destruct (vfDevice_attributes consts pfInfo vf Hattrs)
      as (_ & ? & ? & ? & ? & ?).
    split; [|done].
    apply gomap.insertAll_NoDup_lookup; [done|].
    apply (list_elem_of_fmap_2 (catalogEntry consts) _ (pfInfo, vf) Hin).
  - intros k d Hl%gomap.insertAll_lookup_Some.
    apply list_elem_of_fmap in Hl as ([pfInfo vf] & [= -> ->] & Hin).
    by exists pfInfo, vf.
  - intros pfInfo (device & -> & Hin)%list_elem_of_fmap.
    apply list_elem_of_filter in Hin as [Hpf Hin]. by exists device.
Qed.

Lemma discover_catalog_witness :
  size (catalogOf (DiscoverSriovDevices
                     (demoHelpers ["0000:01:00.1"; "0000:01:00.2"])
                     demoConsts)) = 2.
Proof.
  destruct (discover_catalog
              (demoHelpers ["0000:01:00.1"; "0000:01:00.2"]) demoConsts
              (catalogOf (DiscoverSriovDevices
                            (demoHelpers ["0000:01:00.1"; "0000:01:00.2"])
                            demoConsts)))
    as [Hsize _].
  - vm_compute. reflexivity.
  - compute_done.
  - compute_done.
  - exact Hsize.
Defined.

(** C2, the claim as stated fails when two VF symlinks resolve to one
    address: two symlinks are found under the PF, the catalog has one
    entry. *)
Lemma discover_duplicate_vf_symlink :
  length (discoveredVFs (demoHelpers ["0000:01:00.1"; "0000:01:00.1"])) = 2
  ∧ ∃ catalog,
      DiscoverSriovDevices (demoHelpers ["0000:01:00.1"; "0000:01:00.1"])
        demoConsts = Ok catalog
      ∧ size catalog = 1.
Proof.
  split; [vm_compute; reflexivity|].
  eexists. split; vm_compute; reflexivity.
Qed.

(** C8. Discovery returns an error exactly when the PCI enumeration fails,
    when it finds no PCI device, or when listing the VFs of a discovered PF
    fails; a device whose class does not parse as base 16, whose class is
    not the network class 0x02, which is itself a VF, or which has no
    interface name is skipped and the loop goes on with the remaining
    devices. *)
Theorem discover_error_cases (helpers : HelpersInterface)
    (consts : AttributeNames) :
  (is_err (DiscoverSriovDevices helpers consts) ↔
     is_err (PCI helpers)
     ∨ (∃ pci, PCI helpers = Ok pci ∧ Devices pci = [])
     ∨ (∃ pfInfo, pfInfo ∈ discoveredPFs helpers
          ∧ is_err (GetVFList helpers (PF_Address pfInfo))))
  ∧ (∀ device rest pfList,
       strconv.ParseInt16 (Class_ID device) = None
       ∨ (∃ devClass, strconv.ParseInt16 (Class_ID device) = Some devClass
                      ∧ devClass ≠ NetClass)
       ∨ IsSriovVF helpers (Address device) = true
       ∨ TryGetInterfaceName helpers (Address device) = "" →
       scanDevices helpers (device :: rest) pfList
       = scanDevices helpers rest pfList)
  ∧ (∀ devices,
       scanDevices helpers devices []
       = pfInfoOf helpers <$> filter (λ d, isPF helpers d = true) devices)
  ∧ (∀ device, isPF helpers device = true ↔
       strconv.ParseInt16 (Class_ID device) = Some NetClass
       ∧ IsSriovVF helpers (Address device) = false
       ∧ TryGetInterfaceName helpers (Address device) ≠ "").
Proof.
  split; [|split; [|split]].
  - unfold DiscoverSriovDevices, discoveredPFs, pciDevices.
    destruct (PCI helpers) as [pci|e]; simpl.
    2:{ split; [by left|done]. }
    destruct (decide (length (Devices pci) = 0)) as [Hlen|Hlen]; simpl.
    { split; [|done]. intros _. right; left. exists pci.
      split; [done|]. by apply nil_length_inv. }
    rewrite collectVFs_err_iff, scanDevices_filter, Exists_exists. simpl.
    split.
    + intros (pfInfo & Hin & Herr). right; right. by exists pfInfo.
    + intros [[]|[(pci' & [= <-] & Hnil)|(pfInfo & Hin & Herr)]].
      * by rewrite Hnil in Hlen.
      * by exists pfInfo.
  - intros device rest pfList Hskip.
    by apply scanDevices_skip, isPF_false_iff.
  - intros devices. by rewrite scanDevices_filter.
  - intros device. unfold isPF.
    destruct (strconv.ParseInt16 (Class_ID device)) as [devClass|].
    2:{ split; [done|]. by intros [? _]. }
    destruct (Z.eqb_spec devClass NetClass) as [->|Hne]; simpl.
    2:{ split; [done|]. intros [[= ?] _]. done. }
    destruct (IsSriovVF helpers (Address device)); simpl.
    { split; [done|]. by intros (_ & ? & _). }
    case_bool_decide as Hname; simpl; split; try done.
    by intros (_ & _ & ?).
Qed.

(** On the small sysfs tree only the PF at 0000:01:00.0 is kept: the
    storage controller, the VF and the device with the odd class are
    skipped, and a failing VF listing makes discovery fail. *)
Example discover_demo :
  discoveredPFs (demoHelpers []) =
    [ {| PciAddress := "0000:01:00.0"; NetName := "ens1f0";
         VendorID := "15b3"; DeviceID := "1017";
         PF_Address := "0000:01:00.0"; EswitchMode := "legacy" |} ]
  ∧ (dom (catalogOf (DiscoverSriovDevices
                      (demoHelpers ["0000:01:00.1"; "0000:01:00.2"])
                      demoConsts)) : gset string)
    = {[ "0000-01-00-1"; "0000-01-00-2" ]}.
Proof. split; [vm_compute; reflexivity|]. eval_refl. Qed.

End discovery.

(** ** Package slices *)

Module slices.
Section slices.
Context {A : Type}.

(** [slices.Contains]. *)
Definition Contains `{EqDecision A} (s : list A) (v : A) : bool :=
  bool_decide (v ∈ s).

Fixpoint firstMatch (p : A → bool) (s : list A) : option A :=
  match s with
  | [] => None
  | x :: rest => if p x then Some x else firstMatch p rest
  end.

(** The element at which [for _, x := range slices.Backward(s)] stops when
    its body is [if p(x) { ...; break }]: the last element of [s] that
    satisfies [p], if there is one. *)
Definition firstBackward (p : A → bool) (s : list A) : option A :=
  firstMatch p (reverse s).


Lemma firstMatch_None p s :
  firstMatch p s = None ↔ ∀ y, y ∈ s → p y = false.
Proof.
  induction s as [|y s IH]; simpl.
  - split; [|done]. intros _ ? ?%elem_of_nil. done.
  - destruct (p y) eqn:Hy.
    + split; [done|]. intros H. rewrite H in Hy; [done|]. by left.
    + rewrite IH. split.
      * intros H z [->|?]%elem_of_cons; auto.
      * intros H z ?. apply H. by right.
Qed.


Lemma firstBackward_None p s :
  firstBackward p s = None ↔ ∀ y, y ∈ s → p y = false.
Proof.
  unfold firstBackward. rewrite firstMatch_None.
  split; intros H y ?; apply H; by apply elem_of_reverse.
Qed.

End slices.
End slices.

(** ** Grouping the allocation results by config

    The loop of [DeviceState.prepareDevices] (state.go) and of
    [DeviceStateManager.getConfigResultsMap] (devicestate/state.go); the two
    differ in the text of the error only. *)

Module configmatch.
Import resourceapi configapi.

Abbreviation ConfigResultsMap :=
  (gmap RuntimeObject (list DeviceRequestAllocationResult)).

(** [len(c.Requests) == 0 || slices.Contains(c.Requests, result.Request)]. *)
Definition matches (request : string) (c : types.OpaqueDeviceConfig) : bool :=
  bool_decide (length (types.Requests c) = 0)
  || slices.Contains (types.Requests c) request.

(** [configResultsMap[c.Config] = append(configResultsMap[c.Config], &result)]. *)
Definition appendResult (configResultsMap : ConfigResultsMap)
    (c : types.OpaqueDeviceConfig) (r : DeviceRequestAllocationResult)
  : ConfigResultsMap :=
  <[types.Config c := (configResultsMap !!! types.Config c) ++ [r]]>
    configResultsMap.

(** [for _, result := range claim.Status.Allocation.Devices.Results]. *)
Fixpoint assignResults (notAllocatable : string)
    (allocatable : gmap string Device)
    (configs : list types.OpaqueDeviceConfig)
    (results : list DeviceRequestAllocationResult)
    (configResultsMap : ConfigResultsMap) : result ConfigResultsMap :=
  match results with
  | [] => Ok configResultsMap
  | r :: rest =>
      match allocatable !! Device_ r with
      | None => Err (notAllocatable +:+ Device_ r)
      | Some _ =>
          assignResults notAllocatable allocatable configs rest
            match slices.firstBackward (matches (Request r)) configs with
            | Some c => appendResult configResultsMap c r
            | None => configResultsMap
            end
      end
  end.

(** The config object a request resolves to. *)
Definition resolve (configs : list types.OpaqueDeviceConfig)
    (request : string) : option RuntimeObject :=
  types.Config <$> slices.firstBackward (matches request) configs.

Section facts.
Variable notAllocatable : string.
Variable allocatable : gmap string Device.
Variable configs : list types.OpaqueDeviceConfig.

Lemma matches_empty request c :
  types.Requests c = [] → matches request c = true.
Proof. intros Hc. unfold matches. by rewrite Hc. Qed.


(** With a config whose request list is empty at the front, the scan always
    stops. *)
Lemma firstBackward_default dflt request :
  types.Requests dflt = [] →
  is_Some (slices.firstBackward (matches request) (dflt :: configs)).
Proof.
  intros Hd.
  destruct (slices.firstBackward _ _) as [c|] eqn:Hf; [by eexists|].
  rewrite slices.firstBackward_None in Hf.
  specialize (Hf dflt). rewrite matches_empty in Hf by done.
  discriminate Hf. by left.
Qed.

Lemma assignResults_lookup results m0 m k :
  assignResults notAllocatable allocatable configs results m0 = Ok m →
  m !!! k
  = m0 !!! k
    ++ filter (λ r, resolve configs (Request r) = Some k) results.
Proof.
  revert m0. induction results as [|r rest IH]; intros m0; simpl.
  - intros [= ->]. by rewrite app_nil_r.
  - destruct (allocatable !! Device_ r); [|done].
    intros Hrest%IH. rewrite Hrest.
    assert (resolve configs (Request r)
            = types.Config <$> slices.firstBackward (matches (Request r))
                                 configs) as Hres by done.
    destruct (slices.firstBackward (matches (Request r)) configs)
      as [c|] eqn:Hc; simpl in Hres.
    + unfold appendResult. destruct (decide (types.Config c = k)) as [<-|Hne].
      * rewrite lookup_total_insert_eq, filter_cons_True by done.
        by rewrite <-app_assoc.
      * rewrite lookup_total_insert_ne, filter_cons_False by congruence.
        done.
    + rewrite filter_cons_False; [done|]. by rewrite Hres.
Qed.

Lemma assignResults_dom results m0 m k :
  assignResults notAllocatable allocatable configs results m0 = Ok m →
  is_Some (m !! k) ↔
    is_Some (m0 !! k)
    ∨ ∃ r, r ∈ results ∧ resolve configs (Request r) = Some k.
Proof.
  revert m0. induction results as [|r rest IH]; intros m0; simpl.
  - intros [= ->]. split; [by left|]. intros [?|(r & []%elem_of_nil & _)].
    done.
  - destruct (allocatable !! Device_ r); [|done].
    intros Hrest%IH. rewrite Hrest. unfold resolve.
    destruct (slices.firstBackward (matches (Request r)) configs)
      as [c|] eqn:Hc; simpl.
    + unfold appendResult. rewrite lookup_insert_is_Some'. split.
      * intros [[<-|?]|(r' & Hin & Hr')].
        -- right. exists r. split; [by left|]. by rewrite Hc.
        -- by left.
        -- right. exists r'. split; [by right|done].
      * intros [?|(r' & [->|Hin]%elem_of_cons & Hr')].
        -- left. by right.
        -- rewrite Hc in Hr'. left. left. by injection Hr'.
        -- right. by exists r'.
    + split.
      * intros [?|(r' & Hin & Hr')]; [by left|].
        right. exists r'. split; [by right|done].
      * intros [?|(r' & [->|Hin]%elem_of_cons & Hr')]; [by left| |].
        -- by rewrite Hc in Hr'.
        -- right. by exists r'.
Qed.

Lemma assignResults_allocatable results m0 m r :
  assignResults notAllocatable allocatable configs results m0 = Ok m →
  r ∈ results → is_Some (allocatable !! Device_ r).
Proof.
  revert m0. induction results as [|r' rest IH]; intros m0; simpl.
  - by intros _ ?%elem_of_nil.
  - destruct (allocatable !! Device_ r') eqn:Hr'; [|done].
    intros Hrest [->|Hin]%elem_of_cons; [by rewrite Hr'|]. eauto.
Qed.

Lemma assignResults_Ok results m0 :
  (∀ r, r ∈ results → is_Some (allocatable !! Device_ r)) →
  ∃ m, assignResults notAllocatable allocatable configs results m0 = Ok m.
Proof.
  revert m0. induction results as [|r rest IH]; intros m0 Hall; simpl.
  - by eexists.
  - destruct (Hall r) as [d ->]; [by left|].
    apply IH. intros r' ?. apply Hall. by right.
Qed.

(** Starting from the empty map: the list under a config is the sub-list of
    the results that resolve to it, in order, and a config with no result
    has no entry. *)
Lemma assignResults_entry results m c rs :
  assignResults notAllocatable allocatable configs results ∅ = Ok m →
  m !! c = Some rs →
  rs = filter (λ r, resolve configs (Request r) = Some c) results
  ∧ rs ≠ [].
Proof.
  intros Ha Hc.
  pose proof (assignResults_lookup results ∅ m c Ha) as Hl.
  rewrite lookup_total_alt, Hc, lookup_total_empty in Hl. simpl in Hl.
  split; [done|].
  destruct (proj1 (assignResults_dom results ∅ m c Ha)) as [Hin|Hin].
  - by eexists.
  - rewrite lookup_empty in Hin. by destruct Hin.
  - destruct Hin as (r & Hr & Hres). intros ->.
    assert (r ∈ filter (λ r, resolve configs (Request r) = Some c) results)
      as Hf by by apply list_elem_of_filter.
    rewrite <-Hl in Hf. by apply elem_of_nil in Hf.
Qed.

Lemma assignResults_member results m c r :
  assignResults notAllocatable allocatable configs results ∅ = Ok m →
  r ∈ results → resolve configs (Request r) = Some c →
  ∃ rs, m !! c = Some rs ∧ r ∈ rs.
Proof.
  intros Ha Hr Hres.
  destruct (proj2 (assignResults_dom results ∅ m c Ha)) as [rs Hrs].
  { right. by exists r. }
  exists rs. split; [done|].
  destruct (assignResults_entry results m c rs Ha Hrs) as [-> _].
  by apply list_elem_of_filter.
Qed.

Lemma assignResults_entry_member results m c rs r :
  assignResults notAllocatable allocatable configs results ∅ = Ok m →
  m !! c = Some rs → r ∈ rs →
  r ∈ results ∧ resolve configs (Request r) = Some c.
Proof.
  intros Ha Hc Hr.
  destruct (assignResults_entry results m c rs Ha Hc) as [-> _].
  apply list_elem_of_filter in Hr. tauto.
Qed.

End facts.
End configmatch.

(** ** The checkpoint-backed device state (src/pkg/state/state.go) *)

Module state.
Import resourceapi configapi.

(** What [DeviceState] calls in packages whose sources are not at hand
    (configapi, cdi, the kubelet's checkpoint manager), and the order in
    which the Go runtime ranges over [configResultsMap] in each of the two
    loops. A [Some e] is a non-nil error. *)
Record Deps := {
  GetOpaqueDeviceConfigs :
    list DeviceAllocationConfiguration → result (list types.OpaqueDeviceConfig);
  defaultAddr : positive;
  Normalize : VfConfig → result VfConfig;
  Validate : VfConfig → option string;
  GetClaimDevices : string → list string → list string;
  CreateClaimSpecFile : string → types.PreparedDevices → option string;
  DeleteClaimSpecFile : string → option string;
  CreateCheckpoint : gmap string types.PreparedDevices → option string;
  rangeApply : configmatch.ConfigResultsMap →
               list (RuntimeObject * list DeviceRequestAllocationResult);
  rangeBuild : configmatch.ConfigResultsMap →
               list (RuntimeObject * list DeviceRequestAllocationResult);
}.

(** The checkpoint file of the driver, as the checkpoint manager decodes it
    ([None]: it cannot be read), and what has been done so far. *)
Record World := {
  checkpointFile : option (gmap string types.PreparedDevices);
  trace : list Event;
}.

Definition log (e : Event) (w : World) : World :=
  {| checkpointFile := checkpointFile w; trace := trace w ++ [e] |}.

Section DeviceState.
Variable deps : Deps.
Variable allocatable : gmap string Device.

(** [*deviceInfo.Attributes["pciAddress"].StringValue]: a missing key gives
    the zero attribute, whose [StringValue] is nil. *)
Definition pciAddressOf (deviceInfo : Device) : option string :=
  Attributes deviceInfo !! "pciAddress" ≫= StringValue.

Fixpoint applyConfigLoop (config : VfConfig)
    (results : list DeviceRequestAllocationResult)
    (perDeviceEdits : gmap string cdiapi.ContainerEdits)
  : outcome (gmap string cdiapi.ContainerEdits) :=
  match results with
  | [] => Return (Ok perDeviceEdits)
  | r :: rest =>
      match allocatable !! Device_ r with
      | None =>
          Return (Err ("device " +:+ Device_ r
                       +:+ " not found in allocatable devices"))
      | Some deviceInfo =>
          match pciAddressOf deviceInfo with
          | None => Panic "invalid memory address or nil pointer dereference"
          | Some pciAddress =>
              let envs :=
                ["VF_DEVICE_" +:+ Device_ r +:+ "=" +:+ pciAddress] in
              let edits := {| cdiapi.Env := envs |} in
              applyConfigLoop config rest
                (<[Device_ r := edits]> perDeviceEdits)
          end
      end
  end.

Definition applyConfig (config : VfConfig)
    (results : list DeviceRequestAllocationResult)
  : outcome (gmap string cdiapi.ContainerEdits) :=
  applyConfigLoop config results ∅.

(** [for c, results := range configResultsMap]: cast, normalize, validate,
    apply, merge. Merging [containerEdits] into the overall map lets its
    entries win. *)
Fixpoint applyConfigs
    (entries : list (RuntimeObject * list DeviceRequestAllocationResult))
    (perDeviceCDIContainerEdits : gmap string cdiapi.ContainerEdits)
  : outcome (gmap string cdiapi.ContainerEdits) :=
  match entries with
  | [] => Return (Ok perDeviceCDIContainerEdits)
  | (c, results) :: rest =>
      match objValue c with
      | None =>
          Return (Err "runtime object is not a regognized configuration")
      | Some config =>
          match Normalize deps config with
          | Err e => Return (Err ("error normalizing Vf config: " +:+ e))
          | Ok config =>
              match Validate deps config with
              | Some e => Return (Err ("error validating Vf config: " +:+ e))
              | None =>
                  match applyConfig config results with
                  | Panic msg => Panic msg
                  | Return (Err e) =>
                      Return (Err ("error applying Vf config: " +:+ e))
                  | Return (Ok containerEdits) =>
                      applyConfigs rest
                        (containerEdits ∪ perDeviceCDIContainerEdits)
                  end
              end
          end
      end
  end.

Definition preparedDevice (claim : ResourceClaim)
    (perDeviceCDIContainerEdits : gmap string cdiapi.ContainerEdits)
    (r : DeviceRequestAllocationResult) : types.PreparedDevice :=
  {| types.Device :=
       {| drapbv1.RequestNames := [Request r];
          drapbv1.PoolName := Pool r;
          drapbv1.DeviceName := Device_ r;
          drapbv1.CDIDeviceIDs :=
            GetClaimDevices deps (UID claim) [Device_ r] |};
     types.ContainerEdits := perDeviceCDIContainerEdits !! Device_ r |}.

(** [for _, results := range configResultsMap { for _, result := range
    results { ... append ... } }]. *)
Definition buildPrepared (claim : ResourceClaim)
    (perDeviceCDIContainerEdits : gmap string cdiapi.ContainerEdits)
    (entries : list (RuntimeObject * list DeviceRequestAllocationResult))
  : types.PreparedDevices :=
  entries ≫= λ entry,
    preparedDevice claim perDeviceCDIContainerEdits <$> entry.2.

Definition defaultConfig : types.OpaqueDeviceConfig :=
  {| types.Requests := [];
     types.Config := DefaultVfConfig (defaultAddr deps) |}.

(** Lines 129 to 150 of state.go: the default config goes to the front of
    the list, then every result is put under the config it resolves to. *)
Definition configResultsMapOf (configs : list types.OpaqueDeviceConfig)
    (results : list DeviceRequestAllocationResult)
  : result configmatch.ConfigResultsMap :=
  let configs := defaultConfig :: configs in
  configmatch.assignResults "requested GPU is not allocatable: "
    allocatable configs results ∅.

Definition prepareDevices (claim : ResourceClaim)
  : outcome types.PreparedDevices :=
  match Allocation (Status claim) with
  | None => Return (Err "claim not yet allocated")
  | Some allocation =>
      match GetOpaqueDeviceConfigs deps (Config (Devices allocation)) with
      | Err e =>
          Return (Err ("error getting opaque device configs: " +:+ e))
      | Ok configs =>
          match configResultsMapOf configs
                  (Results (Devices allocation)) with
          | Err e => Return (Err e)
          | Ok configResultsMap =>
              match applyConfigs (rangeApply deps configResultsMap) ∅ with
              | Panic msg => Panic msg
              | Return (Err e) => Return (Err e)
              | Return (Ok perDeviceCDIContainerEdits) =>
                  Return (Ok (buildPrepared claim perDeviceCDIContainerEdits
                                (rangeBuild deps configResultsMap)))
              end
          end
      end
  end.

(** [checkpointManager.GetCheckpoint]. *)
Definition GetCheckpoint (w : World)
  : result (gmap string types.PreparedDevices) * World :=
  (match checkpointFile w with
   | Some preparedClaims => Ok preparedClaims
   | None => Err "checkpoint is not found"
   end, log EvGetCheckpoint w).

Definition Prepare (claim : ResourceClaim) (w : World)
  : outcome (list drapbv1.Device) * World :=
  let claimUID := UID claim in
  match GetCheckpoint w with
  | (Err e, w) => (Return (Err ("unable to sync from checkpoint: " +:+ e)), w)
  | (Ok preparedClaims, w) =>
      if decide (preparedClaims !!! claimUID ≠ []) then
        (Return (Ok (types.GetDevices (preparedClaims !!! claimUID))), w)
      else
        match prepareDevices claim with
        | Panic msg => (Panic msg, w)
        | Return (Err e) => (Return (Err ("prepare failed: " +:+ e)), w)
        | Return (Ok preparedDevices) =>
            let w :=
              log (EvCreateClaimSpecFile claimUID
                     ((drapbv1.DeviceName ∘ types.Device)
                        <$> preparedDevices)) w in
            match CreateClaimSpecFile deps claimUID preparedDevices with
            | Some e =>
                (Return (Err ("unable to create CDI spec file for claim: "
                              +:+ e)), w)
            | None =>
                let preparedClaims :=
                  <[claimUID := preparedDevices]> preparedClaims in
                let w := log EvCreateCheckpoint w in
                match CreateCheckpoint deps preparedClaims with
                | Some e =>
                    (Return (Err ("unable to sync to checkpoint: " +:+ e)), w)
                | None =>
                    (Return (Ok (types.GetDevices
                                   (preparedClaims !!! claimUID))),
                     {| checkpointFile := Some preparedClaims;
                        trace := trace w |})
                end
            end
        end
  end.

Definition unprepareDevices (claimUID : string)
    (devices : types.PreparedDevices) : option string :=
  None.

Definition Unprepare (claimUID : string) (w : World) : option string * World :=
  match GetCheckpoint w with
  | (Err e, w) => (Some ("unable to sync from checkpoint: " +:+ e), w)
  | (Ok preparedClaims, w) =>
      if decide (preparedClaims !!! claimUID = []) then (None, w)
      else
        match unprepareDevices claimUID (preparedClaims !!! claimUID) with
        | Some e => (Some ("unprepare failed: " +:+ e), w)
        | None =>
            let w := log (EvDeleteClaimSpecFile claimUID) w in
            match DeleteClaimSpecFile deps claimUID with
            | Some e =>
                (Some ("unable to delete CDI spec file for claim: " +:+ e), w)
            | None =>
                let preparedClaims := delete claimUID preparedClaims in
                let w := log EvCreateCheckpoint w in
                match CreateCheckpoint deps preparedClaims with
                | Some e => (Some ("unable to sync to checkpoint: " +:+ e), w)
                | None =>
                    (None, {| checkpointFile := Some preparedClaims;
                              trace := trace w |})
                end
            end
        end
  end.

(** *** The container edits of a prepared device *)

(** The edits [applyConfig] writes for a device: one variable, named after
    the device, holding its pciAddress attribute. *)
Definition editsOf (device : string) (edits : cdiapi.ContainerEdits) : Prop :=
  ∃ deviceInfo pciAddress,
    allocatable !! device = Some deviceInfo
    ∧ Attributes deviceInfo !! "pciAddress"
      = Some {| StringValue := Some pciAddress |}
    ∧ cdiapi.Env edits = ["VF_DEVICE_" +:+ device +:+ "=" +:+ pciAddress].

Definition allEdits (perDevice : gmap string cdiapi.ContainerEdits) : Prop :=
  ∀ device edits, perDevice !! device = Some edits → editsOf device edits.

Lemma pciAddressOf_Some deviceInfo pciAddress :
  pciAddressOf deviceInfo = Some pciAddress →
  Attributes deviceInfo !! "pciAddress"
  = Some {| StringValue := Some pciAddress |}.
Proof.
  unfold pciAddressOf.
  destruct (Attributes deviceInfo !! "pciAddress") as [[v]|]; [|done].
  simpl. by intros ->.
Qed.

Lemma applyConfigLoop_ok config results acc perDevice :
  applyConfigLoop config results acc = Return (Ok perDevice) →
  allEdits acc →
  allEdits perDevice
  ∧ (∀ r, r ∈ results → is_Some (perDevice !! Device_ r))
  ∧ (∀ device, is_Some (acc !! device) → is_Some (perDevice !! device)).
Proof.
  revert acc. induction results as [|r rest IH]; intros acc; simpl.
  - intros [= ->] Hacc. split; [done|]. split; [|done].
    by intros ? ?%elem_of_nil.
  - destruct (allocatable !! Device_ r) as [deviceInfo|] eqn:Hdev; [|done].
    destruct (pciAddressOf deviceInfo) as [pciAddress|] eqn:Hpci; [|done].
    intros Hrest Hacc. apply IH in Hrest as (Hall & Hres & Hmono).
    + split; [done|]. split.
      * intros r' [->|Hin]%elem_of_cons; [|by apply Hres].
        apply Hmono. rewrite lookup_insert_eq. by eexists.
      * intros device Hd. apply Hmono.
        rewrite lookup_insert_is_Some. destruct (decide (Device_ r = device));
          [by left|by right].
    + intros device edits.
      rewrite lookup_insert_Some. intros [[<- <-]|[_ Hold]]; [|by apply Hacc].
      exists deviceInfo, pciAddress. split; [done|].
      split; [by apply pciAddressOf_Some|done].
Qed.

Lemma applyConfigs_ok entries acc perDevice :
  applyConfigs entries acc = Return (Ok perDevice) →
  allEdits acc →
  allEdits perDevice
  ∧ (∀ c rs r, (c, rs) ∈ entries → r ∈ rs →
       is_Some (perDevice !! Device_ r))
  ∧ (∀ device, is_Some (acc !! device) → is_Some (perDevice !! device)).
Proof.
  revert acc. induction entries as [|[c rs] rest IH]; intros acc; simpl.
  - intros [= ->] Hacc. split; [done|]. split; [|done].
    by intros ??? ?%elem_of_nil.
  - destruct (objValue c) as [config|]; [|done].
    destruct (Normalize deps config) as [config'|]; [|done].
    destruct (Validate deps config'); [done|].
    destruct (applyConfig config' rs) as [[containerEdits|]|] eqn:Happly;
      [|done..].
    apply applyConfigLoop_ok in Happly as (Hnew & Hres & _).
    2:{ intros ??. by rewrite lookup_empty. }
    intros Hrest Hacc. apply IH in Hrest as (Hall & Hmem & Hmono).
    + split; [done|]. split.
      * intros c' rs' r [[= -> ->]|Hin]%elem_of_cons Hr; [|by eapply Hmem].
        apply Hmono. destruct (Hres r Hr) as [e He].
        exists e. by apply lookup_union_Some_l.
      * intros device [e He]. apply Hmono.
        destruct (containerEdits !! device) as [e'|] eqn:Hc.
        -- exists e'. by apply lookup_union_Some_l.
        -- exists e. by rewrite lookup_union_r.
    + intros device edits [Hl|[_ Hr]]%lookup_union_Some_raw; auto.
Qed.

Lemma elem_of_buildPrepared claim perDevice entries pd :
  pd ∈ buildPrepared claim perDevice entries ↔
    ∃ c rs r, (c, rs) ∈ entries ∧ r ∈ rs
              ∧ pd = preparedDevice claim perDevice r.
Proof.
  unfold buildPrepared. rewrite list_elem_of_bind. split.
  - intros ([c rs] & (r & -> & Hr)%list_elem_of_fmap & Hin).
    by exists c, rs, r.
  - intros (c & rs & r & Hin & Hr & ->). exists (c, rs).
    split; [|done]. apply list_elem_of_fmap. by exists r.
Qed.

Lemma resolve_default configs request :
  is_Some (configmatch.resolve (defaultConfig :: configs) request).
Proof.
  unfold configmatch.resolve.
  destruct (configmatch.firstBackward_default configs defaultConfig request)
    as [c ->]; [done|]. by eexists.
Qed.

Lemma prepareDevices_inv claim pds :
  (∀ m, rangeApply deps m ≡ₚ map_to_list m) →
  (∀ m, rangeBuild deps m ≡ₚ map_to_list m) →
  prepareDevices claim = Return (Ok pds) →
  ∃ allocation configs m perDevice,
    Allocation (Status claim) = Some allocation
    ∧ GetOpaqueDeviceConfigs deps (Config (Devices allocation)) = Ok configs
    ∧ configResultsMapOf configs (Results (Devices allocation)) = Ok m
    ∧ allEdits perDevice
    ∧ (∀ r, r ∈ Results (Devices allocation) →
         is_Some (perDevice !! Device_ r))
    ∧ (∀ pd, pd ∈ pds ↔
         ∃ r, r ∈ Results (Devices allocation)
              ∧ pd = preparedDevice claim perDevice r).
Proof.
  intros Hrange1 Hrange2. unfold prepareDevices.
  destruct (Allocation (Status claim)) as [allocation|]; [|done].
  destruct (GetOpaqueDeviceConfigs deps _) as [configs|] eqn:Hcfg; [|done].
  destruct (configResultsMapOf configs _) as [m|] eqn:Hm; [|done].
  destruct (applyConfigs _ ∅) as [[perDevice|]|] eqn:Happly; [|done..].
  intros [= <-]. exists allocation, configs, m, perDevice.
  apply applyConfigs_ok in Happly as (Hall & Hmem & _).
  2:{ intros ??. by rewrite lookup_empty. }
  assert (∀ r, r ∈ Results (Devices allocation) →
            ∃ c rs, m !! c = Some rs ∧ r ∈ rs) as Hcover.
  { intros r Hr. destruct (resolve_default configs (Request r)) as [c Hc].
    exists c. by eapply configmatch.assignResults_member. }
  do 4 (split; [done|]). split; [|intros pd; split].
  - intros r Hr. destruct (Hcover r Hr) as (c & rs & Hc & Hin).
    apply (Hmem c rs r); [|done].
    rewrite Hrange1. by apply elem_of_map_to_list.
  - rewrite elem_of_buildPrepared. intros (c & rs & r & Hin & Hr & ->).
    exists r. split; [|done].
    rewrite Hrange2 in Hin. apply elem_of_map_to_list in Hin.
    by eapply configmatch.assignResults_entry_member.
  - intros (r & Hr & ->). rewrite elem_of_buildPrepared.
    destruct (Hcover r Hr) as (c & rs & Hc & Hin).
    exists c, rs, r. split; [|done].
    rewrite Hrange2. by apply elem_of_map_to_list.
Qed.

(** *** Prepare and Unprepare against the checkpoint *)

Lemma Prepare_already_prepared claim w preparedClaims :
  checkpointFile w = Some preparedClaims →
  preparedClaims !!! UID claim ≠ [] →
  Prepare claim w
  = (Return (Ok (types.GetDevices (preparedClaims !!! UID claim))),
     log EvGetCheckpoint w).
Proof.
  intros Hfile Hsome. unfold Prepare, GetCheckpoint. rewrite Hfile.
  by rewrite decide_True.
Qed.

Lemma Prepare_Ok_inv claim w devices w' :
  Prepare claim w = (Return (Ok devices), w') →
  ∃ preparedClaims,
    checkpointFile w' = Some preparedClaims
    ∧ devices = types.GetDevices (preparedClaims !!! UID claim).
Proof.
  unfold Prepare, GetCheckpoint.
  destruct (checkpointFile w) as [preparedClaims|] eqn:Hfile; [|done].
  destruct (decide (preparedClaims !!! UID claim ≠ [])).
  { intros [= <- <-]. by exists preparedClaims. }
  destruct (prepareDevices claim) as [[preparedDevices|]|]; [|done..].
  destruct (CreateClaimSpecFile deps _ _); [done|].
  destruct (CreateCheckpoint deps _); [done|].
  intros [= <- <-]. by eexists.
Qed.

Lemma Unprepare_unknown claimUID w preparedClaims :
  checkpointFile w = Some preparedClaims →
  preparedClaims !! claimUID = None →
  Unprepare claimUID w = (None, log EvGetCheckpoint w).
Proof.
  intros Hfile Hnone. unfold Unprepare, GetCheckpoint. rewrite Hfile.
  rewrite decide_True; [done|].
  by rewrite lookup_total_alt, Hnone.
Qed.

End DeviceState.
End state.

(** ** The types of the NRI-integrated subsystem *)

Module drasriovtypes.

(** [kubeletplugin.NamespacedObject]. *)
Record NamespacedObject := {
  Name : string;
  Namespace : string;
  UID : string;
}.

(** Modelled from the spec: the [PreparedDevice] of the NRI-integrated
    subsystem, whose declaration is not at hand; its fields are those
    [prepareDevices] fills in and the NRI hooks set ("claim/pod identity
    plus, once known, pod network-namespace path and sandbox ID"). *)
Record PreparedDevice := {
  ClaimNamespacedName : NamespacedObject;
  PodUID : string;
  PodName : string;
  PodNamespace : string;
  Device : drapbv1.Device;
  ContainerEdits : option cdiapi.ContainerEdits;
  NetAttachDefConfig : string;
  IfName : string;
  PodNetworkNamespace : string;
  PodSandboxID : string;
}.

Abbreviation PreparedDevices := (list PreparedDevice).

End drasriovtypes.

(** ** The NRI-integrated device state manager (src/pkg/devicestate/state.go) *)

Module devicestate.
Import resourceapi configapi.

(** What [DeviceStateManager] calls in packages whose sources are not at
    hand (consts, configapi, cdi, the API client, [AddDeviceIDToNetConf] of
    package types), and the order in which the Go runtime ranges over
    [configResultsMap] in each of the two loops. [GetNetAttachDef name
    namespace] is [k8sClient.Get] followed by reading [Spec.Config]. *)
Record Deps := {
  AttributePciAddress : string;
  getOpaqueDeviceConfigs :
    list DeviceAllocationConfiguration → result (list types.OpaqueDeviceConfig);
  defaultAddr : positive;
  Normalize : VfConfig → result VfConfig;
  Validate : VfConfig → option string;
  GetClaimDevices : string → list string → list string;
  GetNetAttachDef : string → string → result string;
  AddDeviceIDToNetConf : string → string → result string;
  CreateClaimSpecFile : drasriovtypes.PreparedDevices → option string;
  DeleteClaimSpecFile : string → option string;
  rangeApply : configmatch.ConfigResultsMap →
               list (RuntimeObject * list DeviceRequestAllocationResult);
  rangeBuild : configmatch.ConfigResultsMap →
               list (RuntimeObject * list DeviceRequestAllocationResult);
}.

(** The three per-device maps [applyConfig] returns. *)
Record PerDevice := {
  perDeviceEdits : gmap string cdiapi.ContainerEdits;
  perDeviceNetAttachDefs : gmap string string;
  perDeviceIfName : gmap string string;
}.

Definition emptyPerDevice : PerDevice :=
  {| perDeviceEdits := ∅; perDeviceNetAttachDefs := ∅; perDeviceIfName := ∅ |}.

Section DeviceStateManager.
Variable deps : Deps.
Variable allocatable : gmap string Device.

(** [*deviceInfo.Attributes[consts.AttributePciAddress].StringValue]. *)
Definition pciAddressOf (deviceInfo : Device) : option string :=
  Attributes deviceInfo !! AttributePciAddress deps ≫= StringValue.

Definition defaultConfig : types.OpaqueDeviceConfig :=
  {| types.Requests := [];
     types.Config := DefaultVfConfig (defaultAddr deps) |}.

Definition getConfigResultsMap (configs : list types.OpaqueDeviceConfig)
    (allocation : AllocationResult) : result configmatch.ConfigResultsMap :=
  let configs := defaultConfig :: configs in
  configmatch.assignResults "requested VF is not allocatable: "
    allocatable configs (Results (Devices allocation)) ∅.

Fixpoint applyConfigLoop (namespace : string) (vfConfig : VfConfig)
    (results : list DeviceRequestAllocationResult)
    (acc : PerDevice) (t : list Event) : outcome PerDevice * list Event :=
  match results with
  | [] => (Return (Ok acc), t)
  | r :: rest =>
      match allocatable !! Device_ r with
      | None =>
          (Return (Err ("device " +:+ Device_ r
                        +:+ " not found in allocatable devices")), t)
      | Some deviceInfo =>
          match pciAddressOf deviceInfo with
          | None =>
              (Panic "invalid memory address or nil pointer dereference", t)
          | Some pciAddress =>
              let envs :=
                [ "VF_DEVICE_"
                    +:+ gostrings.ReplaceAll (Device_ r) "-" "_"
                    +:+ "=" +:+ pciAddress;
                  "NET_ATTACH_DEF_NAME=" +:+ NetAttachDefName vfConfig ] in
              let edits := {| cdiapi.Env := envs |} in
              let t :=
                t ++ [EvGetNetAttachDef (NetAttachDefName vfConfig)
                        namespace] in
              match GetNetAttachDef deps (NetAttachDefName vfConfig)
                      namespace with
              | Err e =>
                  (Return (Err ("error getting net attach def for net "
                                +:+ "attach def "
                                +:+ NetAttachDefName vfConfig +:+ ": "
                                +:+ e)), t)
              | Ok specConfig =>
                  match AddDeviceIDToNetConf deps specConfig pciAddress with
                  | Err e =>
                      (Return (Err ("error converting net attach def config "
                                    +:+ "to sriov-cni format: " +:+ e)), t)
                  | Ok netConf =>
                      applyConfigLoop namespace vfConfig rest
                        {| perDeviceEdits :=
                             <[Device_ r := edits]> (perDeviceEdits acc);
                           perDeviceNetAttachDefs :=
                             <[Device_ r := netConf]>
                               (perDeviceNetAttachDefs acc);
                           perDeviceIfName :=
                             <[Device_ r := IfName vfConfig]>
                               (perDeviceIfName acc) |} t
                  end
              end
          end
      end
  end.

Definition applyConfig (namespace : string) (vfConfig : VfConfig)
    (results : list DeviceRequestAllocationResult) (t : list Event)
  : outcome PerDevice * list Event :=
  applyConfigLoop namespace vfConfig results emptyPerDevice t.

(** The three merges after [applyConfig]: the new entries win. *)
Definition merge (new acc : PerDevice) : PerDevice :=
  {| perDeviceEdits := perDeviceEdits new ∪ perDeviceEdits acc;
     perDeviceNetAttachDefs :=
       perDeviceNetAttachDefs new ∪ perDeviceNetAttachDefs acc;
     perDeviceIfName := perDeviceIfName new ∪ perDeviceIfName acc |}.

Fixpoint applyConfigs (namespace : string)
    (entries : list (RuntimeObject * list DeviceRequestAllocationResult))
    (acc : PerDevice) (t : list Event) : outcome PerDevice * list Event :=
  match entries with
  | [] => (Return (Ok acc), t)
  | (c, results) :: rest =>
      match objValue c with
      | None =>
          (Return (Err "runtime object is not a regognized configuration"), t)
      | Some config =>
          match Normalize deps config with
          | Err e =>
              (Return (Err ("error normalizing Vf config: " +:+ e)), t)
          | Ok config =>
              match Validate deps config with
              | Some e =>
                  (Return (Err ("error validating Vf config: " +:+ e)), t)
              | None =>
                  match applyConfig namespace config results t with
                  | (Panic msg, t) => (Panic msg, t)
                  | (Return (Err e), t) =>
                      (Return (Err ("error applying Vf config: " +:+ e)), t)
                  | (Return (Ok new), t) =>
                      applyConfigs namespace rest (merge new acc) t
                  end
              end
          end
      end
  end.

Definition preparedDevice (claim : ResourceClaim)
    (pod : ResourceClaimConsumerReference) (perDevice : PerDevice)
    (r : DeviceRequestAllocationResult) : drasriovtypes.PreparedDevice :=
  {| drasriovtypes.ClaimNamespacedName :=
       {| drasriovtypes.Name := ClaimName claim;
          drasriovtypes.Namespace := Namespace claim;
          drasriovtypes.UID := UID claim |};
     drasriovtypes.PodUID := ConsumerUID pod;
     drasriovtypes.PodName := ConsumerName pod;
     drasriovtypes.PodNamespace := Namespace claim;
     drasriovtypes.Device :=
       {| drapbv1.RequestNames := [Request r];
          drapbv1.PoolName := Pool r;
          drapbv1.DeviceName := Device_ r;
          drapbv1.CDIDeviceIDs :=
            GetClaimDevices deps (UID claim) [Device_ r] |};
     drasriovtypes.ContainerEdits := perDeviceEdits perDevice !! Device_ r;
     drasriovtypes.NetAttachDefConfig :=
       perDeviceNetAttachDefs perDevice !!! Device_ r;
     drasriovtypes.IfName := perDeviceIfName perDevice !!! Device_ r;
     drasriovtypes.PodNetworkNamespace := "";
     drasriovtypes.PodSandboxID := "" |}.

(** The body of the two nested loops that build the prepared devices, over
    the results in the order the loops visit them; each round reads
    [claim.Status.ReservedFor[0]]. *)
Fixpoint buildLoop (claim : ResourceClaim) (perDevice : PerDevice)
    (results : list DeviceRequestAllocationResult)
    (preparedDevices : drasriovtypes.PreparedDevices)
  : outcome drasriovtypes.PreparedDevices :=
  match results with
  | [] => Return (Ok preparedDevices)
  | r :: rest =>
      match ReservedFor (Status claim) !! 0 with
      | None => Panic "index out of range [0] with length 0"
      | Some pod =>
          buildLoop claim perDevice rest
            (preparedDevices ++ [preparedDevice claim pod perDevice r])
      end
  end.

Definition buildPrepared (claim : ResourceClaim) (perDevice : PerDevice)
    (entries : list (RuntimeObject * list DeviceRequestAllocationResult))
  : outcome drasriovtypes.PreparedDevices :=
  buildLoop claim perDevice (entries ≫= snd) [].

Definition prepareDevices (claim : ResourceClaim) (t : list Event)
  : outcome drasriovtypes.PreparedDevices * list Event :=
  match Allocation (Status claim) with
  | None => (Return (Err "claim not yet allocated"), t)
  | Some allocation =>
      match getOpaqueDeviceConfigs deps (Config (Devices allocation)) with
      | Err e =>
          (Return (Err ("error getting opaque device configs: " +:+ e)), t)
      | Ok configs =>
          match getConfigResultsMap configs allocation with
          | Err e =>
              (Return (Err ("error getting config results map: " +:+ e)), t)
          | Ok configResultsMap =>
              match applyConfigs (Namespace claim)
                      (rangeApply deps configResultsMap) emptyPerDevice t with
              | (Panic msg, t) => (Panic msg, t)
              | (Return (Err e), t) => (Return (Err e), t)
              | (Return (Ok perDevice), t) =>
                  (buildPrepared claim perDevice
                     (rangeBuild deps configResultsMap), t)
              end
          end
      end
  end.

Definition PrepareDevices (claim : ResourceClaim) (t : list Event)
  : outcome drasriovtypes.PreparedDevices * list Event :=
  let t := t ++ [EvPrepareDevices (UID claim)] in
  match prepareDevices claim t with
  | (Panic msg, t) => (Panic msg, t)
  | (Return (Err e), t) => (Return (Err ("prepare failed: " +:+ e)), t)
  | (Return (Ok preparedDevices), t) =>
      if decide (length preparedDevices = 0) then
        (Return (Err "no prepared devices found for claim"), t)
      else
        let t :=
          t ++ [EvCreateClaimSpecFile (UID claim)
                  ((drapbv1.DeviceName ∘ drasriovtypes.Device)
                     <$> preparedDevices)] in
        match CreateClaimSpecFile deps preparedDevices with
        | Some e =>
            (Return (Err ("unable to create CDI spec file for claim: "
                          +:+ e)), t)
        | None => (Return (Ok preparedDevices), t)
        end
  end.

Definition unprepareDevices (preparedDevices : drasriovtypes.PreparedDevices)
  : option string :=
  None.

Definition Unprepare (claimUID : string)
    (preparedDevices : drasriovtypes.PreparedDevices) (t : list Event)
  : option string * list Event :=
  let t := t ++ [EvUnprepare claimUID] in
  match unprepareDevices preparedDevices with
  | Some e => (Some ("unprepare failed: " +:+ e), t)
  | None =>
      let t := t ++ [EvDeleteClaimSpecFile claimUID] in
      match DeleteClaimSpecFile deps claimUID with
      | Some e =>
          (Some ("unable to delete CDI spec file for claim: " +:+ e), t)
      | None => (None, t)
      end
  end.

(** *** The container edits of a prepared device *)

(** The edits [applyConfig] writes for a device under a config: the first
    variable is named after the device with every '-' replaced by '_' and
    holds the device's pciAddress attribute, the second holds the config's
    [NetAttachDefName]. *)
Definition editsFor (vfConfig : VfConfig) (device : string)
    (edits : cdiapi.ContainerEdits) : Prop :=
  ∃ deviceInfo pciAddress,
    allocatable !! device = Some deviceInfo
    ∧ Attributes deviceInfo !! AttributePciAddress deps
      = Some {| StringValue := Some pciAddress |}
    ∧ cdiapi.Env edits
      = [ "VF_DEVICE_" +:+ gostrings.ReplaceAll device "-" "_"
            +:+ "=" +:+ pciAddress;
          "NET_ATTACH_DEF_NAME=" +:+ NetAttachDefName vfConfig ].

(** The edits of a device come from one of the entries of
    [configResultsMap] that holds a result naming the device, under that
    entry's config as normalized. *)
Definition editsFrom
    (entries : list (RuntimeObject * list DeviceRequestAllocationResult))
    (device : string) (edits : cdiapi.ContainerEdits) : Prop :=
  ∃ c rs r config config',
    (c, rs) ∈ entries ∧ r ∈ rs ∧ Device_ r = device
    ∧ objValue c = Some config ∧ Normalize deps config = Ok config'
    ∧ editsFor config' device edits.

Lemma pciAddressOf_Some_dsm deviceInfo pciAddress :
  pciAddressOf deviceInfo = Some pciAddress →
  Attributes deviceInfo !! AttributePciAddress deps
  = Some {| StringValue := Some pciAddress |}.
Proof.
  unfold pciAddressOf.
  destruct (Attributes deviceInfo !! _) as [[v]|]; [|done].
  simpl. by intros ->.
Qed.

Lemma applyConfigLoop_ok_dsm namespace vfConfig results acc t perDevice t' :
  applyConfigLoop namespace vfConfig results acc t
  = (Return (Ok perDevice), t') →
  (∀ device edits,
     perDeviceEdits perDevice !! device = Some edits →
     perDeviceEdits acc !! device = Some edits
     ∨ (editsFor vfConfig device edits
        ∧ ∃ r, r ∈ results ∧ Device_ r = device))
  ∧ (∀ r, r ∈ results → is_Some (perDeviceEdits perDevice !! Device_ r))
  ∧ (∀ device, is_Some (perDeviceEdits acc !! device) →
       is_Some (perDeviceEdits perDevice !! device)).
Proof.
  revert acc t. induction results as [|r rest IH]; intros acc t; simpl.
  - intros [= <- <-]. split; [by left|]. split; [|done].
    by intros ? ?%elem_of_nil.
  - destruct (allocatable !! Device_ r) as [deviceInfo|] eqn:Hdev; [|done].
    destruct (pciAddressOf deviceInfo) as [pciAddress|] eqn:Hpci; [|done].
    destruct (GetNetAttachDef deps _ _) as [specConfig|]; [|done].
    destruct (AddDeviceIDToNetConf deps _ _) as [netConf|]; [|done].
    intros (Hall & Hres & Hmono)%IH. simpl in *. split; [|split].
    + intros device edits [Hold|[Hnew (r' & Hr' & Hd)]]%Hall.
      * apply lookup_insert_Some in Hold as [[<- <-]|[_ Hold]]; [|by left].
        right. split; [|exists r; split; [by left|done]].
        exists deviceInfo, pciAddress. split; [done|].
        split; [by apply pciAddressOf_Some_dsm|done].
      * right. split; [done|]. exists r'. split; [by right|done].
    + intros r' [->|Hin]%elem_of_cons; [|by apply Hres].
      apply Hmono. rewrite lookup_insert_eq. by eexists.
    + intros device Hd. apply Hmono. rewrite lookup_insert_is_Some.
      destruct (decide (Device_ r = device)); [by left|by right].
Qed.

Lemma applyConfigs_ok_dsm namespace all entries acc t perDevice t' :
  applyConfigs namespace entries acc t = (Return (Ok perDevice), t') →
  (∀ entry, entry ∈ entries → entry ∈ all) →
  (∀ device edits, perDeviceEdits acc !! device = Some edits →
     editsFrom all device edits) →
  (∀ device edits, perDeviceEdits perDevice !! device = Some edits →
     editsFrom all device edits)
  ∧ (∀ c rs r, (c, rs) ∈ entries → r ∈ rs →
       is_Some (perDeviceEdits perDevice !! Device_ r))
  ∧ (∀ device, is_Some (perDeviceEdits acc !! device) →
       is_Some (perDeviceEdits perDevice !! device)).
Proof.
  revert acc t. induction entries as [|[c rs] rest IH]; intros acc t; simpl.
  - intros [= <- <-] _ Hacc. split; [done|]. split; [|done].
    by intros ??? ?%elem_of_nil.
  - destruct (objValue c) as [config|] eqn:Hobj; [|done].
    destruct (Normalize deps config) as [config'|] eqn:Hnorm; [|done].
    destruct (Validate deps config'); [done|].
    destruct (applyConfig namespace config' rs t)
      as [[[new|]|] t1] eqn:Happly; [|done..].
    apply applyConfigLoop_ok_dsm in Happly as (Hnew & Hres & _).
    intros Hrest Hsub Hacc. apply IH in Hrest as (Hall & Hmem & Hmono).
    + split; [done|]. split.
      * intros c' rs' r [[= -> ->]|Hin]%elem_of_cons Hr; [|by eapply Hmem].
        apply Hmono. destruct (Hres r Hr) as [e He]. exists e. simpl.
        by apply lookup_union_Some_l.
      * intros device [e He]. apply Hmono. simpl.
        destruct (perDeviceEdits new !! device) as [e'|] eqn:Hc.
        -- exists e'. by apply lookup_union_Some_l.
        -- exists e. by rewrite lookup_union_r.
    + intros entry Hin. apply Hsub. by right.
    + simpl. intros device edits [Hl|[_ Hr]]%lookup_union_Some_raw; [|auto].
      apply Hnew in Hl as [Hl|[Hfor (r & Hr & Hd)]].
      { simpl in Hl. by rewrite lookup_empty in Hl. }
      exists c, rs, r, config, config'. split; [|done].
      apply Hsub. by left.
Qed.

(** *** The last loop and [ReservedFor[0]] *)

Lemma buildLoop_reserved claim perDevice results acc pod pods :
  ReservedFor (Status claim) = pod :: pods →
  buildLoop claim perDevice results acc
  = Return (Ok (acc ++ (preparedDevice claim pod perDevice <$> results))).
Proof.
  intros Hpods. revert acc.
  induction results as [|r rest IH]; intros acc; simpl.
  - by rewrite app_nil_r.
  - rewrite Hpods. simpl. by rewrite IH, <-app_assoc.
Qed.

Lemma buildLoop_unreserved claim perDevice results acc :
  ReservedFor (Status claim) = [] → results ≠ [] →
  buildLoop claim perDevice results acc
  = Panic "index out of range [0] with length 0".
Proof.
  intros Hpods Hne. destruct results as [|r rest]; [done|].
  simpl. by rewrite Hpods.
Qed.

(** *** No nil attribute in a catalog that discovery built *)

Definition catalogOK : Prop :=
  ∀ device deviceInfo,
    allocatable !! device = Some deviceInfo →
    is_Some (pciAddressOf deviceInfo).

Lemma applyConfigLoop_no_panic namespace vfConfig results acc t msg t' :
  catalogOK →
  applyConfigLoop namespace vfConfig results acc t ≠ (Panic msg, t').
Proof.
  intros Hok. revert acc t.
  induction results as [|r rest IH]; intros acc t; simpl; [done|].
  destruct (allocatable !! Device_ r) as [deviceInfo|] eqn:Hdev; [|done].
  destruct (Hok _ _ Hdev) as [pciAddress ->].
  destruct (GetNetAttachDef deps _ _) as [specConfig|]; [|done].
  destruct (AddDeviceIDToNetConf deps _ _) as [netConf|]; [|done].
  apply IH.
Qed.

Lemma applyConfigs_no_panic namespace entries acc t msg t' :
  catalogOK →
  applyConfigs namespace entries acc t ≠ (Panic msg, t').
Proof.
  intros Hok. revert acc t.
  induction entries as [|[c rs] rest IH]; intros acc t; simpl; [done|].
  destruct (objValue c) as [config|]; [|done].
  destruct (Normalize deps config) as [config'|]; [|done].
  destruct (Validate deps config'); [done|].
  destruct (applyConfig namespace config' rs t)
    as [[[new|]|msg'] t1] eqn:Happly; [apply IH|done|].
  by apply applyConfigLoop_no_panic in Happly.
Qed.

Lemma prepareDevices_no_panic claim t msg t' :
  catalogOK → ReservedFor (Status claim) ≠ [] →
  prepareDevices claim t ≠ (Panic msg, t').
Proof.
  intros Hok Hpods. unfold prepareDevices.
  destruct (Allocation (Status claim)) as [allocation|]; [|done].
  destruct (getOpaqueDeviceConfigs deps _) as [configs|]; [|done].
  destruct (getConfigResultsMap configs allocation) as [m|]; [|done].
  destruct (applyConfigs _ _ _ t)
    as [[[perDevice|]|msg'] t1] eqn:Happly; [|done|].
  - destruct (ReservedFor (Status claim)) as [|pod pods] eqn:Hr; [done|].
    unfold buildPrepared. by erewrite buildLoop_reserved.
  - by apply applyConfigs_no_panic in Happly.
Qed.

Lemma PrepareDevices_no_panic claim t msg t' :
  catalogOK → ReservedFor (Status claim) ≠ [] →
  PrepareDevices claim t ≠ (Panic msg, t').
Proof.
  intros Hok Hpods. unfold PrepareDevices.
  destruct (prepareDevices claim _) as [[[pds|]|msg'] t1] eqn:Hp; [|done|].
  - destruct (decide (length pds = 0)); [done|].
    by destruct (CreateClaimSpecFile deps pds).
  - by apply prepareDevices_no_panic in Hp.
Qed.

Lemma resolve_default_dsm configs request :
  is_Some (configmatch.resolve (defaultConfig :: configs) request).
Proof.
  unfold configmatch.resolve.
  destruct (configmatch.firstBackward_default configs defaultConfig request)
    as [c ->]; [done|]. by eexists.
Qed.


Lemma prepareDevices_inv_dsm claim t pds t' :
  (∀ m, rangeApply deps m ≡ₚ map_to_list m) →
  (∀ m, rangeBuild deps m ≡ₚ map_to_list m) →
  prepareDevices claim t = (Return (Ok pds), t') →
  ∃ allocation configs m perDevice,
    Allocation (Status claim) = Some allocation
    ∧ getOpaqueDeviceConfigs deps (Config (Devices allocation)) = Ok configs
    ∧ getConfigResultsMap configs allocation = Ok m
    ∧ (∀ device edits, perDeviceEdits perDevice !! device = Some edits →
         editsFrom (map_to_list m) device edits)
    ∧ (∀ r, r ∈ Results (Devices allocation) →
         is_Some (perDeviceEdits perDevice !! Device_ r))
    ∧ (∀ pd, pd ∈ pds →
         ∃ pod pods r,
           ReservedFor (Status claim) = pod :: pods
           ∧ r ∈ Results (Devices allocation)
           ∧ pd = preparedDevice claim pod perDevice r).
Proof.
  intros Hrange1 Hrange2. unfold prepareDevices.
  destruct (Allocation (Status claim)) as [allocation|]; [|done].
  destruct (getOpaqueDeviceConfigs deps _) as [configs|] eqn:Hcfg; [|done].
  destruct (getConfigResultsMap configs allocation) as [m|] eqn:Hm; [|done].
  destruct (applyConfigs _ _ _ t)
    as [[[perDevice|]|] t1] eqn:Happly; [|done..].
  intros Hbuild. exists allocation, configs, m, perDevice.
  apply (applyConfigs_ok_dsm _ (map_to_list m)) in Happly as (Hall & Hmem & _).
  2:{ intros entry. by rewrite Hrange1. }
  2:{ intros ??. simpl. by rewrite lookup_empty. }
  do 4 (split; [done|]). split.
  - intros r Hr. destruct (resolve_default_dsm configs (Request r)) as [c Hc].
    destruct (configmatch.assignResults_member _ _ _ _ m c r Hm Hr Hc)
      as (rs & Hrs & Hin).
    apply (Hmem c rs r); [|done].
    rewrite Hrange1. by apply elem_of_map_to_list.
  - intros pd Hpd. injection Hbuild as Hbuild _. unfold buildPrepared in Hbuild.
    destruct (ReservedFor (Status claim)) as [|pod pods] eqn:Hpods.
    + destruct (rangeBuild deps m ≫= snd) as [|r rest] eqn:Hflat.
      * simpl in Hbuild. injection Hbuild as <-. by apply elem_of_nil in Hpd.
      * by rewrite buildLoop_unreserved in Hbuild.
    + rewrite (buildLoop_reserved _ _ _ _ pod pods) in Hbuild by done.
      injection Hbuild as <-. simpl in Hpd.
      apply list_elem_of_fmap in Hpd as (r & -> & Hr).
      exists pod, pods, r. split; [done|]. split; [|done].
      apply list_elem_of_bind in Hr as ([c rs] & Hr & Hin).
      rewrite Hrange2 in Hin. apply elem_of_map_to_list in Hin.
      by eapply configmatch.assignResults_entry_member.
Qed.

End DeviceStateManager.
End devicestate.

(** ** The pod manager

    Package podmanager is not among the sources at hand. The driver and the
    NRI plugin use it through five methods, which are taken as they are
    called: a state [PM] and its operations. A [true] flag is "found". *)

Module podmanager.

Record Ops (PM : Type) := {
  Get : PM → string → string → drasriovtypes.PreparedDevices * bool;
  Set_ : PM → string → string → drasriovtypes.PreparedDevices
         → option string * PM;
  GetByClaim : PM → drasriovtypes.NamespacedObject
               → drasriovtypes.PreparedDevices * bool;
  DeleteClaim : PM → drasriovtypes.NamespacedObject → option string * PM;
  GetDevicesByPodUID : PM → string → drasriovtypes.PreparedDevices * bool;
}.
Arguments Get {PM} _ _ _ _.
Arguments Set_ {PM} _ _ _ _ _.
Arguments GetByClaim {PM} _ _ _.
Arguments DeleteClaim {PM} _ _ _.
Arguments GetDevicesByPodUID {PM} _ _ _.

(** Modelled from the spec: a pod manager as section 4.8 describes it, "an
    in-memory index correlating a pod identity and a claim identity with
    that claim's prepared devices": [Get] "returns prepared devices and a
    found flag", [Set] "records them (error if pod/claim identity is
    malformed)" (an empty UID here), [GetByClaim] and [DeleteClaim]
    "locate/remove an entry by claim identity alone", [GetDevicesByPodUID]
    "returns all devices prepared for any claim reserved by that pod". *)
Abbreviation Index :=
  (gmap (string * string) drasriovtypes.PreparedDevices).

Definition indexOps : Ops Index :=
  {| Get := λ pm podUID claimUID,
       match pm !! (podUID, claimUID) with
       | Some devices => (devices, true)
       | None => ([], false)
       end;
     Set_ := λ pm podUID claimUID devices,
       if decide (podUID = "" ∨ claimUID = "") then
         (Some "malformed pod or claim identity", pm)
       else (None, <[(podUID, claimUID) := devices]> pm);
     GetByClaim := λ pm claim,
       match filter (λ kv, kv.1.2 = drasriovtypes.UID claim)
               (map_to_list pm) with
       | kv :: _ => (kv.2, true)
       | [] => ([], false)
       end;
     DeleteClaim := λ pm claim,
       (None, filter (λ kv, kv.1.2 ≠ drasriovtypes.UID claim) pm);
     GetDevicesByPodUID := λ pm podUID,
       match filter (λ kv, kv.1.1 = podUID) (map_to_list pm) with
       | [] => ([], false)
       | kvs => (kvs ≫= snd, true)
       end |}.

End podmanager.

(** ** The driver hooks of the pod-manager path (src/pkg/driver/dra_hook.go) *)

Module kubeletplugin.

Record Device := {
  Requests : list string;
  PoolName : string;
  DeviceName : string;
  CDIDeviceIDs : list string;
}.

End kubeletplugin.

Module dra_hook.
Import resourceapi.

(** The driver's state: its pod manager, and what its device state manager
    has done so far. *)
Record World (PM : Type) := {
  podManager : PM;
  dsmTrace : list Event;
}.
Arguments podManager {PM} _.
Arguments dsmTrace {PM} _.

Section Driver.
Context {PM : Type}.
Variable pmOps : podmanager.Ops PM.
Variable deps : devicestate.Deps.
Variable allocatable : gmap string Device.

(** The loop that copies a prepared device into the plugin's result. *)
Definition toDevices (preparedDevices : drasriovtypes.PreparedDevices)
  : list kubeletplugin.Device :=
  (λ preparedDevice,
     let d := drasriovtypes.Device preparedDevice in
     {| kubeletplugin.Requests := drapbv1.RequestNames d;
        kubeletplugin.PoolName := drapbv1.PoolName d;
        kubeletplugin.DeviceName := drapbv1.DeviceName d;
        kubeletplugin.CDIDeviceIDs := drapbv1.CDIDeviceIDs d |})
  <$> preparedDevices.

Definition claimID (claim : ResourceClaim) : string :=
  Namespace claim +:+ "/" +:+ ClaimName claim +:+ "/" +:+ UID claim.

(** A [kubeletplugin.PrepareResult] is [Ok devices] or [Err e]. *)
Definition prepareResourceClaim (claim : ResourceClaim) (w : World PM)
  : outcome (list kubeletplugin.Device) * World PM :=
  match ReservedFor (Status claim) with
  | [] => (Return (Err ("no pod info found for claim " +:+ claimID claim)), w)
  | _ :: _ :: _ =>
      (Return (Err ("multiple pods found for claim " +:+ claimID claim
                    +:+ " not supported")), w)
  | [pod] =>
      let podUID := ConsumerUID pod in
      match podmanager.Get pmOps (podManager w) podUID (UID claim) with
      | (preparedDevices, true) =>
          (Return (Ok (toDevices preparedDevices)), w)
      | (_, false) =>
          match devicestate.PrepareDevices deps allocatable claim
                  (dsmTrace w) with
          | (Panic msg, t) =>
              (Panic msg, {| podManager := podManager w; dsmTrace := t |})
          | (Return (Err e), t) =>
              (Return (Err ("error preparing devices for claim "
                            +:+ UID claim +:+ ": " +:+ e)),
               {| podManager := podManager w; dsmTrace := t |})
          | (Return (Ok preparedDevices), t) =>
              let prepared := toDevices preparedDevices in
              match podmanager.Set_ pmOps (podManager w) podUID (UID claim)
                      preparedDevices with
              | (Some e, pm) =>
                  (Return (Err ("error setting prepared devices for pod "
                                +:+ podUID +:+ " into pod manager: " +:+ e)),
                   {| podManager := pm; dsmTrace := t |})
              | (None, pm) =>
                  (Return (Ok prepared), {| podManager := pm; dsmTrace := t |})
              end
          end
      end
  end.

(** [for _, claim := range claims { result[claim.UID] = ... }]; a panic
    while one claim is prepared ends the call. *)
Fixpoint prepareLoop (claims : list ResourceClaim)
    (prepared : gmap string (result (list kubeletplugin.Device)))
    (w : World PM)
  : outcome (gmap string (result (list kubeletplugin.Device))) * World PM :=
  match claims with
  | [] => (Return (Ok prepared), w)
  | claim :: rest =>
      match prepareResourceClaim claim w with
      | (Panic msg, w) => (Panic msg, w)
      | (Return r, w) => prepareLoop rest (<[UID claim := r]> prepared) w
      end
  end.

(** The returned pair is [(result, nil)]: [Return (Ok result)]. *)
Definition PrepareResourceClaims (claims : list ResourceClaim) (w : World PM)
  : outcome (gmap string (result (list kubeletplugin.Device))) * World PM :=
  if decide (length claims = 0) then (Return (Ok ∅), w)
  else prepareLoop claims ∅ w.

Definition unprepareResourceClaim (claim : drasriovtypes.NamespacedObject)
    (w : World PM) : option string * World PM :=
  match podmanager.GetByClaim pmOps (podManager w) claim with
  | (_, false) => (None, w)
  | (preparedDevices, true) =>
      match devicestate.Unprepare deps (drasriovtypes.UID claim)
              preparedDevices (dsmTrace w) with
      | (Some e, t) =>
          (Some ("error unpreparing devices for claim "
                 +:+ drasriovtypes.UID claim +:+ ": " +:+ e),
           {| podManager := podManager w; dsmTrace := t |})
      | (None, t) =>
          match podmanager.DeleteClaim pmOps (podManager w) claim with
          | (Some e, pm) =>
              (Some ("error deleting claim " +:+ drasriovtypes.UID claim
                     +:+ " from pod manager: " +:+ e),
               {| podManager := pm; dsmTrace := t |})
          | (None, pm) => (None, {| podManager := pm; dsmTrace := t |})
          end
      end
  end.

Fixpoint unprepareLoop (claims : list drasriovtypes.NamespacedObject)
    (unprepared : gmap string (option string)) (w : World PM)
  : gmap string (option string) * World PM :=
  match claims with
  | [] => (unprepared, w)
  | claim :: rest =>
      let '(e, w) := unprepareResourceClaim claim w in
      unprepareLoop rest (<[drasriovtypes.UID claim := e]> unprepared) w
  end.

Definition UnprepareResourceClaims
    (claims : list drasriovtypes.NamespacedObject) (w : World PM)
  : gmap string (option string) * World PM :=
  unprepareLoop claims ∅ w.

End Driver.
End dra_hook.

(** ** The NRI plugin's sandbox hooks (src/pkg/nri/nri.go) *)

Module nri.

(** [api.PodSandbox]: identity and the Linux namespaces it declares, as
    (type, path) pairs. *)
Record PodSandbox := {
  Id : string;
  Name : string;
  Uid : string;
  Namespace : string;
  LinuxNamespaces : list (string * string);
}.

(** Modelled from the spec: [getNetworkNamespace], whose source is not at
    hand, "determine[s] the pod's network namespace path from the sandbox's
    declared Linux namespaces (looking for the network-namespace entry)";
    the empty string stands for "absent". *)
Definition networkNamespaceOf (pod : PodSandbox) : string :=
  match filter (λ ns, ns.1 = "network") (LinuxNamespaces pod) with
  | ns :: _ => ns.2
  | [] => ""
  end.

(** The CNI runtime, whose calls the plugin makes: each returns a non-nil
    error ([Some]) or succeeds. *)
Record CniRuntime := {
  AttachNetwork : drasriovtypes.PreparedDevice → option string;
  DetachNetwork : drasriovtypes.PreparedDevice → option string;
}.

Section Plugin.
Context {PM : Type}.
Variable pmOps : podmanager.Ops PM.
Variable getNetworkNamespace : PodSandbox → string.
Variable cniRuntime : CniRuntime.

(** [device.PodNetworkNamespace = networkNamespace; device.PodSandboxID =
    pod.Id]. The write goes through the pointer the pod manager holds as
    well; no hook reads the two fields back from there, and the pod manager
    is kept as it is. *)
Definition withSandbox (device : drasriovtypes.PreparedDevice)
    (networkNamespace : string) (pod : PodSandbox)
  : drasriovtypes.PreparedDevice :=
  {| drasriovtypes.ClaimNamespacedName :=
       drasriovtypes.ClaimNamespacedName device;
     drasriovtypes.PodUID := drasriovtypes.PodUID device;
     drasriovtypes.PodName := drasriovtypes.PodName device;
     drasriovtypes.PodNamespace := drasriovtypes.PodNamespace device;
     drasriovtypes.Device := drasriovtypes.Device device;
     drasriovtypes.ContainerEdits := drasriovtypes.ContainerEdits device;
     drasriovtypes.NetAttachDefConfig :=
       drasriovtypes.NetAttachDefConfig device;
     drasriovtypes.IfName := drasriovtypes.IfName device;
     drasriovtypes.PodNetworkNamespace := networkNamespace;
     drasriovtypes.PodSandboxID := Id pod |}.

Definition deviceNameOf (device : drasriovtypes.PreparedDevice) : string :=
  drapbv1.DeviceName (drasriovtypes.Device device).

Fixpoint attachLoop (devices : drasriovtypes.PreparedDevices)
    (networkNamespace : string) (pod : PodSandbox) (t : list Event)
  : option string * list Event :=
  match devices with
  | [] => (None, t)
  | device :: rest =>
      let device := withSandbox device networkNamespace pod in
      let t :=
        t ++ [EvAttachNetwork (deviceNameOf device) networkNamespace
                (Id pod)] in
      match AttachNetwork cniRuntime device with
      | Some e => (Some ("failed to attach network: " +:+ e), t)
      | None => attachLoop rest networkNamespace pod t
      end
  end.

Definition RunPodSandbox (pm : PM) (pod : PodSandbox) (t : list Event)
  : option string * list Event :=
  match podmanager.GetDevicesByPodUID pmOps pm (Uid pod) with
  | (_, false) => (None, t)
  | (devices, true) =>
      let networkNamespace := getNetworkNamespace pod in
      if decide (networkNamespace = "") then (None, t)
      else attachLoop devices networkNamespace pod t
  end.

Fixpoint detachLoop (devices : drasriovtypes.PreparedDevices)
    (networkNamespace : string) (pod : PodSandbox) (t : list Event)
  : option string * list Event :=
  match devices with
  | [] => (None, t)
  | device :: rest =>
      let device := withSandbox device networkNamespace pod in
      let t :=
        t ++ [EvDetachNetwork (deviceNameOf device) networkNamespace
                (Id pod)] in
      match DetachNetwork cniRuntime device with
      | Some e =>
          (Some ("error CNI.DetachNetwork for pod '" +:+ Name pod
                 +:+ "' (uid: " +:+ Uid pod +:+ ") in namespace '"
                 +:+ Namespace pod +:+ "': " +:+ e), t)
      | None => detachLoop rest networkNamespace pod t
      end
  end.

Definition StopPodSandbox (pm : PM) (pod : PodSandbox) (t : list Event)
  : option string * list Event :=
  match podmanager.GetDevicesByPodUID pmOps pm (Uid pod) with
  | (_, false) => (None, t)
  | (devices, true) =>
      let networkNamespace := getNetworkNamespace pod in
      if decide (networkNamespace = "") then
        (Some ("error getting network namespace for pod '" +:+ Name pod
               +:+ "' in namespace '" +:+ Namespace pod +:+ "'"), t)
      else detachLoop devices networkNamespace pod t
  end.

End Plugin.

(** A sandbox with one prepared device, with and without a network
    namespace among its Linux namespaces. *)
Definition demoDevice : drasriovtypes.PreparedDevice :=
  {| drasriovtypes.ClaimNamespacedName :=
       {| drasriovtypes.Name := "claim-a";
          drasriovtypes.Namespace := "default";
          drasriovtypes.UID := "uid-claim-a" |};
     drasriovtypes.PodUID := "uid-pod-1";
     drasriovtypes.PodName := "pod-1";
     drasriovtypes.PodNamespace := "default";
     drasriovtypes.Device :=
       {| drapbv1.RequestNames := ["vf"];
          drapbv1.PoolName := "node-1";
          drapbv1.DeviceName := "0000-01-00-1";
          drapbv1.CDIDeviceIDs := ["sriov/claim=uid-claim-a-0000-01-00-1"] |};
     drasriovtypes.ContainerEdits :=
       Some {| cdiapi.Env := ["VF_DEVICE_0000_01_00_1=0000:01:00.1";
                              "NET_ATTACH_DEF_NAME=net1"] |};
     drasriovtypes.NetAttachDefConfig := "{}";
     drasriovtypes.IfName := "net1";
     drasriovtypes.PodNetworkNamespace := "";
     drasriovtypes.PodSandboxID := "" |}.

Definition demoIndex : podmanager.Index :=
  {[ ("uid-pod-1", "uid-claim-a") := [demoDevice] ]}.

Definition demoPod (namespaces : list (string * string)) : PodSandbox :=
  {| Id := "sandbox-1"; Name := "pod-1"; Uid := "uid-pod-1";
     Namespace := "default"; LinuxNamespaces := namespaces |}.

Definition demoCni : CniRuntime :=
  {| AttachNetwork := λ _, None; DetachNetwork := λ _, None |}.

(** C9. For a pod that has prepared devices in the pod manager and no
    network namespace, [RunPodSandbox] returns nil and [StopPodSandbox]
    returns an error, and neither calls the CNI runtime; for a pod for
    which the pod manager finds no prepared devices both return nil without
    a CNI call. *)
Theorem sandbox_without_network_namespace {PM : Type}
    (pmOps : podmanager.Ops PM) (getNetworkNamespace : PodSandbox → string)
    (cniRuntime : CniRuntime) (pm : PM) (pod : PodSandbox) (t : list Event) :
  (∀ devices,
     podmanager.GetDevicesByPodUID pmOps pm (Uid pod) = (devices, true) →
     devices ≠ [] →
     getNetworkNamespace pod = "" →
     RunPodSandbox pmOps getNetworkNamespace cniRuntime pm pod t = (None, t)
     ∧ StopPodSandbox pmOps getNetworkNamespace cniRuntime pm pod t
       = (Some ("error getting network namespace for pod '" +:+ Name pod
                +:+ "' in namespace '" +:+ Namespace pod +:+ "'"), t))
  ∧ (∀ devices,
       podmanager.GetDevicesByPodUID pmOps pm (Uid pod) = (devices, false) →
       RunPodSandbox pmOps getNetworkNamespace cniRuntime pm pod t = (None, t)
       ∧ StopPodSandbox pmOps getNetworkNamespace cniRuntime pm pod t
         = (None, t)).
Proof.
  unfold RunPodSandbox, StopPodSandbox. split.
  - intros devices -> _ ->. by rewrite !decide_True.
  - by intros devices ->.
Qed.

(** The same on the pod manager of section 4.8 and a sandbox that declares
    no network namespace; with a network namespace the hooks do call the
    CNI runtime, once per device. *)
Example sandbox_demo :
  RunPodSandbox podmanager.indexOps networkNamespaceOf demoCni demoIndex
    (demoPod [("ipc", "/proc/7/ns/ipc")]) [] = (None, [])
  ∧ StopPodSandbox podmanager.indexOps networkNamespaceOf demoCni demoIndex
      (demoPod [("ipc", "/proc/7/ns/ipc")]) []
    = (Some "error getting network namespace for pod 'pod-1' in namespace 'default'",
       [])
  ∧ RunPodSandbox podmanager.indexOps networkNamespaceOf demoCni demoIndex
      (demoPod [("network", "/proc/7/ns/net")]) []
    = (None, [EvAttachNetwork "0000-01-00-1" "/proc/7/ns/net" "sandbox-1"])
  ∧ StopPodSandbox podmanager.indexOps networkNamespaceOf demoCni ∅
      (demoPod []) [] = (None, []).
Proof. repeat split; vm_compute; reflexivity. Qed.

End nri.

(** ** A node, a claim and the packages around the driver, to run the code on

    The catalog is the one discovery builds from the small sysfs tree. The
    decoder turns each opaque configuration into a [VfConfig] object of its
    own, whose two fields are the parameter text. *)

Module demo.
Import resourceapi configapi.

Definition allocatable : gmap string Device :=
  discovery.catalogOf
    (discovery.DiscoverSriovDevices
       (discovery.demoHelpers ["0000:01:00.1"; "0000:01:00.2"])
       discovery.demoConsts).

Definition decode (i : nat) (cfg : DeviceAllocationConfiguration)
  : types.OpaqueDeviceConfig :=
  {| types.Requests := Requests cfg;
     types.Config :=
       {| objAddr := Pos.of_nat (i + 2);
          objValue := Some {| NetAttachDefName := OpaqueParameters cfg;
                              IfName := OpaqueParameters cfg |} |} |}.

(** Modelled from the spec: [Validate], whose source is not at hand,
    "rejects a config missing required fields (at minimum the
    network-attachment-definition name)". *)
Definition validate (c : VfConfig) : option string :=
  if decide (NetAttachDefName c = "") then
    Some "NetAttachDefName is required"
  else None.

Definition stateDeps : state.Deps :=
  {| state.GetOpaqueDeviceConfigs := λ cfgs, Ok (imap decode cfgs);
     state.defaultAddr := 1;
     state.Normalize := Ok;
     state.Validate := validate;
     state.GetClaimDevices := λ claimUID devices,
       (λ d, "k8s.sriovnetwork.openshift.io/claim=" +:+ claimUID
               +:+ "-" +:+ d) <$> devices;
     state.CreateClaimSpecFile := λ _ _, None;
     state.DeleteClaimSpecFile := λ _, None;
     state.CreateCheckpoint := λ _, None;
     state.rangeApply := map_to_list;
     state.rangeBuild := map_to_list |}.

Definition deps : devicestate.Deps :=
  {| devicestate.AttributePciAddress := "pciAddress";
     devicestate.getOpaqueDeviceConfigs := λ cfgs, Ok (imap decode cfgs);
     devicestate.defaultAddr := 1;
     devicestate.Normalize := Ok;
     devicestate.Validate := validate;
     devicestate.GetClaimDevices := λ claimUID devices,
       (λ d, "k8s.sriovnetwork.openshift.io/claim=" +:+ claimUID
               +:+ "-" +:+ d) <$> devices;
     devicestate.GetNetAttachDef := λ name _,
       if decide (name = "net1") then Ok "cniVersion=1.0.0 type=sriov"
       else Err "not found";
     devicestate.AddDeviceIDToNetConf := λ config pciAddress,
       Ok (config +:+ " deviceID=" +:+ pciAddress);
     devicestate.CreateClaimSpecFile := λ _, None;
     devicestate.DeleteClaimSpecFile := λ _, None;
     devicestate.rangeApply := map_to_list;
     devicestate.rangeBuild := map_to_list |}.

Definition vfResult (request device : string)
  : DeviceRequestAllocationResult :=
  {| Request := request; Driver := "sriovnetwork.openshift.io";
     Pool := "node-1"; Device_ := device |}.

Definition net1For (requests : list string) : DeviceAllocationConfiguration :=
  {| Source := "FromClaim"; Requests := requests;
     OpaqueDriver := "sriovnetwork.openshift.io";
     OpaqueParameters := "net1" |}.

Definition claim (results : list DeviceRequestAllocationResult)
    (configs : list DeviceAllocationConfiguration)
    (pods : list ResourceClaimConsumerReference) : ResourceClaim :=
  {| ClaimName := "claim-a"; Namespace := "default"; UID := "uid-claim-a";
     Status :=
       {| Allocation :=
            Some {| Devices := {| Results := results; Config := configs |} |};
          ReservedFor := pods |} |}.

Definition pod1 : ResourceClaimConsumerReference :=
  {| ConsumerName := "pod-1"; ConsumerUID := "uid-pod-1" |}.

End demo.

(** ** Config precedence *)

Module precedence.
Import resourceapi configapi.





End precedence.


(** The example of the spec: requests a and b, one config scoped to a. The
    result for a goes under the scoped config, the result for b under the
    default. *)
Example config_precedence_demo :
  devicestate.getConfigResultsMap demo.deps demo.allocatable
    (imap demo.decode [demo.net1For ["a"]])
    {| resourceapi.Devices :=
         {| resourceapi.Results :=
              [demo.vfResult "a" "0000-01-00-1";
               demo.vfResult "b" "0000-01-00-2"];
            resourceapi.Config := [demo.net1For ["a"]] |} |}
  = Ok {[ types.Config (demo.decode 0 (demo.net1For ["a"]))
            := [demo.vfResult "a" "0000-01-00-1"];
          configapi.DefaultVfConfig 1
            := [demo.vfResult "b" "0000-01-00-2"] ]}.
Proof. eval_refl. Qed.

(** ** Preparing twice, unpreparing the unknown *)

(** C3 (as amended). A claim whose checkpointed entry is there and is not
    nil: [Prepare] returns the devices of the entry and does nothing but
    read the checkpoint, no CDI spec file is written and no checkpoint. So a
    second [Prepare] after one that returned at least one device returns the
    same devices and leaves the checkpoint as it is. In the pod-manager path, for a (pod,
    claim) pair the pod manager finds, [prepareResourceClaim] returns the
    devices recorded there and leaves the pod manager and the device state
    manager untouched; so does a second call after one that prepared the
    claim, when the pod manager gives back what [Set] recorded. *)
Theorem prepare_idempotent :
  (∀ deps allocatable claim w preparedClaims,
     state.checkpointFile w = Some preparedClaims →
     preparedClaims !!! resourceapi.UID claim ≠ [] →
     state.Prepare deps allocatable claim w
     = (Return (Ok (types.GetDevices
                      (preparedClaims !!! resourceapi.UID claim))),
        {| state.checkpointFile := state.checkpointFile w;
           state.trace := state.trace w ++ [EvGetCheckpoint] |}))
  ∧ (∀ deps allocatable claim w devices w1,
       state.Prepare deps allocatable claim w = (Return (Ok devices), w1) →
       devices ≠ [] →
       state.Prepare deps allocatable claim w1
       = (Return (Ok devices),
          {| state.checkpointFile := state.checkpointFile w1;
             state.trace := state.trace w1 ++ [EvGetCheckpoint] |}))
  ∧ (∀ (PM : Type) (pmOps : podmanager.Ops PM) deps allocatable claim pod
       (w : dra_hook.World PM) preparedDevices,
       resourceapi.ReservedFor (resourceapi.Status claim) = [pod] →
       podmanager.Get pmOps (dra_hook.podManager w)
         (resourceapi.ConsumerUID pod) (resourceapi.UID claim)
       = (preparedDevices, true) →
       dra_hook.prepareResourceClaim pmOps deps allocatable claim w
       = (Return (Ok (dra_hook.toDevices preparedDevices)), w))
  ∧ (∀ (PM : Type) (pmOps : podmanager.Ops PM) deps allocatable claim
       (w : dra_hook.World PM) devices w1,
       (∀ pm podUID claimUID preparedDevices pm',
          podmanager.Set_ pmOps pm podUID claimUID preparedDevices
          = (None, pm') →
          podmanager.Get pmOps pm' podUID claimUID
          = (preparedDevices, true)) →
       dra_hook.prepareResourceClaim pmOps deps allocatable claim w
       = (Return (Ok devices), w1) →
       dra_hook.prepareResourceClaim pmOps deps allocatable claim w1
       = (Return (Ok devices), w1)).
Proof.
  split; [|split; [|split]].
  - intros deps allocatable claim w preparedClaims Hfile Hsome.
    by apply state.Prepare_already_prepared.
  - intros deps allocatable claim w devices w1 Hfirst Hne.
    destruct (state.Prepare_Ok_inv _ _ _ _ _ _ Hfirst)
      as (preparedClaims & Hfile & ->).
    apply state.Prepare_already_prepared; [done|].
    intros Hnil. by rewrite Hnil in Hne.
  - intros PM pmOps deps allocatable claim pod w preparedDevices Hpod Hget.
    unfold dra_hook.prepareResourceClaim. by rewrite Hpod, Hget.
  - intros PM pmOps deps allocatable claim w devices w1 Hlaw.
    unfold dra_hook.prepareResourceClaim.
    destruct (resourceapi.ReservedFor (resourceapi.Status claim))
      as [|pod [|pod' pods]]; [done| |done].
    destruct (podmanager.Get pmOps (dra_hook.podManager w) _ _)
      as [preparedDevices [|]] eqn:Hget.
    { intros [= <- <-]. by rewrite Hget. }
    destruct (devicestate.PrepareDevices _ _ _ _)
      as [[[prepared|]|] t]; [|done..].
    destruct (podmanager.Set_ pmOps _ _ _ _) as [[e|] pm'] eqn:Hset; [done|].
    intros [= <- <-]. simpl. by rewrite (Hlaw _ _ _ _ _ Hset).
Qed.

(** C3, the claim as stated fails: a claim allocated without a result is
    prepared to a nil device list, which is what the checkpoint then holds
    under its UID. The second [Prepare] finds the UID with a nil entry,
    prepares again, and writes the CDI spec file and the checkpoint a second
    time. *)
Lemma prepare_twice_without_results :
  ∃ w1 w2,
    state.Prepare demo.stateDeps demo.allocatable
      (demo.claim [] [] [demo.pod1])
      {| state.checkpointFile := Some ∅; state.trace := [] |}
    = (Return (Ok []), w1)
    ∧ state.checkpointFile w1 = Some {[ "uid-claim-a" := [] ]}
    ∧ state.Prepare demo.stateDeps demo.allocatable
        (demo.claim [] [] [demo.pod1]) w1
      = (Return (Ok []), w2)
    ∧ state.trace w2
      = state.trace w1
        ++ [EvGetCheckpoint; EvCreateClaimSpecFile "uid-claim-a" [];
            EvCreateCheckpoint].
Proof.
  eexists _, _. split; [vm_compute; reflexivity|].
  split; [vm_compute; reflexivity|].
  split; vm_compute; reflexivity.
Qed.

(** The pod manager of section 4.8 gives back what [Set] recorded. *)
Lemma indexOps_get_set (pm : podmanager.Index) podUID claimUID
    preparedDevices pm' :
  podmanager.Set_ podmanager.indexOps pm podUID claimUID preparedDevices
  = (None, pm') →
  podmanager.Get podmanager.indexOps pm' podUID claimUID
  = (preparedDevices, true).
Proof.
  simpl. destruct (decide (podUID = "" ∨ claimUID = "")); [done|].
  intros [= <-]. by rewrite lookup_insert_eq.
Qed.

(** Preparing the claim of the example twice, in both paths: the second
    call reads the checkpoint and writes nothing, respectively touches
    nothing. *)
Example prepare_twice_demo :
  let claim :=
    demo.claim [demo.vfResult "a" "0000-01-00-1"] [demo.net1For ["a"]]
      [demo.pod1] in
  let w0 := {| state.checkpointFile := Some ∅; state.trace := [] |} in
  let first := state.Prepare demo.stateDeps demo.allocatable claim w0 in
  let second :=
    state.Prepare demo.stateDeps demo.allocatable claim first.2 in
  first.1 = second.1
  ∧ (drapbv1.DeviceName <$> match first.1 with
                            | Return (Ok devices) => devices
                            | _ => []
                            end) = ["0000-01-00-1"]
  ∧ state.trace first.2
    = [EvGetCheckpoint; EvCreateClaimSpecFile "uid-claim-a" ["0000-01-00-1"];
       EvCreateCheckpoint]
  ∧ state.trace second.2 = state.trace first.2 ++ [EvGetCheckpoint]
  ∧ state.checkpointFile second.2 = state.checkpointFile first.2.
Proof. cbv zeta. do 4 (split; [eval_refl|]). eval_refl. Qed.

(** C7. A claim UID with no entry in the checkpointed [PreparedClaims]:
    [Unprepare] returns nil after reading the checkpoint, and neither
    deletes a CDI spec file nor writes the checkpoint. A claim the pod
    manager does not find: [unprepareResourceClaim] returns nil and leaves
    the pod manager and the device state manager untouched. *)
Theorem unprepare_unknown_claim :
  (∀ deps w preparedClaims claimUID,
     state.checkpointFile w = Some preparedClaims →
     preparedClaims !! claimUID = None →
     state.Unprepare deps claimUID w
     = (None, {| state.checkpointFile := state.checkpointFile w;
                 state.trace := state.trace w ++ [EvGetCheckpoint] |}))
  ∧ (∀ (PM : Type) (pmOps : podmanager.Ops PM) deps claim
       (w : dra_hook.World PM) preparedDevices,
       podmanager.GetByClaim pmOps (dra_hook.podManager w) claim
       = (preparedDevices, false) →
       dra_hook.unprepareResourceClaim pmOps deps claim w = (None, w)).
Proof.
  split.
  - intros deps w preparedClaims claimUID Hfile Hnone.
    by apply state.Unprepare_unknown with preparedClaims.
  - intros PM pmOps deps claim w preparedDevices Hget.
    unfold dra_hook.unprepareResourceClaim. by rewrite Hget.
Qed.

(** Unpreparing a claim that was never prepared, then one that was. *)
Example unprepare_demo :
  let claim :=
    demo.claim [demo.vfResult "a" "0000-01-00-1"] [demo.net1For ["a"]]
      [demo.pod1] in
  let w0 := {| state.checkpointFile := Some ∅; state.trace := [] |} in
  state.Unprepare demo.stateDeps "uid-claim-a" w0
  = (None, {| state.checkpointFile := Some ∅;
              state.trace := [EvGetCheckpoint] |})
  ∧ state.trace
      (state.Unprepare demo.stateDeps "uid-claim-a"
         (state.Prepare demo.stateDeps demo.allocatable claim w0).2).2
    = [EvGetCheckpoint; EvCreateClaimSpecFile "uid-claim-a" ["0000-01-00-1"];
       EvCreateCheckpoint; EvGetCheckpoint;
       EvDeleteClaimSpecFile "uid-claim-a"; EvCreateCheckpoint].
Proof. vm_compute. split; reflexivity. Qed.

(** ** The container edits of the prepared devices *)

(** C6 (as amended). Every device the checkpoint-backed manager prepares
    carries container edits with the variable VF_DEVICE_<deviceName> set to
    the pciAddress attribute of that device in the catalog. Every device
    the NRI-integrated manager prepares carries edits with the variable
    VF_DEVICE_<deviceName with every '-' replaced by '_'> set to that
    attribute, and with NET_ATTACH_DEF_NAME set to the [NetAttachDefName] of
    the normalized config to which a result of the claim that names this
    device resolves. *)
Theorem container_edits_of_prepared_devices :
  (∀ deps allocatable claim pds pd,
     (∀ m, state.rangeApply deps m ≡ₚ map_to_list m) →
     (∀ m, state.rangeBuild deps m ≡ₚ map_to_list m) →
     state.prepareDevices deps allocatable claim = Return (Ok pds) →
     pd ∈ pds →
     ∃ deviceInfo pciAddress edits,
       types.ContainerEdits pd = Some edits
       ∧ allocatable !! drapbv1.DeviceName (types.Device pd)
         = Some deviceInfo
       ∧ resourceapi.Attributes deviceInfo !! "pciAddress"
         = Some {| resourceapi.StringValue := Some pciAddress |}
       ∧ "VF_DEVICE_" +:+ drapbv1.DeviceName (types.Device pd)
           +:+ "=" +:+ pciAddress ∈ cdiapi.Env edits)
  ∧ (∀ deps allocatable claim t pds t' pd,
       (∀ m, devicestate.rangeApply deps m ≡ₚ map_to_list m) →
       (∀ m, devicestate.rangeBuild deps m ≡ₚ map_to_list m) →
       devicestate.prepareDevices deps allocatable claim t
       = (Return (Ok pds), t') →
       pd ∈ pds →
       ∃ deviceInfo pciAddress edits,
         drasriovtypes.ContainerEdits pd = Some edits
         ∧ allocatable !! drapbv1.DeviceName (drasriovtypes.Device pd)
           = Some deviceInfo
         ∧ resourceapi.Attributes deviceInfo
             !! devicestate.AttributePciAddress deps
           = Some {| resourceapi.StringValue := Some pciAddress |}
         ∧ "VF_DEVICE_"
             +:+ gostrings.ReplaceAll
                   (drapbv1.DeviceName (drasriovtypes.Device pd)) "-" "_"
             +:+ "=" +:+ pciAddress ∈ cdiapi.Env edits
         ∧ ∃ allocation configs r c config config',
             resourceapi.Allocation (resourceapi.Status claim)
             = Some allocation
             ∧ devicestate.getOpaqueDeviceConfigs deps
                 (resourceapi.Config (resourceapi.Devices allocation))
               = Ok configs
             ∧ r ∈ resourceapi.Results (resourceapi.Devices allocation)
             ∧ resourceapi.Device_ r
               = drapbv1.DeviceName (drasriovtypes.Device pd)
             ∧ configmatch.resolve
                 (devicestate.defaultConfig deps :: configs)
                 (resourceapi.Request r) = Some c
             ∧ configapi.objValue c = Some config
             ∧ devicestate.Normalize deps config = Ok config'
             ∧ "NET_ATTACH_DEF_NAME=" +:+ configapi.NetAttachDefName config'
               ∈ cdiapi.Env edits).
Proof.
  split.
  - intros deps allocatable claim pds pd Hr1 Hr2 Hprep Hpd.
    destruct (state.prepareDevices_inv _ _ _ _ Hr1 Hr2 Hprep)
      as (allocation & configs & m & perDevice & _ & _ & _ & Hall & Hcov
          & Hpds).
    destruct (proj1 (Hpds pd) Hpd) as (r & Hr & Heq). subst pd. simpl.
    destruct (Hcov r Hr) as [edits Hedits].
    destruct (Hall _ _ Hedits) as (deviceInfo & pciAddress & ? & ? & Henv).
    exists deviceInfo, pciAddress, edits.
    do 3 (split; [done|]). rewrite Henv. by left.
  - intros deps allocatable claim t pds t' pd Hr1 Hr2 Hprep Hpd.
    destruct (devicestate.prepareDevices_inv_dsm _ _ _ _ _ _ Hr1 Hr2 Hprep)
      as (allocation & configs & m & perDevice & Halloc & Hcfg & Hm & Hall
          & Hcov & Hpds).
    destruct (Hpds pd Hpd) as (pod & pods & r & _ & Hr & Heq).
    subst pd. simpl.
    destruct (Hcov r Hr) as [edits Hedits].
    destruct (Hall _ _ Hedits)
      as (c & rs & r' & config & config' & Hin & Hr' & Hdev & Hobj & Hnorm
          & deviceInfo & pciAddress & ? & ? & Henv).
    exists deviceInfo, pciAddress, edits.
    do 3 (split; [done|]). rewrite Henv. split; [by left|].
    apply elem_of_map_to_list in Hin.
    destruct (configmatch.assignResults_entry_member _ _ _ _ _ _ _ _ Hm Hin Hr')
      as [Hres' Hc].
    exists allocation, configs, r', c, config, config'.
    do 7 (split; [done|]). right. by left.
Qed.

Lemma container_edits_witness :
  ∃ edits,
    types.ContainerEdits
      (state.preparedDevice demo.stateDeps
         (demo.claim [demo.vfResult "a" "0000-01-00-1"]
            [demo.net1For ["a"]] [demo.pod1])
         {[ "0000-01-00-1" :=
              {| cdiapi.Env := ["VF_DEVICE_0000-01-00-1=0000:01:00.1"] |} ]}
         (demo.vfResult "a" "0000-01-00-1")) = Some edits
    ∧ "VF_DEVICE_0000-01-00-1=0000:01:00.1" ∈ cdiapi.Env edits.
Proof.
  destruct (proj1 container_edits_of_prepared_devices
              demo.stateDeps demo.allocatable
              (demo.claim [demo.vfResult "a" "0000-01-00-1"]
                 [demo.net1For ["a"]] [demo.pod1])
              [state.preparedDevice demo.stateDeps
                 (demo.claim [demo.vfResult "a" "0000-01-00-1"]
                    [demo.net1For ["a"]] [demo.pod1])
                 {[ "0000-01-00-1" :=
                      {| cdiapi.Env :=
                           ["VF_DEVICE_0000-01-00-1=0000:01:00.1"] |} ]}
                 (demo.vfResult "a" "0000-01-00-1")]
              (state.preparedDevice demo.stateDeps
                 (demo.claim [demo.vfResult "a" "0000-01-00-1"]
                    [demo.net1For ["a"]] [demo.pod1])
                 {[ "0000-01-00-1" :=
                      {| cdiapi.Env :=
                           ["VF_DEVICE_0000-01-00-1=0000:01:00.1"] |} ]}
                 (demo.vfResult "a" "0000-01-00-1")))
    as (deviceInfo & pciAddress & edits & Hedits & Hdev & Hattr & Henv).
  - done.
  - done.
  - vm_compute. reflexivity.
  - by left.
  - exists edits. split; [exact Hedits|].
    assert (pciAddress = "0000:01:00.1") as ->; [|exact Henv].
    vm_compute in Hdev. injection Hdev as <-.
    vm_compute in Hattr. by injection Hattr.
Defined.

(** C6, the claim as stated fails in the NRI-integrated path: for the
    device 0000-01-00-1 the variable is VF_DEVICE_0000_01_00_1, and no
    variable VF_DEVICE_0000-01-00-1 is among the edits. *)
Lemma nri_edits_rename_device :
  ∃ pd t,
    devicestate.prepareDevices demo.deps demo.allocatable
      (demo.claim [demo.vfResult "a" "0000-01-00-1"] [demo.net1For ["a"]]
         [demo.pod1]) []
    = (Return (Ok [pd]), t)
    ∧ drapbv1.DeviceName (drasriovtypes.Device pd) = "0000-01-00-1"
    ∧ drasriovtypes.ContainerEdits pd
      = Some {| cdiapi.Env := ["VF_DEVICE_0000_01_00_1=0000:01:00.1";
                               "NET_ATTACH_DEF_NAME=net1"] |}
    ∧ ¬ ("VF_DEVICE_0000-01-00-1=0000:01:00.1"
         ∈ ["VF_DEVICE_0000_01_00_1=0000:01:00.1";
            "NET_ATTACH_DEF_NAME=net1"]).
Proof.
  eexists _, _. split; [vm_compute; reflexivity|].
  split; [reflexivity|]. split; [reflexivity|].
  intros Hin. repeat (apply elem_of_cons in Hin as [Hin|Hin]; [done|]).
  by apply elem_of_nil in Hin.
Qed.

(** ** [ReservedFor]: the guard of the driver and the index of the manager *)

(** The catalog [NewDeviceStateManager] gets from discovery has a
    pciAddress in every entry. *)
Lemma discovered_catalogOK helpers consts deps catalog :
  discovery.DiscoverSriovDevices helpers consts = Ok catalog →
  devicestate.AttributePciAddress deps = discovery.AttributePciAddress consts →
  NoDup [discovery.AttributeVendorID consts;
         discovery.AttributeDeviceID consts;
         discovery.AttributePciAddress consts;
         discovery.AttributePFName consts;
         discovery.AttributeEswitchMode consts] →
  devicestate.catalogOK deps catalog.
Proof.
  intros Hd Hattr Hnd device deviceInfo Hdev.
  destruct (discovery.discover_inv _ _ _ Hd) as (pci & _ & _ & _ & ->).
  apply gomap.insertAll_lookup_Some in Hdev.
  apply list_elem_of_fmap in Hdev as ([pfInfo vf] & [= -> ->] & _).
  destruct (discovery.vfDevice_attributes consts pfInfo vf Hnd)
    as (_ & _ & _ & Hpci & _).
  unfold devicestate.pciAddressOf. rewrite Hattr.
  simpl in Hpci |- *. rewrite Hpci. by eexists.
Qed.

Section guard.
Context {PM : Type}.
Variable pmOps : podmanager.Ops PM.
Variable deps : devicestate.Deps.
Variable allocatable : gmap string resourceapi.Device.

Lemma prepareResourceClaim_no_panic claim (w : dra_hook.World PM) msg w' :
  devicestate.catalogOK deps allocatable →
  dra_hook.prepareResourceClaim pmOps deps allocatable claim w
  ≠ (Panic msg, w').
Proof.
  intros Hok. unfold dra_hook.prepareResourceClaim.
  destruct (resourceapi.ReservedFor (resourceapi.Status claim))
    as [|pod [|pod' pods]] eqn:Hpods; [done| |done].
  destruct (podmanager.Get pmOps _ _ _) as [preparedDevices [|]]; [done|].
  destruct (devicestate.PrepareDevices _ _ _ _)
    as [[[prepared|]|msg'] t] eqn:Hprep; [|done|].
  - by destruct (podmanager.Set_ pmOps _ _ _ _) as [[e|] pm'].
  - apply devicestate.PrepareDevices_no_panic in Hprep; [done..|].
    by rewrite Hpods.
Qed.

Lemma prepareLoop_spec claims prepared0 (w : dra_hook.World PM) :
  devicestate.catalogOK deps allocatable →
  ∃ prepared w',
    dra_hook.prepareLoop pmOps deps allocatable claims prepared0 w
    = (Return (Ok prepared), w')
    ∧ (∀ uid, uid ∉ resourceapi.UID <$> claims →
         prepared !! uid = prepared0 !! uid)
    ∧ (∀ claim, claim ∈ claims →
         is_Some (prepared !! resourceapi.UID claim))
    ∧ (NoDup (resourceapi.UID <$> claims) →
       ∀ claim, claim ∈ claims →
         ∃ w0 w1 r,
           dra_hook.prepareResourceClaim pmOps deps allocatable claim w0
           = (Return r, w1)
           ∧ prepared !! resourceapi.UID claim = Some r).
Proof.
  intros Hok. revert prepared0 w.
  induction claims as [|claim rest IH]; intros prepared0 w; simpl.
  - exists prepared0, w. split; [done|]. split; [done|].
    split; [by intros ? ?%elem_of_nil|]. by intros _ ? ?%elem_of_nil.
  - destruct (dra_hook.prepareResourceClaim pmOps deps allocatable claim w)
      as [[r|msg] w1] eqn:Hone.
    2:{ by apply prepareResourceClaim_no_panic in Hone. }
    destruct (IH (<[resourceapi.UID claim := r]> prepared0) w1)
      as (prepared & w' & Hloop & Hout & Hin & Hnd).
    exists prepared, w'. split; [done|]. split; [|split].
    + intros uid Huid. apply not_elem_of_cons in Huid as [Hne Hrest].
      rewrite Hout by done. by rewrite lookup_insert_ne.
    + intros claim' [->|Hrest]%elem_of_cons; [|by apply Hin].
      destruct (decide (resourceapi.UID claim ∈ resourceapi.UID <$> rest))
        as [Hdup|Hfresh].
      * apply list_elem_of_fmap in Hdup as (claim' & -> & Hc'). by apply Hin.
      * rewrite Hout by done. rewrite lookup_insert_eq. by eexists.
    + intros [Hfresh Hnd']%NoDup_cons.
      intros claim' [->|Hrest]%elem_of_cons; [|by apply Hnd].
      exists w, w1, r. split; [done|].
      rewrite Hout by done. by rewrite lookup_insert_eq.
Qed.

End guard.

(** C4. A claim with no reserving pod, or with more than one, gets an error
    result from [prepareResourceClaim], which leaves the pod manager and
    the device state manager as they are: the manager's prepare is not
    called. [PrepareResourceClaims] returns a nil error and a result for
    every claim of the batch, and, the UIDs of the batch being distinct, the
    result under the UID of such a claim is that error. The catalog is one
    that has a pciAddress in every entry, as discovery builds it. *)
Theorem reserved_for_guard {PM : Type} (pmOps : podmanager.Ops PM)
    (deps : devicestate.Deps) (allocatable : gmap string resourceapi.Device) :
  (∀ claim (w : dra_hook.World PM),
     resourceapi.ReservedFor (resourceapi.Status claim) = [] →
     dra_hook.prepareResourceClaim pmOps deps allocatable claim w
     = (Return (Err ("no pod info found for claim "
                     +:+ dra_hook.claimID claim)), w))
  ∧ (∀ claim (w : dra_hook.World PM),
       1 < length (resourceapi.ReservedFor (resourceapi.Status claim)) →
       dra_hook.prepareResourceClaim pmOps deps allocatable claim w
       = (Return (Err ("multiple pods found for claim "
                       +:+ dra_hook.claimID claim +:+ " not supported")), w))
  ∧ (devicestate.catalogOK deps allocatable →
     ∀ claims (w : dra_hook.World PM),
       ∃ prepared w',
         dra_hook.PrepareResourceClaims pmOps deps allocatable claims w
         = (Return (Ok prepared), w')
         ∧ (∀ claim, claim ∈ claims →
              is_Some (prepared !! resourceapi.UID claim))
         ∧ (NoDup (resourceapi.UID <$> claims) →
            ∀ claim, claim ∈ claims →
              (resourceapi.ReservedFor (resourceapi.Status claim) = [] →
               prepared !! resourceapi.UID claim
               = Some (Err ("no pod info found for claim "
                            +:+ dra_hook.claimID claim)))
              ∧ (1 < length (resourceapi.ReservedFor
                               (resourceapi.Status claim)) →
                 prepared !! resourceapi.UID claim
                 = Some (Err ("multiple pods found for claim "
                              +:+ dra_hook.claimID claim
                              +:+ " not supported"))))).
Proof.
  split; [|split].
  - intros claim w Hpods. unfold dra_hook.prepareResourceClaim.
    by rewrite Hpods.
  - intros claim w Hpods. unfold dra_hook.prepareResourceClaim.
    destruct (resourceapi.ReservedFor (resourceapi.Status claim))
      as [|pod [|pod' pods]]; simpl in Hpods; [lia|lia|done].
  - intros Hok claims w. unfold dra_hook.PrepareResourceClaims.
    destruct (decide (length claims = 0)) as [Hlen|Hlen].
    { apply nil_length_inv in Hlen as ->. exists ∅, w.
      split; [done|]. split; [by intros ? ?%elem_of_nil|].
      by intros _ ? ?%elem_of_nil. }
    destruct (prepareLoop_spec pmOps deps allocatable claims ∅ w Hok)
      as (prepared & w' & Hloop & _ & Hin & Hnd).
    exists prepared, w'. split; [done|]. split; [done|].
    intros Hdistinct claim Hclaim.
    destruct (Hnd Hdistinct claim Hclaim) as (w0 & w1 & r & Hone & Hr).
    unfold dra_hook.prepareResourceClaim in Hone.
    destruct (resourceapi.ReservedFor (resourceapi.Status claim))
      as [|pod [|pod' pods]]; simpl.
    + injection Hone as <- _. split; [done|lia].
    + split; [done|lia].
    + injection Hone as <- _. split; [done|]. by intros _.
Qed.

(** A batch of three claims: one without a pod, one with two pods, and the
    claim of the example. The first two get their error, the third is
    prepared, and the manager is called for the third only. *)
Example reserved_for_guard_demo :
  let good :=
    demo.claim [demo.vfResult "a" "0000-01-00-1"] [demo.net1For ["a"]]
      [demo.pod1] in
  let none :=
    {| resourceapi.ClaimName := "claim-b";
       resourceapi.Namespace := "default";
       resourceapi.UID := "uid-claim-b";
       resourceapi.Status :=
         {| resourceapi.Allocation := resourceapi.Allocation
                                        (resourceapi.Status good);
            resourceapi.ReservedFor := [] |} |} in
  let two :=
    {| resourceapi.ClaimName := "claim-c";
       resourceapi.Namespace := "default";
       resourceapi.UID := "uid-claim-c";
       resourceapi.Status :=
         {| resourceapi.Allocation := resourceapi.Allocation
                                        (resourceapi.Status good);
            resourceapi.ReservedFor := [demo.pod1; demo.pod1] |} |} in
  let '(r, w) :=
    dra_hook.PrepareResourceClaims podmanager.indexOps demo.deps
      demo.allocatable [none; two; good]
      {| dra_hook.podManager := (∅ : podmanager.Index);
         dra_hook.dsmTrace := [] |} in
  ∃ prepared devices,
    r = Return (Ok prepared)
    ∧ prepared !! "uid-claim-b"
      = Some (Err "no pod info found for claim default/claim-b/uid-claim-b")
    ∧ prepared !! "uid-claim-c"
      = Some (Err "multiple pods found for claim default/claim-c/uid-claim-c not supported")
    ∧ prepared !! "uid-claim-a" = Some (Ok devices)
    ∧ dra_hook.dsmTrace w
      = [EvPrepareDevices "uid-claim-a"; EvGetNetAttachDef "net1" "default";
         EvCreateClaimSpecFile "uid-claim-a" ["0000-01-00-1"]].
Proof. vm_compute. eexists _, _. repeat split; reflexivity. Qed.




(** ** Checkpoints and their checksum (package checkpoint) *)

Module checkpoint.

Record CheckpointV1 := {
  PreparedClaims : gmap string types.PreparedDevices;
}.

(** [Checksum] is a [uint64]; a nil [V1] is [None]. *)
Record Checkpoint := {
  Checksum : Z;
  V1 : option CheckpointV1;
}.

Definition NewCheckpoint : Checkpoint :=
  {| Checksum := 0; V1 := Some {| PreparedClaims := ∅ |} |}.

(** The library calls of the package: [json.Marshal] of the checkpoint,
    [json.Unmarshal(data, cp)] (which decodes into the checkpoint it is
    given) and [checksum.New(out)] of the kubelet's checkpoint manager. *)
Record Codec := {
  Marshal : Checkpoint → result string;
  Unmarshal : string → Checkpoint → result Checkpoint;
  checksumNew : string → Z;
}.

(** [cp.Checksum = ck]. *)
Definition setChecksum (cp : Checkpoint) (ck : Z) : Checkpoint :=
  {| Checksum := ck; V1 := V1 cp |}.

Section Checkpoint.
Variable codec : Codec.

(** The method works on [*cp]: besides its results it leaves the
    checkpoint changed, which is the second component. *)
Definition MarshalCheckpoint (cp : Checkpoint) : result string * Checkpoint :=
  let cp := setChecksum cp 0 in
  match Marshal codec cp with
  | Err e => (Err e, cp)
  | Ok out =>
      let cp := setChecksum cp (checksumNew codec out) in
      (Marshal codec cp, cp)
  end.









End Checkpoint.
End checkpoint.

(** ** A fragment of encoding/json, to run the checkpoint code on

    [json.Marshal] and [json.Unmarshal] as they behave on a [Checkpoint]
    whose strings are printable ASCII without the characters that
    encoding/json escapes: object keys are matched with the field names
    exactly or, failing that, without regard to case; unknown keys are
    skipped; empty fields tagged [omitempty] are left out; map keys are
    written in order. Outside the fragment (an escape, a sign, a fraction, a
    byte past 126) both functions return an error. [checksum.New] hashes a
    dump of the bytes with 32-bit FNV-1a; [fnv32a] hashes the bytes
    themselves. *)

Module gojson.
Import checkpoint.

#[local] Unset Elimination Schemes.
Inductive json :=
| JNull
| JBool (b : bool)
| JNumber (n : N)
| JString (s : string)
| JArray (elems : list json)
| JObject (members : list (string * json)).
#[local] Set Elimination Schemes.

Definition quote : string := String "034"%char "".

Definition safeChar (c : ascii) : bool :=
  let n := N_of_ascii c in
  (32 <=? n)%N && (n <? 127)%N
  && negb (bool_decide (n ∈ [34; 92; 60; 62; 38]%N)).

Fixpoint safeString (s : string) : bool :=
  match s with
  | EmptyString => true
  | String c s' => safeChar c && safeString s'
  end.

Fixpoint safe (v : json) : bool :=
  match v with
  | JString s => safeString s
  | JArray elems => forallb safe elems
  | JObject members =>
      forallb (λ kv, safeString kv.1 && safe kv.2) members
  | _ => true
  end.

Fixpoint digits (fuel : nat) (n : N) (acc : string) : string :=
  match fuel with
  | 0 => acc
  | S fuel =>
      let acc := String (ascii_of_N (48 + n mod 10)) acc in
      if (n <? 10)%N then acc else digits fuel (n / 10)%N acc
  end.

(** The decimal digits of [n]. *)
Definition decimal (n : N) : string := digits (S (N.to_nat (N.log2 n))) n "".

Fixpoint print (v : json) : string :=
  match v with
  | JNull => "null"
  | JBool true => "true"
  | JBool false => "false"
  | JNumber n => decimal n
  | JString s => quote +:+ s +:+ quote
  | JArray elems =>
      "[" +:+ (fix go l :=
                 match l with
                 | [] => ""
                 | [x] => print x
                 | x :: l' => print x +:+ "," +:+ go l'
                 end) elems +:+ "]"
  | JObject members =>
      "{" +:+ (fix go l :=
                 match l with
                 | [] => ""
                 | [kv] => quote +:+ kv.1 +:+ quote +:+ ":" +:+ print kv.2
                 | kv :: l' =>
                     quote +:+ kv.1 +:+ quote +:+ ":" +:+ print kv.2
                     +:+ "," +:+ go l'
                 end) members +:+ "}"
  end.

(** *** Reading a JSON text *)

Definition isSpace (c : ascii) : bool :=
  bool_decide (N_of_ascii c ∈ [32; 9; 10; 13]%N).

Fixpoint skipSpace (s : string) : string :=
  match s with
  | String c s' => if isSpace c then skipSpace s' else s
  | EmptyString => EmptyString
  end.

Definition digitOf (c : ascii) : option N :=
  let n := N_of_ascii c in
  if (48 <=? n)%N && (n <=? 57)%N then Some (n - 48)%N else None.

Fixpoint parseDigits (s : string) (acc : N) : N * string :=
  match s with
  | String c s' =>
      match digitOf c with
      | Some d => parseDigits s' (acc * 10 + d)%N
      | None => (acc, s)
      end
  | EmptyString => (acc, EmptyString)
  end.

(** After an integer no fraction and no exponent. *)
Definition endsNumber (s : string) : bool :=
  match s with
  | String c _ => negb (bool_decide (N_of_ascii c ∈ [46; 101; 69]%N))
  | EmptyString => true
  end.

Definition parseNumber (s : string) : option (N * string) :=
  match s with
  | String c s' =>
      match digitOf c with
      | None => None
      | Some d =>
          let '(n, rest) := if (d =? 0)%N then (0%N, s') else parseDigits s' d in
          match rest with
          | String c' _ =>
              if (d =? 0)%N && bool_decide (is_Some (digitOf c')) then None
              else if endsNumber rest then Some (n, rest) else None
          | EmptyString => Some (n, rest)
          end
      end
  | EmptyString => None
  end.

(** The text of a string, after its opening quote. *)
Fixpoint parseString (s : string) : option (string * string) :=
  match s with
  | EmptyString => None
  | String c s' =>
      if decide (c = "034"%char) then Some (EmptyString, s')
      else if negb (safeChar c) && negb (bool_decide (N_of_ascii c ∈ [60; 62; 38]%N))
      then None
      else
        match parseString s' with
        | Some (str, rest) => Some (String c str, rest)
        | None => None
        end
  end.

Section parse.
Variable parseValue : string → option (json * string).

(** The elements of an array after the first bracket, the array not being
    empty. *)
Fixpoint parseElems (fuel : nat) (s : string) : option (list json * string) :=
  match fuel with
  | 0 => None
  | S fuel =>
      match parseValue s with
      | None => None
      | Some (v, rest) =>
          match skipSpace rest with
          | String "," rest' =>
              match parseElems fuel rest' with
              | Some (vs, rest'') => Some (v :: vs, rest'')
              | None => None
              end
          | String "]" rest' => Some ([v], rest')
          | _ => None
          end
      end
  end.

Fixpoint parseMembers (fuel : nat) (s : string)
  : option (list (string * json) * string) :=
  match fuel with
  | 0 => None
  | S fuel =>
      match skipSpace s with
      | String "034" rest =>
          match parseString rest with
          | None => None
          | Some (key, rest) =>
              match skipSpace rest with
              | String ":" rest =>
                  match parseValue rest with
                  | None => None
                  | Some (v, rest) =>
                      match skipSpace rest with
                      | String "," rest' =>
                          match parseMembers fuel rest' with
                          | Some (ms, rest'') => Some ((key, v) :: ms, rest'')
                          | None => None
                          end
                      | String "}" rest' => Some ([(key, v)], rest')
                      | _ => None
                      end
                  end
              | _ => None
              end
          end
      | _ => None
      end
  end.

End parse.

Definition dropPrefix (p s : string) : option string :=
  if String.prefix p s then
    Some (String.substring (String.length p)
            (String.length s - String.length p) s)
  else None.

Fixpoint parseValue (fuel : nat) (s : string) : option (json * string) :=
  match fuel with
  | 0 => None
  | S fuel =>
      let s := skipSpace s in
      match s with
      | String "034" rest =>
          match parseString rest with
          | Some (str, rest) => Some (JString str, rest)
          | None => None
          end
      | String "[" rest =>
          match skipSpace rest with
          | String "]" rest' => Some (JArray [], rest')
          | _ =>
              match parseElems (parseValue fuel) fuel rest with
              | Some (vs, rest') => Some (JArray vs, rest')
              | None => None
              end
          end
      | String "{" rest =>
          match skipSpace rest with
          | String "}" rest' => Some (JObject [], rest')
          | _ =>
              match parseMembers (parseValue fuel) fuel rest with
              | Some (ms, rest') => Some (JObject ms, rest')
              | None => None
              end
          end
      | _ =>
          match dropPrefix "null" s, dropPrefix "true" s,
                dropPrefix "false" s with
          | Some rest, _, _ => Some (JNull, rest)
          | _, Some rest, _ => Some (JBool true, rest)
          | _, _, Some rest => Some (JBool false, rest)
          | _, _, _ =>
              match parseNumber s with
              | Some (n, rest) => Some (JNumber n, rest)
              | None => None
              end
          end
      end
  end.

Definition parse (data : string) : option json :=
  match parseValue (S (String.length data)) data with
  | Some (v, rest) =>
      if decide (skipSpace rest = EmptyString) then Some v else None
  | None => None
  end.

(** *** From a JSON value to the checkpoint and back *)

Definition toLower (c : ascii) : ascii :=
  let n := N_of_ascii c in
  if (65 <=? n)%N && (n <=? 90)%N then ascii_of_N (n + 32) else c.

Fixpoint lower (s : string) : string :=
  match s with
  | EmptyString => EmptyString
  | String c s' => String (toLower c) (lower s')
  end.

(** The field a key of an object stands for: the field of that name or,
    when there is none, the first field whose name is the key up to case. *)
Definition fieldOf (fields : list string) (key : string) : option string :=
  if bool_decide (key ∈ fields) then Some key
  else head (filter (λ f, lower f = lower key) fields).

Fixpoint foldM {A B : Type} (f : A → B → option A) (a : A) (l : list B)
  : option A :=
  match l with
  | [] => Some a
  | b :: l' =>
      match f a b with
      | Some a' => foldM f a' l'
      | None => None
      end
  end.

Definition decodeString (v : json) (old : string) : option string :=
  match v with
  | JString s => Some s
  | JNull => Some old
  | _ => None
  end.

Definition decodeStrings (v : json) : option (list string) :=
  match v with
  | JNull => Some []
  | JArray elems =>
      foldM (λ acc e, s ← decodeString e ""; Some (acc ++ [s])) [] elems
  | _ => None
  end.

(** The fields of a CDI [ContainerEdits]; the driver sets [env] only, and a
    text that sets another one is outside the fragment. *)
Definition editsFields : list string :=
  ["env"; "deviceNodes"; "hooks"; "mounts"; "intelRdt"; "additionalGids"].

Definition decodeEdits (v : json) (old : option cdiapi.ContainerEdits)
  : option (option cdiapi.ContainerEdits) :=
  match v with
  | JNull => Some None
  | JObject members =>
      Some <$>
        foldM (λ edits kv,
                 match fieldOf editsFields kv.1 with
                 | None => Some edits
                 | Some f =>
                     if decide (f = "env") then
                       env ← decodeStrings kv.2; Some {| cdiapi.Env := env |}
                     else None
                 end)
          (default {| cdiapi.Env := [] |} old) members
  | _ => None
  end.

Definition deviceFields : list string :=
  ["request_names"; "pool_name"; "device_name"; "cdi_device_ids";
   "ContainerEdits"].

Definition decodeDeviceField (pd : types.PreparedDevice)
    (kv : string * json) : option types.PreparedDevice :=
  let d := types.Device pd in
  match fieldOf deviceFields kv.1 with
  | None => Some pd
  | Some f =>
      if decide (f = "request_names") then
        l ← decodeStrings kv.2;
        Some {| types.Device :=
                  {| drapbv1.RequestNames := l;
                     drapbv1.PoolName := drapbv1.PoolName d;
                     drapbv1.DeviceName := drapbv1.DeviceName d;
                     drapbv1.CDIDeviceIDs := drapbv1.CDIDeviceIDs d |};
                types.ContainerEdits := types.ContainerEdits pd |}
      else if decide (f = "pool_name") then
        x ← decodeString kv.2 (drapbv1.PoolName d);
        Some {| types.Device :=
                  {| drapbv1.RequestNames := drapbv1.RequestNames d;
                     drapbv1.PoolName := x;
                     drapbv1.DeviceName := drapbv1.DeviceName d;
                     drapbv1.CDIDeviceIDs := drapbv1.CDIDeviceIDs d |};
                types.ContainerEdits := types.ContainerEdits pd |}
      else if decide (f = "device_name") then
        x ← decodeString kv.2 (drapbv1.DeviceName d);
        Some {| types.Device :=
                  {| drapbv1.RequestNames := drapbv1.RequestNames d;
                     drapbv1.PoolName := drapbv1.PoolName d;
                     drapbv1.DeviceName := x;
                     drapbv1.CDIDeviceIDs := drapbv1.CDIDeviceIDs d |};
                types.ContainerEdits := types.ContainerEdits pd |}
      else if decide (f = "cdi_device_ids") then
        l ← decodeStrings kv.2;
        Some {| types.Device :=
                  {| drapbv1.RequestNames := drapbv1.RequestNames d;
                     drapbv1.PoolName := drapbv1.PoolName d;
                     drapbv1.DeviceName := drapbv1.DeviceName d;
                     drapbv1.CDIDeviceIDs := l |};
                types.ContainerEdits := types.ContainerEdits pd |}
      else
        e ← decodeEdits kv.2 (types.ContainerEdits pd);
        Some {| types.Device := d; types.ContainerEdits := e |}
  end.

Definition zeroDevice : types.PreparedDevice :=
  {| types.Device :=
       {| drapbv1.RequestNames := []; drapbv1.PoolName := "";
          drapbv1.DeviceName := ""; drapbv1.CDIDeviceIDs := [] |};
     types.ContainerEdits := None |}.

(** A slice of pointers to prepared devices; a null element is outside the
    fragment. *)
Definition decodeDevices (v : json) : option types.PreparedDevices :=
  match v with
  | JNull => Some []
  | JArray elems =>
      foldM (λ acc e,
               match e with
               | JObject members =>
                   pd ← foldM decodeDeviceField zeroDevice members;
                   Some (acc ++ [pd])
               | _ => None
               end) [] elems
  | _ => None
  end.

Definition decodeClaims (v : json) (old : gmap string types.PreparedDevices)
  : option (gmap string types.PreparedDevices) :=
  match v with
  | JNull => Some ∅
  | JObject members =>
      foldM (λ m kv, devices ← decodeDevices kv.2;
                     Some (<[kv.1 := devices]> m)) old members
  | _ => None
  end.

Definition decodeV1 (v : json) (old : option CheckpointV1)
  : option (option CheckpointV1) :=
  match v with
  | JNull => Some None
  | JObject members =>
      Some <$>
        foldM (λ v1 kv,
                 match fieldOf ["preparedClaims"] kv.1 with
                 | None => Some v1
                 | Some _ =>
                     claims ← decodeClaims kv.2 (PreparedClaims v1);
                     Some {| PreparedClaims := claims |}
                 end)
          (default {| PreparedClaims := ∅ |} old) members
  | _ => None
  end.

Definition decodeChecksum (v : json) (old : Z) : option Z :=
  match v with
  | JNumber n => if (n <? 2 ^ 64)%N then Some (Z.of_N n) else None
  | JNull => Some old
  | _ => None
  end.

Definition decodeCheckpoint (v : json) (cp : Checkpoint) : option Checkpoint :=
  match v with
  | JNull => Some cp
  | JObject members =>
      foldM (λ cp kv,
               match fieldOf ["checksum"; "v1"] kv.1 with
               | None => Some cp
               | Some f =>
                   if decide (f = "checksum") then
                     ck ← decodeChecksum kv.2 (Checksum cp);
                     Some {| Checksum := ck; V1 := V1 cp |}
                   else
                     v1 ← decodeV1 kv.2 (V1 cp);
                     Some {| Checksum := Checksum cp; V1 := v1 |}
               end) cp members
  | _ => None
  end.

(** A field tagged [omitempty] is left out when it is empty. *)
Definition field (name : string) (v : json) (empty : bool)
  : list (string * json) :=
  if empty then [] else [(name, v)].

Definition encodeStrings (l : list string) : json := JArray (JString <$> l).

Definition encodeDevice (pd : types.PreparedDevice) : json :=
  let d := types.Device pd in
  JObject
    (field "request_names" (encodeStrings (drapbv1.RequestNames d))
       (bool_decide (drapbv1.RequestNames d = []))
     ++ field "pool_name" (JString (drapbv1.PoolName d))
          (bool_decide (drapbv1.PoolName d = ""))
     ++ field "device_name" (JString (drapbv1.DeviceName d))
          (bool_decide (drapbv1.DeviceName d = ""))
     ++ field "cdi_device_ids" (encodeStrings (drapbv1.CDIDeviceIDs d))
          (bool_decide (drapbv1.CDIDeviceIDs d = []))
     ++ [("ContainerEdits",
          match types.ContainerEdits pd with
          | None => JNull
          | Some edits =>
              JObject (field "env" (encodeStrings (cdiapi.Env edits))
                         (bool_decide (cdiapi.Env edits = [])))
          end)]).

(** A nil slice is written as null. *)
Definition encodeDevices (pds : types.PreparedDevices) : json :=
  match pds with
  | [] => JNull
  | _ => JArray (encodeDevice <$> pds)
  end.

Definition keyLe (a b : string * types.PreparedDevices) : Prop :=
  String.le a.1 b.1.

#[local] Instance keyLe_dec : RelDecision keyLe.
Proof. intros a b. unfold keyLe. apply _. Defined.

Definition encodeClaims (m : gmap string types.PreparedDevices) : json :=
  JObject ((λ kv, (kv.1, encodeDevices kv.2))
             <$> merge_sort keyLe (map_to_list m)).

Definition encodeCheckpoint (cp : Checkpoint) : json :=
  JObject
    (("checksum", JNumber (Z.to_N (Checksum cp)))
     :: match V1 cp with
        | None => []
        | Some v1 =>
            [("v1",
              JObject (field "preparedClaims"
                         (encodeClaims (PreparedClaims v1))
                         (bool_decide (PreparedClaims v1 = ∅))))]
        end).

Fixpoint fnv32aLoop (s : string) (h : Z) : Z :=
  match s with
  | EmptyString => h
  | String c s' =>
      fnv32aLoop s'
        ((Z.lxor h (Z.of_N (N_of_ascii c)) * 16777619) mod 2 ^ 32)%Z
  end.

Definition fnv32a (s : string) : Z := fnv32aLoop s 2166136261.

Definition codec : Codec :=
  {| Marshal := λ cp,
       let v := encodeCheckpoint cp in
       if safe v then Ok (print v)
       else Err "json: outside the modelled fragment";
     Unmarshal := λ data cp,
       match parse data with
       | None => Err "json: invalid text, or outside the modelled fragment"
       | Some v =>
           match decodeCheckpoint v cp with
           | Some cp => Ok cp
           | None => Err "json: cannot unmarshal into Checkpoint"
           end
       end;
     checksumNew := fnv32a |}.


End gojson.

(** ** The checkpoint round trip *)





(** * Further properties of the code *)

(** ** One prepared device for each allocation result *)

Module grouping.
Import resourceapi configapi.

Section grouping.
Variable notAllocatable : string.
Variable allocatable : gmap string Device.
Variable configs : list types.OpaqueDeviceConfig.

(** The results held by a map, entry after entry. *)
Definition flat
    (entries : list (RuntimeObject * list DeviceRequestAllocationResult))
  : list DeviceRequestAllocationResult :=
  entries ≫= snd.

Lemma flat_Permutation entries1 entries2 :
  entries1 ≡ₚ entries2 → flat entries1 ≡ₚ flat entries2.
Proof. intros H. unfold flat. by rewrite H. Qed.

Lemma appendResult_flat (m : configmatch.ConfigResultsMap) c r :
  flat (map_to_list (configmatch.appendResult m c r))
  ≡ₚ flat (map_to_list m) ++ [r].
Proof.
  unfold configmatch.appendResult.
  destruct (m !! types.Config c) as [l|] eqn:Hl.
  - rewrite lookup_total_alt, Hl. simpl.
    rewrite <-(flat_Permutation _ _ (map_to_list_delete m _ _ Hl)).
    rewrite <-insert_delete_eq.
    rewrite (flat_Permutation _ _
               (map_to_list_insert (delete (types.Config c) m)
                  (types.Config c) (l ++ [r]) (lookup_delete_eq m _))).
    unfold flat. simpl.
    rewrite <-!app_assoc. apply Permutation_app_head, Permutation_app_comm.
  - rewrite lookup_total_alt, Hl. simpl.
    rewrite (flat_Permutation _ _
               (map_to_list_insert m (types.Config c) [r] Hl)).
    unfold flat. simpl. by rewrite Permutation_app_comm.
Qed.

(** When every result resolves to a config, the map built by the loop holds
    every result once. *)
Lemma assignResults_flat results m0 m :
  (∀ r, r ∈ results → is_Some (configmatch.resolve configs (Request r))) →
  configmatch.assignResults notAllocatable allocatable configs results m0
  = Ok m →
  flat (map_to_list m) ≡ₚ flat (map_to_list m0) ++ results.
Proof.
  revert m0. induction results as [|r rest IH]; intros m0 Hres; simpl.
  - intros [= ->]. by rewrite app_nil_r.
  - destruct (allocatable !! Device_ r); [|done].
    destruct (Hres r) as [k Hk]; [by left|].
    unfold configmatch.resolve in Hk.
    destruct (slices.firstBackward _ configs) as [c|]; [|done].
    intros Hrest%IH.
    + rewrite Hrest, appendResult_flat, <-app_assoc. done.
    + intros r' ?. apply Hres. by right.
Qed.

End grouping.
End grouping.

(** ** The checkpoint under [Prepare] and [Unprepare] (src/pkg/state/state.go) *)

(** X1. [Prepare] and [Unprepare] of the checkpoint-backed state touch the
    checkpoint at the UID of their claim only: the entry of every other
    claim is after the call what it was before; and when the call does not
    succeed ([Prepare] returns an error or panics, [Unprepare] returns an
    error) the whole checkpoint is what it was. *)
Theorem checkpoint_frame (deps : state.Deps)
    (allocatable : gmap string resourceapi.Device) :
  (∀ claim w preparedClaims r w',
     state.checkpointFile w = Some preparedClaims →
     state.Prepare deps allocatable claim w = (r, w') →
     ∃ preparedClaims',
       state.checkpointFile w' = Some preparedClaims'
       ∧ (∀ uid, uid ≠ resourceapi.UID claim →
            preparedClaims' !! uid = preparedClaims !! uid)
       ∧ ((∀ devices, r ≠ Return (Ok devices)) →
          preparedClaims' = preparedClaims))
  ∧ (∀ claimUID w preparedClaims e w',
       state.checkpointFile w = Some preparedClaims →
       state.Unprepare deps claimUID w = (e, w') →
       ∃ preparedClaims',
         state.checkpointFile w' = Some preparedClaims'
         ∧ (∀ uid, uid ≠ claimUID →
              preparedClaims' !! uid = preparedClaims !! uid)
         ∧ (is_Some e → preparedClaims' = preparedClaims)).
Proof.
  split.
  - intros claim w m r w' Hfile. unfold state.Prepare, state.GetCheckpoint.
    rewrite Hfile.
    destruct (decide (m !!! resourceapi.UID claim ≠ [])).
    { intros [= <- <-]. by exists m. }
    destruct (state.prepareDevices deps allocatable claim) as [[pds|]|].
    2,3: intros [= <- <-]; by exists m.
    destruct (state.CreateClaimSpecFile deps _ _).
    { intros [= <- <-]. by exists m. }
    destruct (state.CreateCheckpoint deps _).
    { intros [= <- <-]. by exists m. }
    intros [= <- <-]. eexists. split; [done|]. split.
    + intros uid Hne. by rewrite lookup_insert_ne.
    + intros Hno. by destruct (Hno _ eq_refl).
  - intros claimUID w m e w' Hfile.
    unfold state.Unprepare, state.GetCheckpoint. rewrite Hfile.
    destruct (decide (m !!! claimUID = [])).
    { intros [= <- <-]. exists m. split; [done|]. split; [done|].
      by intros []. }
    simpl. destruct (state.DeleteClaimSpecFile deps claimUID).
    { intros [= <- <-]. by exists m. }
    destruct (state.CreateCheckpoint deps _).
    { intros [= <- <-]. by exists m. }
    intros [= <- <-]. eexists. split; [done|]. split.
    + intros uid Hne. by rewrite lookup_delete_ne.
    + by intros [].
Qed.

(** X2. Preparing a claim that the checkpoint does not know and then
    unpreparing it brings the checkpoint back: when [Prepare] returned at
    least one device, and the CDI spec file can be deleted and the old
    checkpoint written, [Unprepare] returns nil, deletes the spec file of
    the claim, writes the checkpoint, and the checkpoint is the one from
    before [Prepare]. *)
Theorem Prepare_Unprepare_round_trip (deps : state.Deps)
    (allocatable : gmap string resourceapi.Device)
    (claim : resourceapi.ResourceClaim) (w : state.World)
    (preparedClaims : gmap string types.PreparedDevices)
    (devices : list drapbv1.Device) (w1 : state.World) :
  state.checkpointFile w = Some preparedClaims →
  preparedClaims !! resourceapi.UID claim = None →
  state.Prepare deps allocatable claim w = (Return (Ok devices), w1) →
  devices ≠ [] →
  state.DeleteClaimSpecFile deps (resourceapi.UID claim) = None →
  state.CreateCheckpoint deps preparedClaims = None →
  state.Unprepare deps (resourceapi.UID claim) w1
  = (None,
     {| state.checkpointFile := Some preparedClaims;
        state.trace :=
          state.trace w1
          ++ [EvGetCheckpoint;
              EvDeleteClaimSpecFile (resourceapi.UID claim);
              EvCreateCheckpoint] |}).
Proof.
  intros Hfile Hnone Hprep Hne Hdel Hsync.
  unfold state.Prepare, state.GetCheckpoint in Hprep. rewrite Hfile in Hprep.
  rewrite decide_False in Hprep.
  2:{ rewrite lookup_total_alt, Hnone. simpl. by intros []. }
  destruct (state.prepareDevices deps allocatable claim) as [[pds|]|];
    [|done..].
  destruct (state.CreateClaimSpecFile deps _ _); [done|].
  destruct (state.CreateCheckpoint deps (<[_ := _]> _)); [done|].
  injection Hprep as <- <-.
  rewrite lookup_total_insert_eq in Hne.
  unfold state.Unprepare, state.GetCheckpoint. simpl.
  rewrite lookup_total_insert_eq.
  rewrite decide_False.
  2:{ intros ->. by apply Hne. }
  simpl. rewrite Hdel, delete_insert_id by done. rewrite Hsync.
  by rewrite <-!app_assoc.
Qed.

(** Inputs to run the code on: the claim of the example with one result, a
    checkpoint that holds the claim of another pod, and the driver before
    any claim. *)
Module sample.

Definition claimA : resourceapi.ResourceClaim :=
  demo.claim [demo.vfResult "a" "0000-01-00-1"] [demo.net1For ["a"]]
    [demo.pod1].

Definition claimAB : resourceapi.ResourceClaim :=
  demo.claim [demo.vfResult "a" "0000-01-00-1";
              demo.vfResult "b" "0000-01-00-2"]
    [demo.net1For ["a"]; demo.net1For ["b"]] [demo.pod1].

Definition allocationAB : resourceapi.AllocationResult :=
  {| resourceapi.Devices :=
       {| resourceapi.Results :=
            [demo.vfResult "a" "0000-01-00-1";
             demo.vfResult "b" "0000-01-00-2"];
          resourceapi.Config :=
            [demo.net1For ["a"]; demo.net1For ["b"]] |} |}.

Definition w0 : state.World :=
  {| state.checkpointFile := Some ∅; state.trace := [] |}.

Definition devicesOf {A} (r : outcome A) (d : A) : A :=
  match r with Return (Ok a) => a | _ => d end.

End sample.

Lemma Prepare_Unprepare_round_trip_witness :
  state.Unprepare demo.stateDeps "uid-claim-a"
    (state.Prepare demo.stateDeps demo.allocatable sample.claimA
       sample.w0).2
  = (None,
     {| state.checkpointFile := Some ∅;
        state.trace :=
          state.trace (state.Prepare demo.stateDeps demo.allocatable
                         sample.claimA sample.w0).2
          ++ [EvGetCheckpoint; EvDeleteClaimSpecFile "uid-claim-a";
              EvCreateCheckpoint] |}).
Proof.
  refine (Prepare_Unprepare_round_trip demo.stateDeps demo.allocatable
            sample.claimA sample.w0 ∅
            (sample.devicesOf
               (state.Prepare demo.stateDeps demo.allocatable sample.claimA
                  sample.w0).1 [])
            (state.Prepare demo.stateDeps demo.allocatable sample.claimA
               sample.w0).2 _ _ _ _ _ _).
  - reflexivity.
  - reflexivity.
  - eval_refl.
  - vm_compute. discriminate.
  - reflexivity.
  - reflexivity.
Defined.

(** X3. A claim the checkpoint does not hold yet, prepared with success:
    the devices [Prepare] returns are, up to their order, one for each
    allocation result of the claim, with the request, the pool and the
    device of that result and the CDI device IDs of that one device. The
    order is the one in which the Go runtime happens to range over the
    configs. *)
Theorem Prepare_device_per_result (deps : state.Deps)
    (allocatable : gmap string resourceapi.Device)
    (claim : resourceapi.ResourceClaim)
    (allocation : resourceapi.AllocationResult) (w : state.World)
    (preparedClaims : gmap string types.PreparedDevices)
    (devices : list drapbv1.Device) (w' : state.World) :
  (∀ m, state.rangeBuild deps m ≡ₚ map_to_list m) →
  state.checkpointFile w = Some preparedClaims →
  preparedClaims !!! resourceapi.UID claim = [] →
  resourceapi.Allocation (resourceapi.Status claim) = Some allocation →
  state.Prepare deps allocatable claim w = (Return (Ok devices), w') →
  devices
  ≡ₚ (λ r, {| drapbv1.RequestNames := [resourceapi.Request r];
              drapbv1.PoolName := resourceapi.Pool r;
              drapbv1.DeviceName := resourceapi.Device_ r;
              drapbv1.CDIDeviceIDs :=
                state.GetClaimDevices deps (resourceapi.UID claim)
                  [resourceapi.Device_ r] |})
     <$> resourceapi.Results (resourceapi.Devices allocation).
Proof.
  intros Hrange Hfile Hnil Halloc.
  unfold state.Prepare, state.GetCheckpoint. rewrite Hfile.
  rewrite decide_False by (by intros []).
  unfold state.prepareDevices. rewrite Halloc.
  destruct (state.GetOpaqueDeviceConfigs deps _) as [configs|]; [|done].
  destruct (state.configResultsMapOf deps allocatable configs _)
    as [m|] eqn:Hm; [|done].
  destruct (state.applyConfigs deps allocatable _ ∅)
    as [[perDevice|]|]; [|done..].
  destruct (state.CreateClaimSpecFile deps _ _); [done|].
  destruct (state.CreateCheckpoint deps _); [done|].
  intros [= <- _]. rewrite lookup_total_insert_eq.
  unfold types.GetDevices, state.buildPrepared.
  assert (∀ entries,
            types.Device <$>
              (entries ≫= λ entry,
                 state.preparedDevice deps claim perDevice <$> entry.2)
            = (types.Device ∘ state.preparedDevice deps claim perDevice)
                <$> grouping.flat entries) as Hflat.
  { intros entries. unfold grouping.flat.
    induction entries as [|[c rs] rest IH]; [done|].
    rewrite !bind_cons, !fmap_app, IH. f_equal.
    simpl. by rewrite <-list_fmap_compose. }
  rewrite Hflat.
  rewrite (grouping.flat_Permutation _ _ (Hrange m)).
  unfold state.configResultsMapOf in Hm.
  apply grouping.assignResults_flat in Hm.
  - rewrite Hm. by rewrite map_to_list_empty.
  - intros r _. apply state.resolve_default.
Qed.

Lemma Prepare_device_per_result_witness :
  sample.devicesOf
    (state.Prepare demo.stateDeps demo.allocatable sample.claimAB
       sample.w0).1 []
  ≡ₚ [ {| drapbv1.RequestNames := ["a"]; drapbv1.PoolName := "node-1";
          drapbv1.DeviceName := "0000-01-00-1";
          drapbv1.CDIDeviceIDs :=
            ["k8s.sriovnetwork.openshift.io/claim=uid-claim-a-0000-01-00-1"] |};
       {| drapbv1.RequestNames := ["b"]; drapbv1.PoolName := "node-1";
          drapbv1.DeviceName := "0000-01-00-2";
          drapbv1.CDIDeviceIDs :=
            ["k8s.sriovnetwork.openshift.io/claim=uid-claim-a-0000-01-00-2"] |} ].
Proof.
  refine (Prepare_device_per_result demo.stateDeps demo.allocatable
            sample.claimAB sample.allocationAB sample.w0 ∅ _
            (state.Prepare demo.stateDeps demo.allocatable sample.claimAB
               sample.w0).2 _ _ _ _ _).
  - reflexivity.
  - reflexivity.
  - reflexivity.
  - reflexivity.
  - eval_refl.
Defined.

(** What every entry of a checkpoint written by this driver satisfies: each
    prepared device is a device of the catalog and carries container
    edits. *)
Definition checkpointOK (allocatable : gmap string resourceapi.Device)
    (preparedClaims : gmap string types.PreparedDevices) : Prop :=
  ∀ uid preparedDevices pd,
    preparedClaims !! uid = Some preparedDevices →
    pd ∈ preparedDevices →
    is_Some (allocatable !! drapbv1.DeviceName (types.Device pd))
    ∧ is_Some (types.ContainerEdits pd).

(** X4. [Prepare] and [Unprepare] keep the checkpoint well formed: when
    every device of the checkpoint is a device of the catalog and has
    container edits before the call, the same holds after it, whatever the
    call returns. *)
Theorem checkpoint_invariant (deps : state.Deps)
    (allocatable : gmap string resourceapi.Device) (w : state.World)
    (preparedClaims : gmap string types.PreparedDevices) :
  (∀ m, state.rangeApply deps m ≡ₚ map_to_list m) →
  (∀ m, state.rangeBuild deps m ≡ₚ map_to_list m) →
  state.checkpointFile w = Some preparedClaims →
  checkpointOK allocatable preparedClaims →
  (∀ claim,
     ∃ preparedClaims',
       state.checkpointFile (state.Prepare deps allocatable claim w).2
       = Some preparedClaims'
       ∧ checkpointOK allocatable preparedClaims')
  ∧ (∀ claimUID,
       ∃ preparedClaims',
         state.checkpointFile (state.Unprepare deps claimUID w).2
         = Some preparedClaims'
         ∧ checkpointOK allocatable preparedClaims').
Proof.
  intros Hrange1 Hrange2 Hfile Hok. split.
  - intros claim. unfold state.Prepare, state.GetCheckpoint. rewrite Hfile.
    destruct (decide (preparedClaims !!! resourceapi.UID claim ≠ []));
      [by exists preparedClaims|].
    destruct (state.prepareDevices deps allocatable claim)
      as [[pds|]|] eqn:Hprep; [|by exists preparedClaims..].
    destruct (state.CreateClaimSpecFile deps _ _);
      [by exists preparedClaims|].
    destruct (state.CreateCheckpoint deps _); [by exists preparedClaims|].
    eexists. split; [done|].
    intros uid pds' pd [[<- <-]|[_ Hold]]%lookup_insert_Some Hpd.
    2:{ by eapply Hok. }
    destruct (state.prepareDevices_inv deps allocatable claim pds
                Hrange1 Hrange2 Hprep)
      as (allocation & configs & m & perDevice & _ & _ & Hm & _ & Hcov
          & Hpds).
    destruct (proj1 (Hpds pd) Hpd) as (r & Hr & Heq). subst pd. simpl.
    split.
    + by eapply configmatch.assignResults_allocatable.
    + by apply Hcov.
  - intros claimUID. unfold state.Unprepare, state.GetCheckpoint.
    rewrite Hfile.
    destruct (decide (preparedClaims !!! claimUID = []));
      [by exists preparedClaims|].
    simpl. destruct (state.DeleteClaimSpecFile deps claimUID);
      [by exists preparedClaims|].
    destruct (state.CreateCheckpoint deps _); [by exists preparedClaims|].
    eexists. split; [done|].
    intros uid pds pd [_ Hold]%lookup_delete_Some Hpd. by eapply Hok.
Qed.

Lemma checkpoint_invariant_witness :
  ∃ preparedClaims',
    state.checkpointFile
      (state.Prepare demo.stateDeps demo.allocatable sample.claimAB
         sample.w0).2 = Some preparedClaims'
    ∧ checkpointOK demo.allocatable preparedClaims'.
Proof.
  refine (proj1 (checkpoint_invariant demo.stateDeps demo.allocatable
                   sample.w0 ∅ _ _ _ _) sample.claimAB).
  - reflexivity.
  - reflexivity.
  - reflexivity.
  - intros uid pds pd Hl. by rewrite lookup_empty in Hl.
Defined.




(** ** What the NRI-integrated manager prepares (src/pkg/devicestate/state.go) *)

(** What a successful [PrepareDevices] has done, for a claim reserved for a
    pod: it has built one prepared device for each result, in the order
    [results'] of the last loop. *)
Lemma PrepareDevices_Ok_inv (deps : devicestate.Deps)
    (allocatable : gmap string resourceapi.Device)
    (claim : resourceapi.ResourceClaim)
    (allocation : resourceapi.AllocationResult)
    (pod : resourceapi.ResourceClaimConsumerReference)
    (pods : list resourceapi.ResourceClaimConsumerReference)
    (t : list Event) (pds : drasriovtypes.PreparedDevices)
    (t' : list Event) :
  (∀ m, devicestate.rangeBuild deps m ≡ₚ map_to_list m) →
  resourceapi.Allocation (resourceapi.Status claim) = Some allocation →
  resourceapi.ReservedFor (resourceapi.Status claim) = pod :: pods →
  devicestate.PrepareDevices deps allocatable claim t
  = (Return (Ok pds), t') →
  ∃ perDevice results',
    results' ≡ₚ resourceapi.Results (resourceapi.Devices allocation)
    ∧ pds = devicestate.preparedDevice deps claim pod perDevice <$> results'
    ∧ pds ≠ []
    ∧ devicestate.CreateClaimSpecFile deps pds = None.
Proof.
  intros Hrange Halloc Hpods.
  unfold devicestate.PrepareDevices.
  destruct (devicestate.prepareDevices deps allocatable claim _)
    as [[[pds'|]|] t1] eqn:Hprep; [|done..].
  destruct (decide (length pds' = 0)) as [|Hlen]; [done|].
  destruct (devicestate.CreateClaimSpecFile deps pds') eqn:Hcdi; [done|].
  intros [= <- <-].
  unfold devicestate.prepareDevices in Hprep. rewrite Halloc in Hprep.
  destruct (devicestate.getOpaqueDeviceConfigs deps _) as [configs|];
    [|done].
  destruct (devicestate.getConfigResultsMap deps allocatable configs
              allocation) as [m|] eqn:Hm; [|done].
  destruct (devicestate.applyConfigs deps allocatable _ _ _ _)
    as [[[perDevice|]|] t2] eqn:Happly; [|done..].
  unfold devicestate.buildPrepared in Hprep.
  rewrite (devicestate.buildLoop_reserved _ _ _ _ _ pod pods Hpods) in Hprep.
  injection Hprep as <- <-. simpl in *.
  exists perDevice, (devicestate.rangeBuild deps m ≫= snd).
  split; [|split; [done|split; [|done]]].
  - change (devicestate.rangeBuild deps m ≫= snd)
      with (grouping.flat (devicestate.rangeBuild deps m)).
    rewrite (grouping.flat_Permutation _ _ (Hrange m)).
    unfold devicestate.getConfigResultsMap in Hm.
    apply grouping.assignResults_flat in Hm.
    + by rewrite Hm, map_to_list_empty.
    + intros r _. apply devicestate.resolve_default_dsm.
  - intros Hnil. apply Hlen. by rewrite Hnil.
Qed.

(** X6. When [PrepareDevices] succeeds for a claim reserved for a pod, it
    returns at least one prepared device, and up to their order one for each
    allocation result of the claim, with the request, pool and device of
    that result; every prepared device carries the name, namespace and UID
    of the claim, the UID and name of the first consumer the claim is
    reserved for, and the claim's namespace as the pod's namespace; and the
    CDI spec file has been created for exactly these devices. *)
Theorem PrepareDevices_devices (deps : devicestate.Deps)
    (allocatable : gmap string resourceapi.Device)
    (claim : resourceapi.ResourceClaim)
    (allocation : resourceapi.AllocationResult)
    (pod : resourceapi.ResourceClaimConsumerReference)
    (pods : list resourceapi.ResourceClaimConsumerReference)
    (t : list Event) (pds : drasriovtypes.PreparedDevices)
    (t' : list Event) :
  (∀ m, devicestate.rangeBuild deps m ≡ₚ map_to_list m) →
  resourceapi.Allocation (resourceapi.Status claim) = Some allocation →
  resourceapi.ReservedFor (resourceapi.Status claim) = pod :: pods →
  devicestate.PrepareDevices deps allocatable claim t
  = (Return (Ok pds), t') →
  pds ≠ []
  ∧ drasriovtypes.Device <$> pds
    ≡ₚ (λ r, {| drapbv1.RequestNames := [resourceapi.Request r];
                drapbv1.PoolName := resourceapi.Pool r;
                drapbv1.DeviceName := resourceapi.Device_ r;
                drapbv1.CDIDeviceIDs :=
                  devicestate.GetClaimDevices deps (resourceapi.UID claim)
                    [resourceapi.Device_ r] |})
       <$> resourceapi.Results (resourceapi.Devices allocation)
  ∧ (∀ pd, pd ∈ pds →
       drasriovtypes.ClaimNamespacedName pd
       = {| drasriovtypes.Name := resourceapi.ClaimName claim;
            drasriovtypes.Namespace := resourceapi.Namespace claim;
            drasriovtypes.UID := resourceapi.UID claim |}
       ∧ drasriovtypes.PodUID pd = resourceapi.ConsumerUID pod
       ∧ drasriovtypes.PodName pd = resourceapi.ConsumerName pod
       ∧ drasriovtypes.PodNamespace pd = resourceapi.Namespace claim)
  ∧ devicestate.CreateClaimSpecFile deps pds = None.
Proof.
  intros Hrange Halloc Hpods Hprep.
  destruct (PrepareDevices_Ok_inv _ _ _ _ _ _ _ _ _ Hrange Halloc Hpods
              Hprep) as (perDevice & results' & Hperm & -> & Hne & Hcdi).
  split; [done|]. split; [|split; [|done]].
  - rewrite <-list_fmap_compose. by rewrite Hperm.
  - by intros pd (r & -> & _)%list_elem_of_fmap.
Qed.

Lemma PrepareDevices_devices_witness :
  sample.devicesOf
    (devicestate.PrepareDevices demo.deps demo.allocatable sample.claimAB
       []).1 [] ≠ []
  ∧ drasriovtypes.Device
      <$> sample.devicesOf
            (devicestate.PrepareDevices demo.deps demo.allocatable
               sample.claimAB []).1 []
    ≡ₚ (λ r, {| drapbv1.RequestNames := [resourceapi.Request r];
                drapbv1.PoolName := resourceapi.Pool r;
                drapbv1.DeviceName := resourceapi.Device_ r;
                drapbv1.CDIDeviceIDs :=
                  devicestate.GetClaimDevices demo.deps "uid-claim-a"
                    [resourceapi.Device_ r] |})
       <$> [demo.vfResult "a" "0000-01-00-1";
            demo.vfResult "b" "0000-01-00-2"]
  ∧ (∀ pd,
       pd ∈ sample.devicesOf
              (devicestate.PrepareDevices demo.deps demo.allocatable
                 sample.claimAB []).1 [] →
       drasriovtypes.ClaimNamespacedName pd
       = {| drasriovtypes.Name := "claim-a";
            drasriovtypes.Namespace := "default";
            drasriovtypes.UID := "uid-claim-a" |}
       ∧ drasriovtypes.PodUID pd = "uid-pod-1"
       ∧ drasriovtypes.PodName pd = "pod-1"
       ∧ drasriovtypes.PodNamespace pd = "default")
  ∧ devicestate.CreateClaimSpecFile demo.deps
      (sample.devicesOf
         (devicestate.PrepareDevices demo.deps demo.allocatable
            sample.claimAB []).1 []) = None.
Proof.
  refine (PrepareDevices_devices demo.deps demo.allocatable sample.claimAB
            sample.allocationAB demo.pod1 [] [] _
            (devicestate.PrepareDevices demo.deps demo.allocatable
               sample.claimAB []).2 _ _ _ _).
  - reflexivity.
  - reflexivity.
  - reflexivity.
  - eval_refl.
Defined.

(** *** The network attachment of a prepared device *)

Module netconf.
Import resourceapi configapi devicestate.

Section netconf.
Variable deps : Deps.
Variable allocatable : gmap string Device.
Variable namespace : string.

(** What [applyConfig] records for a device under a config: the config of
    the network attachment definition the config names, looked up in the
    namespace of the claim, with the PCI address of the device added, and
    the interface name of the config. *)
Definition netFor (vfConfig : VfConfig) (device netConf ifName : string)
  : Prop :=
  ∃ deviceInfo pciAddress specConfig,
    allocatable !! device = Some deviceInfo
    ∧ Attributes deviceInfo !! AttributePciAddress deps
      = Some {| StringValue := Some pciAddress |}
    ∧ GetNetAttachDef deps (NetAttachDefName vfConfig) namespace
      = Ok specConfig
    ∧ AddDeviceIDToNetConf deps specConfig pciAddress = Ok netConf
    ∧ ifName = IfName vfConfig.

(** The three per-device maps have the same keys, and what the last two
    hold for a device satisfies [Q]. *)
Definition wired (Q : string → string → string → Prop) (p : PerDevice)
  : Prop :=
  ∀ device,
    match perDeviceEdits p !! device, perDeviceNetAttachDefs p !! device,
          perDeviceIfName p !! device with
    | Some _, Some netConf, Some ifName => Q device netConf ifName
    | None, None, None => True
    | _, _, _ => False
    end.

Lemma wired_empty Q : wired Q emptyPerDevice.
Proof. intros device. simpl. by rewrite !lookup_empty. Qed.

Lemma wired_merge Q new acc :
  wired Q new → wired Q acc → wired Q (merge new acc).
Proof.
  intros Hnew Hacc device. specialize (Hnew device).
  specialize (Hacc device). simpl. rewrite !lookup_union.
  destruct (perDeviceEdits new !! device),
    (perDeviceNetAttachDefs new !! device),
    (perDeviceIfName new !! device); try done;
    destruct (perDeviceEdits acc !! device),
      (perDeviceNetAttachDefs acc !! device),
      (perDeviceIfName acc !! device); done.
Qed.

Lemma applyConfigLoop_wired Q vfConfig results acc t p t' :
  applyConfigLoop deps allocatable namespace vfConfig results acc t
  = (Return (Ok p), t') →
  (∀ r netConf ifName,
     r ∈ results → netFor vfConfig (Device_ r) netConf ifName →
     Q (Device_ r) netConf ifName) →
  wired Q acc → wired Q p.
Proof.
  revert acc t. induction results as [|r rest IH]; intros acc t; simpl.
  - by intros [= <- <-].
  - destruct (allocatable !! Device_ r) as [deviceInfo|] eqn:Hdev; [|done].
    destruct (pciAddressOf deps deviceInfo) as [pciAddress|] eqn:Hpci;
      [|done].
    destruct (GetNetAttachDef deps _ _) as [specConfig|] eqn:Hget; [|done].
    destruct (AddDeviceIDToNetConf deps _ _) as [netConf|] eqn:Hadd;
      [|done].
    intros Hrest HQ Hacc. apply (IH _ _ Hrest).
    + intros r' ????. apply HQ; [by right|done].
    + intros device. simpl.
      destruct (decide (Device_ r = device)) as [<-|Hne].
      * rewrite !lookup_insert_eq. apply HQ; [by left|].
        exists deviceInfo, pciAddress, specConfig.
        split; [done|]. split; [by apply pciAddressOf_Some_dsm|done].
      * rewrite !lookup_insert_ne by done. apply Hacc.
Qed.

(** What the maps hold for a device comes from an entry of
    [configResultsMap] with a result that names the device, under the
    entry's config as normalized. *)
Definition netFrom
    (entries : list (RuntimeObject * list DeviceRequestAllocationResult))
    (device netConf ifName : string) : Prop :=
  ∃ c rs r config config',
    (c, rs) ∈ entries ∧ r ∈ rs ∧ Device_ r = device
    ∧ objValue c = Some config ∧ Normalize deps config = Ok config'
    ∧ netFor config' device netConf ifName.

Lemma applyConfigs_wired all entries acc t p t' :
  applyConfigs deps allocatable namespace entries acc t
  = (Return (Ok p), t') →
  (∀ entry, entry ∈ entries → entry ∈ all) →
  wired (netFrom all) acc → wired (netFrom all) p.
Proof.
  revert acc t. induction entries as [|[c rs] rest IH]; intros acc t; simpl.
  - by intros [= <- <-].
  - destruct (objValue c) as [config|] eqn:Hobj; [|done].
    destruct (Normalize deps config) as [config'|] eqn:Hnorm; [|done].
    destruct (Validate deps config'); [done|].
    destruct (applyConfig deps allocatable namespace config' rs t)
      as [[[new|]|] t1] eqn:Happly; [|done..].
    intros Hrest Hsub Hacc. apply (IH _ _ Hrest).
    + intros entry ?. apply Hsub. by right.
    + apply wired_merge; [|done].
      apply (applyConfigLoop_wired _ _ _ _ _ _ _ Happly);
        [|apply wired_empty].
      intros r netConf ifName Hr Hfor.
      exists c, rs, r, config, config'. split; [|done].
      apply Hsub. by left.
Qed.

End netconf.
End netconf.

(** X7. Every device [PrepareDevices] returns carries, as its
    [NetAttachDefConfig], the config of a network attachment definition with
    the PCI address of the device added to it, and an interface name: the
    definition is the one named by the normalized config of a result of the
    claim that names this device, looked up in the namespace of the claim;
    the interface name is the one of that config. *)
Theorem prepared_device_network (deps : devicestate.Deps)
    (allocatable : gmap string resourceapi.Device)
    (claim : resourceapi.ResourceClaim)
    (allocation : resourceapi.AllocationResult) (t : list Event)
    (pds : drasriovtypes.PreparedDevices) (t' : list Event)
    (pd : drasriovtypes.PreparedDevice) :
  (∀ m, devicestate.rangeApply deps m ≡ₚ map_to_list m) →
  (∀ m, devicestate.rangeBuild deps m ≡ₚ map_to_list m) →
  resourceapi.Allocation (resourceapi.Status claim) = Some allocation →
  devicestate.PrepareDevices deps allocatable claim t
  = (Return (Ok pds), t') →
  pd ∈ pds →
  ∃ configs r c config config' deviceInfo pciAddress specConfig,
    devicestate.getOpaqueDeviceConfigs deps
      (resourceapi.Config (resourceapi.Devices allocation)) = Ok configs
    ∧ r ∈ resourceapi.Results (resourceapi.Devices allocation)
    ∧ resourceapi.Device_ r = drapbv1.DeviceName (drasriovtypes.Device pd)
    ∧ configmatch.resolve (devicestate.defaultConfig deps :: configs)
        (resourceapi.Request r) = Some c
    ∧ configapi.objValue c = Some config
    ∧ devicestate.Normalize deps config = Ok config'
    ∧ allocatable !! drapbv1.DeviceName (drasriovtypes.Device pd)
      = Some deviceInfo
    ∧ resourceapi.Attributes deviceInfo
        !! devicestate.AttributePciAddress deps
      = Some {| resourceapi.StringValue := Some pciAddress |}
    ∧ devicestate.GetNetAttachDef deps (configapi.NetAttachDefName config')
        (resourceapi.Namespace claim) = Ok specConfig
    ∧ devicestate.AddDeviceIDToNetConf deps specConfig pciAddress
      = Ok (drasriovtypes.NetAttachDefConfig pd)
    ∧ drasriovtypes.IfName pd = configapi.IfName config'.
Proof.
  intros Hrange1 Hrange2 Halloc. unfold devicestate.PrepareDevices.
  destruct (devicestate.prepareDevices deps allocatable claim _)
    as [[[pds'|]|] t1] eqn:Hprep; [|done..].
  destruct (decide (length pds' = 0)); [done|].
  destruct (devicestate.CreateClaimSpecFile deps pds'); [done|].
  intros [= <- <-] Hpd.
  destruct (devicestate.prepareDevices_inv_dsm _ _ _ _ _ _ Hrange1 Hrange2
              Hprep)
    as (allocation' & configs & m & perDevice' & Halloc' & Hcfg & Hm & _
        & _ & _).
  rewrite Halloc in Halloc'. injection Halloc' as <-.
  unfold devicestate.prepareDevices in Hprep.
  rewrite Halloc, Hcfg, Hm in Hprep.
  destruct (devicestate.applyConfigs deps allocatable _ _ _ _)
    as [[[perDevice|]|] t2] eqn:Happly; [|done..].
  pose proof (devicestate.applyConfigs_ok_dsm deps allocatable _
                (map_to_list m) _ _ _ _ _ Happly) as (_ & Hcov & _).
  { intros entry. by rewrite Hrange1. }
  { intros ??. simpl. by rewrite lookup_empty. }
  assert (netconf.wired
            (netconf.netFrom deps allocatable (resourceapi.Namespace claim)
               (map_to_list m)) perDevice) as Hwired.
  { eapply netconf.applyConfigs_wired;
      [exact Happly| |apply netconf.wired_empty].
    intros entry. by rewrite Hrange1. }
  unfold devicestate.buildPrepared in Hprep.
  destruct (resourceapi.ReservedFor (resourceapi.Status claim))
    as [|pod pods] eqn:Hpods.
  { destruct (devicestate.rangeBuild deps m ≫= snd) as [|r rest] eqn:Hflat.
    - simpl in Hprep. injection Hprep as <- _. by apply elem_of_nil in Hpd.
    - by rewrite devicestate.buildLoop_unreserved in Hprep. }
  rewrite (devicestate.buildLoop_reserved _ _ _ _ _ pod pods Hpods) in Hprep.
  injection Hprep as <- _. simpl in Hpd.
  apply list_elem_of_fmap in Hpd as (r & -> & Hr). simpl.
  apply list_elem_of_bind in Hr as ([c rs] & Hr & Hin). simpl in Hr.
  destruct (Hcov c rs r) as [edits Hedits]; [by rewrite Hrange1, <-Hrange2|done|].
  specialize (Hwired (resourceapi.Device_ r)). rewrite Hedits in Hwired.
  rewrite !lookup_total_alt.
  destruct (devicestate.perDeviceNetAttachDefs perDevice
              !! resourceapi.Device_ r) as [netConf|]; [|done].
  destruct (devicestate.perDeviceIfName perDevice !! resourceapi.Device_ r)
    as [ifName|]; [|done].
  destruct Hwired as (c' & rs' & r' & config & config' & Hin' & Hr' & Hd
                      & Hobj & Hnorm & deviceInfo & pciAddress & specConfig
                      & Hdev & Hattr & Hget & Hadd & ->).
  apply elem_of_map_to_list in Hin'.
  destruct (configmatch.assignResults_entry_member _ _ _ _ _ _ _ _ Hm Hin'
              Hr') as [Hres' Hc].
  exists configs, r', c', config, config', deviceInfo, pciAddress,
    specConfig. simpl. rewrite Hd. done.
Qed.

Module samplenet.

Definition preparedA : drasriovtypes.PreparedDevices :=
  sample.devicesOf
    (devicestate.PrepareDevices demo.deps demo.allocatable sample.claimA
       []).1 [].

Definition deviceA : drasriovtypes.PreparedDevice :=
  default nri.demoDevice (head preparedA).

End samplenet.

Lemma prepared_device_network_witness :
  ∃ configs r c config config' deviceInfo pciAddress specConfig,
    devicestate.getOpaqueDeviceConfigs demo.deps [demo.net1For ["a"]]
    = Ok configs
    ∧ r ∈ [demo.vfResult "a" "0000-01-00-1"]
    ∧ resourceapi.Device_ r
      = drapbv1.DeviceName (drasriovtypes.Device samplenet.deviceA)
    ∧ configmatch.resolve (devicestate.defaultConfig demo.deps :: configs)
        (resourceapi.Request r) = Some c
    ∧ configapi.objValue c = Some config
    ∧ devicestate.Normalize demo.deps config = Ok config'
    ∧ demo.allocatable
        !! drapbv1.DeviceName (drasriovtypes.Device samplenet.deviceA)
      = Some deviceInfo
    ∧ resourceapi.Attributes deviceInfo
        !! devicestate.AttributePciAddress demo.deps
      = Some {| resourceapi.StringValue := Some pciAddress |}
    ∧ devicestate.GetNetAttachDef demo.deps
        (configapi.NetAttachDefName config') "default" = Ok specConfig
    ∧ devicestate.AddDeviceIDToNetConf demo.deps specConfig pciAddress
      = Ok (drasriovtypes.NetAttachDefConfig samplenet.deviceA)
    ∧ drasriovtypes.IfName samplenet.deviceA = configapi.IfName config'.
Proof.
  refine (prepared_device_network demo.deps demo.allocatable sample.claimA
            {| resourceapi.Devices :=
                 {| resourceapi.Results := [demo.vfResult "a" "0000-01-00-1"];
                    resourceapi.Config := [demo.net1For ["a"]] |} |}
            [] samplenet.preparedA
            (devicestate.PrepareDevices demo.deps demo.allocatable
               sample.claimA []).2
            samplenet.deviceA _ _ _ _ _).
  - reflexivity.
  - reflexivity.
  - reflexivity.
  - eval_refl.
  - vm_compute. left.
Defined.

(** *** The lookups of a call *)

Module lookups.
Import resourceapi configapi devicestate.

Section lookups.
Variable deps : Deps.
Variable allocatable : gmap string Device.
Variable namespace : string.

(** A lookup of a network attachment definition in [namespace]. *)
Definition isLookup (e : Event) : Prop :=
  ∃ name, e = EvGetNetAttachDef name namespace.

Lemma applyConfigLoop_trace vfConfig results acc t r t' :
  applyConfigLoop deps allocatable namespace vfConfig results acc t
  = (r, t') →
  ∃ lookups,
    t' = t ++ lookups ∧ Forall isLookup lookups
    ∧ length lookups ≤ length results
    ∧ (∀ p, r = Return (Ok p) → length lookups = length results).
Proof.
  revert acc t. induction results as [|x rest IH]; intros acc t; simpl.
  - intros [= <- <-]. exists []. by rewrite app_nil_r.
  - destruct (allocatable !! Device_ x) as [deviceInfo|].
    2:{ intros [= <- <-]. exists []. rewrite app_nil_r.
        repeat split; [done|simpl; lia|done]. }
    destruct (pciAddressOf deps deviceInfo) as [pciAddress|].
    2:{ intros [= <- <-]. exists []. rewrite app_nil_r.
        repeat split; [done|simpl; lia|done]. }
    set (e := EvGetNetAttachDef (NetAttachDefName vfConfig) namespace).
    assert (isLookup e) as He by by eexists.
    destruct (GetNetAttachDef deps _ _) as [specConfig|].
    2:{ intros [= <- <-]. exists [e].
        repeat split; [by apply Forall_singleton|simpl; lia|done]. }
    destruct (AddDeviceIDToNetConf deps _ _) as [netConf|].
    2:{ intros [= <- <-]. exists [e].
        repeat split; [by apply Forall_singleton|simpl; lia|done]. }
    intros (lookups & -> & Hall & Hle & Heq)%IH. exists (e :: lookups).
    rewrite <-app_assoc. split; [done|]. split; [by constructor|].
    simpl. split; [lia|]. intros p Hp. by rewrite (Heq p Hp).
Qed.

Lemma applyConfigs_trace entries acc t r t' :
  applyConfigs deps allocatable namespace entries acc t = (r, t') →
  ∃ lookups,
    t' = t ++ lookups ∧ Forall isLookup lookups
    ∧ length lookups ≤ length (grouping.flat entries)
    ∧ (∀ p, r = Return (Ok p) →
         length lookups = length (grouping.flat entries)).
Proof.
  unfold grouping.flat.
  revert acc t. induction entries as [|[c rs] rest IH]; intros acc t.
  - simpl. intros [= <- <-]. exists []. by rewrite app_nil_r.
  - rewrite bind_cons, length_app. simpl.
    assert (∀ r0,
              (∀ p, r0 ≠ Return (Ok p)) → (r0, t) = (r, t') →
              ∃ lookups,
                t' = t ++ lookups ∧ Forall isLookup lookups
                ∧ length lookups ≤ length rs + length (rest ≫= snd)
                ∧ (∀ p, r = Return (Ok p) →
                     length lookups
                     = length rs + length (rest ≫= snd))) as Hstop.
    { intros r0 Hr0 [= <- <-]. exists []. rewrite app_nil_r.
      split; [done|]. split; [done|]. split; [simpl; lia|].
      intros p Hp. by destruct (Hr0 p). }
    destruct (objValue c) as [config|]; [|by apply Hstop].
    destruct (Normalize deps config) as [config'|]; [|by apply Hstop].
    destruct (Validate deps config'); [by apply Hstop|].
    destruct (applyConfig deps allocatable namespace config' rs t)
      as [[[new|e]|msg] t1] eqn:Happly;
      apply applyConfigLoop_trace in Happly
        as (lookups1 & -> & Hall1 & Hle1 & Heq1).
    + intros (lookups & -> & Hall & Hle & Heq)%IH.
      exists (lookups1 ++ lookups). rewrite <-app_assoc.
      split; [done|]. split; [by apply Forall_app|].
      rewrite length_app, (Heq1 new eq_refl). split; [lia|].
      intros p Hp. by rewrite (Heq p Hp).
    + intros [= <- <-]. exists lookups1. repeat split; [done|lia|done].
    + intros [= <- <-]. exists lookups1. repeat split; [done|lia|done].
Qed.

End lookups.
End lookups.

(** X8. Whatever [PrepareDevices] returns for an allocated claim, it has
    looked up network attachment definitions in the namespace of the claim
    only, at most once per allocation result, and has then created the CDI
    spec file of the claim at most once; when it returns prepared devices it
    has made exactly one lookup per allocation result and created the CDI
    spec file for the devices it returns. *)
Theorem PrepareDevices_trace (deps : devicestate.Deps)
    (allocatable : gmap string resourceapi.Device)
    (claim : resourceapi.ResourceClaim)
    (allocation : resourceapi.AllocationResult) (t : list Event) :
  (∀ m, devicestate.rangeApply deps m ≡ₚ map_to_list m) →
  resourceapi.Allocation (resourceapi.Status claim) = Some allocation →
  ∃ lookups written,
    (devicestate.PrepareDevices deps allocatable claim t).2
    = t ++ [EvPrepareDevices (resourceapi.UID claim)] ++ lookups ++ written
    ∧ Forall (lookups.isLookup (resourceapi.Namespace claim)) lookups
    ∧ length lookups
      ≤ length (resourceapi.Results (resourceapi.Devices allocation))
    ∧ (written = []
       ∨ ∃ names,
           written = [EvCreateClaimSpecFile (resourceapi.UID claim) names])
    ∧ (∀ pds,
         (devicestate.PrepareDevices deps allocatable claim t).1
         = Return (Ok pds) →
         length lookups
         = length (resourceapi.Results (resourceapi.Devices allocation))
         ∧ written
           = [EvCreateClaimSpecFile (resourceapi.UID claim)
                ((drapbv1.DeviceName ∘ drasriovtypes.Device) <$> pds)]).
Proof.
  intros Hrange Halloc.
  unfold devicestate.PrepareDevices, devicestate.prepareDevices.
  rewrite Halloc.
  assert (∀ (r : outcome drasriovtypes.PreparedDevices),
            (∀ pds, r ≠ Return (Ok pds)) →
            ∃ lookups written,
              t ++ [EvPrepareDevices (resourceapi.UID claim)]
              = t ++ [EvPrepareDevices (resourceapi.UID claim)] ++ lookups
                  ++ written
              ∧ Forall (lookups.isLookup (resourceapi.Namespace claim))
                  lookups
              ∧ length lookups
                ≤ length (resourceapi.Results
                            (resourceapi.Devices allocation))
              ∧ (written = []
                 ∨ ∃ names,
                     written = [EvCreateClaimSpecFile
                                  (resourceapi.UID claim) names])
              ∧ (∀ pds, r = Return (Ok pds) →
                   length lookups
                   = length (resourceapi.Results
                               (resourceapi.Devices allocation))
                   ∧ written
                     = [EvCreateClaimSpecFile (resourceapi.UID claim)
                          ((drapbv1.DeviceName ∘ drasriovtypes.Device)
                             <$> pds)])) as Hstop.
  { intros r Hr. exists [], []. split; [done|]. split; [done|].
    split; [simpl; lia|]. split; [by left|].
    intros pds Hp. by destruct (Hr pds). }
  destruct (devicestate.getOpaqueDeviceConfigs deps _) as [configs|].
  2:{ by apply Hstop. }
  destruct (devicestate.getConfigResultsMap deps allocatable configs
              allocation) as [m|] eqn:Hm.
  2:{ by apply Hstop. }
  assert (length (grouping.flat (devicestate.rangeApply deps m))
          = length (resourceapi.Results (resourceapi.Devices allocation)))
    as Hlen.
  { rewrite (grouping.flat_Permutation _ _ (Hrange m)).
    unfold devicestate.getConfigResultsMap in Hm.
    apply grouping.assignResults_flat in Hm.
    - by rewrite Hm, map_to_list_empty.
    - intros r _. apply devicestate.resolve_default_dsm. }
  destruct (devicestate.applyConfigs deps allocatable _ _ _ _)
    as [r t1] eqn:Happly.
  apply lookups.applyConfigs_trace in Happly
    as (lookups & -> & Hall & Hle & Heq).
  rewrite Hlen in Hle, Heq.
  assert (∀ (r' : outcome drasriovtypes.PreparedDevices),
            (∀ pds, r' ≠ Return (Ok pds)) →
            ∃ lookups0 written,
              (t ++ [EvPrepareDevices (resourceapi.UID claim)]) ++ lookups
              = t ++ [EvPrepareDevices (resourceapi.UID claim)] ++ lookups0
                  ++ written
              ∧ Forall (lookups.isLookup (resourceapi.Namespace claim))
                  lookups0
              ∧ length lookups0
                ≤ length (resourceapi.Results
                            (resourceapi.Devices allocation))
              ∧ (written = []
                 ∨ ∃ names,
                     written = [EvCreateClaimSpecFile
                                  (resourceapi.UID claim) names])
              ∧ (∀ pds, r' = Return (Ok pds) →
                   length lookups0
                   = length (resourceapi.Results
                               (resourceapi.Devices allocation))
                   ∧ written
                     = [EvCreateClaimSpecFile (resourceapi.UID claim)
                          ((drapbv1.DeviceName ∘ drasriovtypes.Device)
                             <$> pds)])) as Hstop'.
  { intros r' Hr. exists lookups, []. rewrite app_nil_r, <-app_assoc.
    split; [done|]. split; [done|]. split; [done|]. split; [by left|].
    intros pds Hp. by destruct (Hr pds). }
  destruct r as [[perDevice|e]|msg]; [|by apply Hstop'..].
  destruct (devicestate.buildPrepared deps claim perDevice _)
    as [[pds|e]|msg]; [|by apply Hstop'..].
  destruct (decide (length pds = 0)); [by apply Hstop'|].
  destruct (devicestate.CreateClaimSpecFile deps pds).
  - simpl. eexists lookups, [_]. rewrite <-!app_assoc.
    split; [done|]. split; [done|]. split; [done|]. split; [by eauto|].
    done.
  - simpl. eexists lookups, [_]. rewrite <-!app_assoc.
    split; [done|]. split; [done|]. split; [done|]. split; [by eauto|].
    intros pds' [= <-]. split; [by apply (Heq perDevice)|done].
Qed.

Lemma PrepareDevices_trace_witness :
  ∃ lookups written,
    (devicestate.PrepareDevices demo.deps demo.allocatable sample.claimAB
       []).2
    = [] ++ [EvPrepareDevices "uid-claim-a"] ++ lookups ++ written
    ∧ Forall (lookups.isLookup "default") lookups
    ∧ length lookups ≤ 2
    ∧ (written = []
       ∨ ∃ names, written = [EvCreateClaimSpecFile "uid-claim-a" names])
    ∧ (∀ pds,
         (devicestate.PrepareDevices demo.deps demo.allocatable
            sample.claimAB []).1 = Return (Ok pds) →
         length lookups = 2
         ∧ written
           = [EvCreateClaimSpecFile "uid-claim-a"
                ((drapbv1.DeviceName ∘ drasriovtypes.Device) <$> pds)]).
Proof.
  refine (PrepareDevices_trace demo.deps demo.allocatable sample.claimAB
            sample.allocationAB [] _ _).
  - reflexivity.
  - reflexivity.
Defined.

(** ** The hooks of the pod-manager path (src/pkg/driver/dra_hook.go) *)

(** X9. A claim reserved for one pod and not yet recorded for it in the pod
    manager, prepared with success: [prepareResourceClaim] returns at least
    one device and, up to their order, one device for each allocation
    result of the claim, with the request, pool and device of that result;
    and it has handed to the pod manager, under the UID of the pod and the
    UID of the claim, prepared devices that carry the UID of the pod and
    are the ones it returns. *)
Theorem prepareResourceClaim_new_claim {PM : Type}
    (pmOps : podmanager.Ops PM) (deps : devicestate.Deps)
    (allocatable : gmap string resourceapi.Device)
    (claim : resourceapi.ResourceClaim)
    (allocation : resourceapi.AllocationResult)
    (pod : resourceapi.ResourceClaimConsumerReference)
    (w : dra_hook.World PM) (stale : drasriovtypes.PreparedDevices)
    (devices : list kubeletplugin.Device) (w' : dra_hook.World PM) :
  (∀ m, devicestate.rangeBuild deps m ≡ₚ map_to_list m) →
  resourceapi.Allocation (resourceapi.Status claim) = Some allocation →
  resourceapi.ReservedFor (resourceapi.Status claim) = [pod] →
  podmanager.Get pmOps (dra_hook.podManager w)
    (resourceapi.ConsumerUID pod) (resourceapi.UID claim) = (stale, false) →
  dra_hook.prepareResourceClaim pmOps deps allocatable claim w
  = (Return (Ok devices), w') →
  devices ≠ []
  ∧ devices
    ≡ₚ (λ r, {| kubeletplugin.Requests := [resourceapi.Request r];
                kubeletplugin.PoolName := resourceapi.Pool r;
                kubeletplugin.DeviceName := resourceapi.Device_ r;
                kubeletplugin.CDIDeviceIDs :=
                  devicestate.GetClaimDevices deps (resourceapi.UID claim)
                    [resourceapi.Device_ r] |})
       <$> resourceapi.Results (resourceapi.Devices allocation)
  ∧ ∃ preparedDevices,
      podmanager.Set_ pmOps (dra_hook.podManager w)
        (resourceapi.ConsumerUID pod) (resourceapi.UID claim)
        preparedDevices = (None, dra_hook.podManager w')
      ∧ dra_hook.toDevices preparedDevices = devices
      ∧ ∀ pd, pd ∈ preparedDevices →
              drasriovtypes.PodUID pd = resourceapi.ConsumerUID pod.
Proof.
  intros Hrange Halloc Hpods Hget. unfold dra_hook.prepareResourceClaim.
  rewrite Hpods, Hget.
  destruct (devicestate.PrepareDevices deps allocatable claim _)
    as [[[pds|]|] t1] eqn:Hprep; [|done..].
  destruct (podmanager.Set_ pmOps _ _ _ _) as [[e|] pm'] eqn:Hset; [done|].
  intros [= <- <-]. simpl.
  destruct (PrepareDevices_Ok_inv _ _ _ _ _ _ _ _ _ Hrange Halloc Hpods
              Hprep) as (perDevice & results' & Hperm & -> & Hne & Hcdi).
  split; [|split].
  - unfold dra_hook.toDevices. intros Hnil%fmap_nil_inv. done.
  - unfold dra_hook.toDevices. rewrite <-list_fmap_compose.
    by rewrite Hperm.
  - eexists. split; [exact Hset|]. split; [done|].
    by intros pd (r & -> & _)%list_elem_of_fmap.
Qed.

Lemma prepareResourceClaim_new_claim_witness :
  sample.devicesOf
    (dra_hook.prepareResourceClaim podmanager.indexOps demo.deps
       demo.allocatable sample.claimAB
       {| dra_hook.podManager := (∅ : podmanager.Index);
          dra_hook.dsmTrace := [] |}).1 []
  ≡ₚ (λ r, {| kubeletplugin.Requests := [resourceapi.Request r];
              kubeletplugin.PoolName := resourceapi.Pool r;
              kubeletplugin.DeviceName := resourceapi.Device_ r;
              kubeletplugin.CDIDeviceIDs :=
                devicestate.GetClaimDevices demo.deps "uid-claim-a"
                  [resourceapi.Device_ r] |})
     <$> [demo.vfResult "a" "0000-01-00-1";
          demo.vfResult "b" "0000-01-00-2"].
Proof.
  refine (proj1 (proj2 (prepareResourceClaim_new_claim podmanager.indexOps
                          demo.deps demo.allocatable sample.claimAB
                          sample.allocationAB demo.pod1
                          {| dra_hook.podManager := (∅ : podmanager.Index);
                             dra_hook.dsmTrace := [] |} []
                          _
                          (dra_hook.prepareResourceClaim podmanager.indexOps
                             demo.deps demo.allocatable sample.claimAB
                             {| dra_hook.podManager := (∅ : podmanager.Index);
                                dra_hook.dsmTrace := [] |}).2 _ _ _ _ _))).
  - reflexivity.
  - reflexivity.
  - reflexivity.
  - reflexivity.
  - eval_refl.
Defined.

(** *** Batches *)

Module batches.
Section batches.
Context {PM : Type}.
Variable pmOps : podmanager.Ops PM.
Variable deps : devicestate.Deps.
Variable allocatable : gmap string resourceapi.Device.

(** The loop over the claims, started with results already there: the new
    results are put over them. *)
Lemma prepareLoop_acc claims acc (w : dra_hook.World PM) :
  dra_hook.prepareLoop pmOps deps allocatable claims acc w
  = match dra_hook.prepareLoop pmOps deps allocatable claims ∅ w with
    | (Return (Ok prepared), w') => (Return (Ok (prepared ∪ acc)), w')
    | other => other
    end.
Proof.
  revert acc w. induction claims as [|claim rest IH]; intros acc w; simpl.
  - by rewrite (left_id ∅ _).
  - destruct (dra_hook.prepareResourceClaim pmOps deps allocatable claim w)
      as [[r|msg] w1]; [|done].
    rewrite (IH (<[_ := _]> acc)), (IH (<[_ := _]> ∅)).
    destruct (dra_hook.prepareLoop pmOps deps allocatable rest ∅ w1)
      as [[[prepared|e]|msg] w2]; [|done..].
    by rewrite insert_empty, <-(assoc_L (∪)), <-insert_union_singleton_l.
Qed.

Lemma prepareLoop_app claims1 claims2 acc (w : dra_hook.World PM) :
  dra_hook.prepareLoop pmOps deps allocatable (claims1 ++ claims2) acc w
  = match dra_hook.prepareLoop pmOps deps allocatable claims1 acc w with
    | (Return (Ok prepared), w') =>
        dra_hook.prepareLoop pmOps deps allocatable claims2 prepared w'
    | other => other
    end.
Proof.
  revert acc w. induction claims1 as [|claim rest IH]; intros acc w; simpl.
  - done.
  - destruct (dra_hook.prepareResourceClaim pmOps deps allocatable claim w)
      as [[r|msg] w1]; [|done].
    apply IH.
Qed.

Lemma PrepareResourceClaims_loop claims (w : dra_hook.World PM) :
  dra_hook.PrepareResourceClaims pmOps deps allocatable claims w
  = dra_hook.prepareLoop pmOps deps allocatable claims ∅ w.
Proof.
  unfold dra_hook.PrepareResourceClaims.
  destruct (decide (length claims = 0)) as [Hlen|]; [|done].
  by apply nil_length_inv in Hlen as ->.
Qed.

Lemma unprepareLoop_acc claims acc (w : dra_hook.World PM) :
  dra_hook.unprepareLoop pmOps deps claims acc w
  = ((dra_hook.unprepareLoop pmOps deps claims ∅ w).1 ∪ acc,
     (dra_hook.unprepareLoop pmOps deps claims ∅ w).2).
Proof.
  revert acc w. induction claims as [|claim rest IH]; intros acc w; simpl.
  - by rewrite (left_id ∅ _).
  - destruct (dra_hook.unprepareResourceClaim pmOps deps claim w)
      as [e w1].
    rewrite (IH (<[_ := _]> acc)), (IH (<[_ := _]> ∅)). simpl.
    by rewrite insert_empty, <-(assoc_L (∪)), <-insert_union_singleton_l.
Qed.

Lemma unprepareLoop_app claims1 claims2 acc (w : dra_hook.World PM) :
  dra_hook.unprepareLoop pmOps deps (claims1 ++ claims2) acc w
  = dra_hook.unprepareLoop pmOps deps claims2
      (dra_hook.unprepareLoop pmOps deps claims1 acc w).1
      (dra_hook.unprepareLoop pmOps deps claims1 acc w).2.
Proof.
  revert acc w. induction claims1 as [|claim rest IH]; intros acc w; simpl.
  - done.
  - destruct (dra_hook.unprepareResourceClaim pmOps deps claim w)
      as [e w1]. apply IH.
Qed.

End batches.
End batches.

(** X10. A batch is its claims one after the other. [PrepareResourceClaims]
    of one claim returns that claim's result under its UID. Of two lists of
    claims in a row it returns what it returns for the second list, started
    where the first list left the driver, put over what it returns for the
    first (an entry of the second list replaces one with the same UID); a
    panic in the first list is the outcome of the whole. The same holds of
    [UnprepareResourceClaims], which cannot panic. *)
Theorem batch_is_sequence {PM : Type} (pmOps : podmanager.Ops PM)
    (deps : devicestate.Deps)
    (allocatable : gmap string resourceapi.Device) :
  (∀ claim (w : dra_hook.World PM) r w',
     dra_hook.prepareResourceClaim pmOps deps allocatable claim w
     = (Return r, w') →
     dra_hook.PrepareResourceClaims pmOps deps allocatable [claim] w
     = (Return (Ok {[ resourceapi.UID claim := r ]}), w'))
  ∧ (∀ claims1 claims2 (w : dra_hook.World PM) prepared1 w1,
       dra_hook.PrepareResourceClaims pmOps deps allocatable claims1 w
       = (Return (Ok prepared1), w1) →
       dra_hook.PrepareResourceClaims pmOps deps allocatable
         (claims1 ++ claims2) w
       = match dra_hook.PrepareResourceClaims pmOps deps allocatable
                 claims2 w1 with
         | (Return (Ok prepared2), w2) =>
             (Return (Ok (prepared2 ∪ prepared1)), w2)
         | other => other
         end)
  ∧ (∀ claims1 claims2 (w : dra_hook.World PM) msg w1,
       dra_hook.PrepareResourceClaims pmOps deps allocatable claims1 w
       = (Panic msg, w1) →
       dra_hook.PrepareResourceClaims pmOps deps allocatable
         (claims1 ++ claims2) w
       = (Panic msg, w1))
  ∧ (∀ claim (w : dra_hook.World PM),
       dra_hook.UnprepareResourceClaims pmOps deps [claim] w
       = ({[ drasriovtypes.UID claim :=
               (dra_hook.unprepareResourceClaim pmOps deps claim w).1 ]},
          (dra_hook.unprepareResourceClaim pmOps deps claim w).2))
  ∧ (∀ claims1 claims2 (w : dra_hook.World PM),
       dra_hook.UnprepareResourceClaims pmOps deps (claims1 ++ claims2) w
       = ((dra_hook.UnprepareResourceClaims pmOps deps claims2
             (dra_hook.UnprepareResourceClaims pmOps deps claims1 w).2).1
          ∪ (dra_hook.UnprepareResourceClaims pmOps deps claims1 w).1,
          (dra_hook.UnprepareResourceClaims pmOps deps claims2
             (dra_hook.UnprepareResourceClaims pmOps deps claims1 w).2).2)).
Proof.
  split; [|split; [|split; [|split]]].
  - intros claim w r w' Hone.
    rewrite batches.PrepareResourceClaims_loop. simpl.
    by rewrite Hone, insert_empty.
  - intros claims1 claims2 w prepared1 w1.
    rewrite !batches.PrepareResourceClaims_loop, batches.prepareLoop_app.
    intros ->. by rewrite batches.prepareLoop_acc.
  - intros claims1 claims2 w msg w1.
    rewrite !batches.PrepareResourceClaims_loop, batches.prepareLoop_app.
    by intros ->.
  - intros claim w. unfold dra_hook.UnprepareResourceClaims. simpl.
    destruct (dra_hook.unprepareResourceClaim pmOps deps claim w)
      as [e w1]. by rewrite insert_empty.
  - intros claims1 claims2 w. unfold dra_hook.UnprepareResourceClaims.
    by rewrite batches.unprepareLoop_app, batches.unprepareLoop_acc.
Qed.

(** X11. The hooks change the pod manager through [Set] and [DeleteClaim]
    only, and only once the device state manager has done its part:
    [prepareResourceClaim] leaves the pod manager as it is unless
    [PrepareDevices] has returned prepared devices, which it then hands to
    [Set]; [unprepareResourceClaim] leaves it as it is unless the CDI spec
    file of the claim has been deleted, and then calls [DeleteClaim]. So a
    claim whose spec file could not be deleted stays recorded. *)
Theorem pod_manager_changes {PM : Type} (pmOps : podmanager.Ops PM)
    (deps : devicestate.Deps)
    (allocatable : gmap string resourceapi.Device) :
  (∀ claim (w : dra_hook.World PM),
     dra_hook.podManager
       (dra_hook.prepareResourceClaim pmOps deps allocatable claim w).2
     = dra_hook.podManager w
     ∨ ∃ pod preparedDevices t,
         resourceapi.ReservedFor (resourceapi.Status claim) = [pod]
         ∧ devicestate.PrepareDevices deps allocatable claim
             (dra_hook.dsmTrace w) = (Return (Ok preparedDevices), t)
         ∧ dra_hook.podManager
             (dra_hook.prepareResourceClaim pmOps deps allocatable claim
                w).2
           = (podmanager.Set_ pmOps (dra_hook.podManager w)
                (resourceapi.ConsumerUID pod) (resourceapi.UID claim)
                preparedDevices).2)
  ∧ (∀ claim (w : dra_hook.World PM),
       dra_hook.podManager
         (dra_hook.unprepareResourceClaim pmOps deps claim w).2
       = dra_hook.podManager w
       ∨ (devicestate.DeleteClaimSpecFile deps (drasriovtypes.UID claim)
          = None
          ∧ dra_hook.dsmTrace
              (dra_hook.unprepareResourceClaim pmOps deps claim w).2
            = dra_hook.dsmTrace w
              ++ [EvUnprepare (drasriovtypes.UID claim);
                  EvDeleteClaimSpecFile (drasriovtypes.UID claim)]
          ∧ dra_hook.podManager
              (dra_hook.unprepareResourceClaim pmOps deps claim w).2
            = (podmanager.DeleteClaim pmOps (dra_hook.podManager w)
                 claim).2)).
Proof.
  split.
  - intros claim w. unfold dra_hook.prepareResourceClaim.
    destruct (resourceapi.ReservedFor (resourceapi.Status claim))
      as [|pod [|pod' pods]]; [by left| |by left].
    destruct (podmanager.Get pmOps _ _ _) as [stale [|]]; [by left|].
    destruct (devicestate.PrepareDevices deps allocatable claim _)
      as [[[pds|]|] t] eqn:Hprep; [|by left..].
    right. exists pod, pds, t. split; [done|]. split; [done|].
    by destruct (podmanager.Set_ pmOps _ _ _ _) as [[e|] pm'].
  - intros claim w. unfold dra_hook.unprepareResourceClaim.
    destruct (podmanager.GetByClaim pmOps _ _) as [pds [|]]; [|by left].
    unfold devicestate.Unprepare. simpl.
    destruct (devicestate.DeleteClaimSpecFile deps _); [by left|].
    right. split; [done|].
    destruct (podmanager.DeleteClaim pmOps _ _) as [[e|] pm'];
      by rewrite <-app_assoc.
Qed.

(** ** The sandbox hooks, device by device (src/pkg/nri/nri.go) *)

Module sandbox.
Section sandbox.
Variable cniRuntime : nri.CniRuntime.
Variable networkNamespace : string.
Variable pod : nri.PodSandbox.

Definition attachEvent (device : drasriovtypes.PreparedDevice) : Event :=
  EvAttachNetwork (nri.deviceNameOf device) networkNamespace (nri.Id pod).

Definition detachEvent (device : drasriovtypes.PreparedDevice) : Event :=
  EvDetachNetwork (nri.deviceNameOf device) networkNamespace (nri.Id pod).

Lemma attachLoop_all devices t :
  (∀ device, device ∈ devices →
     nri.AttachNetwork cniRuntime
       (nri.withSandbox device networkNamespace pod) = None) →
  nri.attachLoop cniRuntime devices networkNamespace pod t
  = (None, t ++ (attachEvent <$> devices)).
Proof.
  revert t. induction devices as [|device rest IH]; intros t Hall; simpl.
  - by rewrite app_nil_r.
  - rewrite Hall by by left. rewrite IH, <-app_assoc; [done|].
    intros d ?. apply Hall. by right.
Qed.

Lemma attachLoop_stops pre device post e t :
  (∀ d, d ∈ pre →
     nri.AttachNetwork cniRuntime (nri.withSandbox d networkNamespace pod)
     = None) →
  nri.AttachNetwork cniRuntime
    (nri.withSandbox device networkNamespace pod) = Some e →
  nri.attachLoop cniRuntime (pre ++ device :: post) networkNamespace pod t
  = (Some ("failed to attach network: " +:+ e),
     t ++ (attachEvent <$> pre) ++ [attachEvent device]).
Proof.
  revert t. induction pre as [|d pre IH]; intros t Hpre He; simpl.
  - by rewrite He.
  - rewrite Hpre by by left. rewrite IH, <-app_assoc; [done| |done].
    intros d' ?. apply Hpre. by right.
Qed.

Lemma detachLoop_all devices t :
  (∀ device, device ∈ devices →
     nri.DetachNetwork cniRuntime
       (nri.withSandbox device networkNamespace pod) = None) →
  nri.detachLoop cniRuntime devices networkNamespace pod t
  = (None, t ++ (detachEvent <$> devices)).
Proof.
  revert t. induction devices as [|device rest IH]; intros t Hall; simpl.
  - by rewrite app_nil_r.
  - rewrite Hall by by left. rewrite IH, <-app_assoc; [done|].
    intros d ?. apply Hall. by right.
Qed.

Lemma detachLoop_stops pre device post e t :
  (∀ d, d ∈ pre →
     nri.DetachNetwork cniRuntime (nri.withSandbox d networkNamespace pod)
     = None) →
  nri.DetachNetwork cniRuntime
    (nri.withSandbox device networkNamespace pod) = Some e →
  nri.detachLoop cniRuntime (pre ++ device :: post) networkNamespace pod t
  = (Some ("error CNI.DetachNetwork for pod '" +:+ nri.Name pod
           +:+ "' (uid: " +:+ nri.Uid pod +:+ ") in namespace '"
           +:+ nri.Namespace pod +:+ "': " +:+ e),
     t ++ (detachEvent <$> pre) ++ [detachEvent device]).
Proof.
  revert t. induction pre as [|d pre IH]; intros t Hpre He; simpl.
  - by rewrite He.
  - rewrite Hpre by by left. rewrite IH, <-app_assoc; [done| |done].
    intros d' ?. apply Hpre. by right.
Qed.

End sandbox.
End sandbox.

(** X12. For a pod with prepared devices and a network namespace,
    [RunPodSandbox] attaches the devices in the order the pod manager gives
    them, each with the namespace path and the sandbox ID of the pod set,
    and returns nil when every attachment succeeds; at the first failing
    attachment it returns the error and stops: the devices after the
    failing one are not attached, and those attached before it are not
    detached. [StopPodSandbox] detaches in the same way and stops at the
    first failing detachment, leaving the devices after it attached. *)
Theorem sandbox_hooks_in_order {PM : Type} (pmOps : podmanager.Ops PM)
    (getNetworkNamespace : nri.PodSandbox → string)
    (cniRuntime : nri.CniRuntime) (pm : PM) (pod : nri.PodSandbox)
    (devices : drasriovtypes.PreparedDevices) (t : list Event) :
  podmanager.GetDevicesByPodUID pmOps pm (nri.Uid pod) = (devices, true) →
  getNetworkNamespace pod ≠ "" →
  ((∀ device, device ∈ devices →
      nri.AttachNetwork cniRuntime
        (nri.withSandbox device (getNetworkNamespace pod) pod) = None) →
   nri.RunPodSandbox pmOps getNetworkNamespace cniRuntime pm pod t
   = (None,
      t ++ (sandbox.attachEvent (getNetworkNamespace pod) pod <$> devices)))
  ∧ (∀ pre device post e,
       devices = pre ++ device :: post →
       (∀ d, d ∈ pre →
          nri.AttachNetwork cniRuntime
            (nri.withSandbox d (getNetworkNamespace pod) pod) = None) →
       nri.AttachNetwork cniRuntime
         (nri.withSandbox device (getNetworkNamespace pod) pod) = Some e →
       nri.RunPodSandbox pmOps getNetworkNamespace cniRuntime pm pod t
       = (Some ("failed to attach network: " +:+ e),
          t ++ (sandbox.attachEvent (getNetworkNamespace pod) pod <$> pre)
            ++ [sandbox.attachEvent (getNetworkNamespace pod) pod device]))
  ∧ ((∀ device, device ∈ devices →
        nri.DetachNetwork cniRuntime
          (nri.withSandbox device (getNetworkNamespace pod) pod) = None) →
     nri.StopPodSandbox pmOps getNetworkNamespace cniRuntime pm pod t
     = (None,
        t ++ (sandbox.detachEvent (getNetworkNamespace pod) pod
                <$> devices)))
  ∧ (∀ pre device post e,
       devices = pre ++ device :: post →
       (∀ d, d ∈ pre →
          nri.DetachNetwork cniRuntime
            (nri.withSandbox d (getNetworkNamespace pod) pod) = None) →
       nri.DetachNetwork cniRuntime
         (nri.withSandbox device (getNetworkNamespace pod) pod) = Some e →
       nri.StopPodSandbox pmOps getNetworkNamespace cniRuntime pm pod t
       = (Some ("error CNI.DetachNetwork for pod '" +:+ nri.Name pod
                +:+ "' (uid: " +:+ nri.Uid pod +:+ ") in namespace '"
                +:+ nri.Namespace pod +:+ "': " +:+ e),
          t ++ (sandbox.detachEvent (getNetworkNamespace pod) pod <$> pre)
            ++ [sandbox.detachEvent (getNetworkNamespace pod) pod device])).
Proof.
  intros Hget Hns. unfold nri.RunPodSandbox, nri.StopPodSandbox.
  rewrite Hget, !decide_False by done.
  split; [|split; [|split]].
  - apply sandbox.attachLoop_all.
  - intros pre device post e ->. apply sandbox.attachLoop_stops.
  - apply sandbox.detachLoop_all.
  - intros pre device post e ->. apply sandbox.detachLoop_stops.
Qed.

Lemma sandbox_hooks_in_order_witness :
  nri.RunPodSandbox podmanager.indexOps nri.networkNamespaceOf nri.demoCni
    nri.demoIndex (nri.demoPod [("network", "/proc/7/ns/net")]) []
  = (None, [EvAttachNetwork "0000-01-00-1" "/proc/7/ns/net" "sandbox-1"]).
Proof.
  refine (proj1 (sandbox_hooks_in_order podmanager.indexOps
                   nri.networkNamespaceOf nri.demoCni nri.demoIndex
                   (nri.demoPod [("network", "/proc/7/ns/net")])
                   [nri.demoDevice] [] _ _) _).
  - eval_refl.
  - vm_compute. discriminate.
  - reflexivity.
Defined.


(** ** The keys of the discovered catalog (src/pkg/devicestate/state.go) *)

Module names.

(** The bytes of a Go string. *)
Fixpoint bytes (s : string) : list ascii :=
  match s with
  | EmptyString => []
  | String c s' => c :: bytes s'
  end.

Lemma ReplaceAll_old_gone s old new :
  old ≠ new → old ∉ bytes (gostrings.ReplaceAll s old new).
Proof.
  intros Hne. induction s as [|c s IH]; simpl.
  - by intros ?%elem_of_nil.
  - intros [Heq|Hin]%elem_of_cons; [|done].
    destruct (decide (c = old)); congruence.
Qed.

Lemma ReplaceAll_stays_absent s old new c :
  c ≠ new → c ∉ bytes s → c ∉ bytes (gostrings.ReplaceAll s old new).
Proof.
  intros Hne. induction s as [|c' s IH]; simpl; [done|].
  intros [Hc Hs]%not_elem_of_cons.
  apply not_elem_of_cons. split; [|by apply IH].
  by destruct (decide (c' = old)).
Qed.

Lemma ReplaceAll_length s old new :
  String.length (gostrings.ReplaceAll s old new) = String.length s.
Proof. induction s as [|c s IH]; simpl; [done|]. by rewrite IH. Qed.

Section insertAll.
Context {V : Type}.
Implicit Types (m : gmap string V) (kvs : list (string * V)).

(** In a map written in a loop, the entry of a key is the last one written
    for it. *)
Lemma insertAll_last kvs k v :
  gomap.insertAll ∅ kvs !! k = Some v →
  ∃ pre post, kvs = pre ++ (k, v) :: post ∧ k ∉ post.*1.
Proof.
  induction kvs as [|[k' v'] kvs IH] using rev_ind.
  - unfold gomap.insertAll. simpl. by rewrite lookup_empty.
  - rewrite gomap.insertAll_app. unfold gomap.insertAll at 1. simpl.
    intros [[-> ->]|[Hne Hl]]%lookup_insert_Some.
    + exists kvs, []. split; [done|]. by intros ?%elem_of_nil.
    + destruct (IH Hl) as (pre & post & -> & Hpost).
      exists pre, (post ++ [(k', v')]). rewrite <-app_assoc. split; [done|].
      rewrite fmap_app. intros [?|Hin]%elem_of_app; [done|].
      simpl in Hin. by apply list_elem_of_singleton in Hin.
Qed.

Lemma insertAll_size kvs : size (gomap.insertAll ∅ kvs) ≤ length kvs.
Proof.
  induction kvs as [|[k' v'] kvs IH] using rev_ind; [done|].
  rewrite gomap.insertAll_app, length_app. unfold gomap.insertAll at 1.
  simpl. rewrite map_size_insert.
  destruct (gomap.insertAll ∅ kvs !! k'); simpl; lia.
Qed.

End insertAll.
End names.

(** X13. Whenever discovery succeeds, without any condition on the VF
    addresses: the keys of the catalog are exactly the device names of the
    VF symlinks found under the discovered PFs, so the catalog has at most
    as many entries as symlinks and is empty exactly when no symlink was
    found (discovery then still succeeds); an entry's [Name] is its key,
    the key holds neither ':' nor '.' and is as long as the VF address; and
    when several symlinks give the same device name the entry is the one of
    the last of them in discovery order. *)
Theorem discover_keys (helpers : discovery.HelpersInterface)
    (consts : discovery.AttributeNames)
    (catalog : gmap string resourceapi.Device) :
  discovery.DiscoverSriovDevices helpers consts = Ok catalog →
  (∀ k, is_Some (catalog !! k) ↔
        k ∈ (discovery.deviceNameOf ∘ snd)
              <$> discovery.discoveredVFs helpers)
  ∧ size catalog ≤ length (discovery.discoveredVFs helpers)
  ∧ (catalog = ∅ ↔ discovery.discoveredVFs helpers = [])
  ∧ (∀ k d, catalog !! k = Some d →
       resourceapi.Name d = k
       ∧ (":"%char ∉ names.bytes k) ∧ ("."%char ∉ names.bytes k)
       ∧ ∃ pre pfInfo vf post,
           discovery.discoveredVFs helpers = pre ++ (pfInfo, vf) :: post
           ∧ k = discovery.deviceNameOf vf
           ∧ String.length k = String.length vf
           ∧ d = discovery.vfDevice consts pfInfo vf
           ∧ ∀ p, p ∈ post → discovery.deviceNameOf p.2 ≠ k).
Proof.
  intros Hd.
  destruct (discovery.discover_inv _ _ _ Hd) as (pci & Hpci & _ & _ & ->).
  unfold discovery.discoveredVFs, discovery.discoveredPFs,
    discovery.pciDevices. rewrite Hpci.
  set (vfs := discovery.vfPairs helpers _).
  assert (∀ k, is_Some (gomap.insertAll ∅ (discovery.catalogEntry consts
                                              <$> vfs) !! k) ↔
               k ∈ (discovery.deviceNameOf ∘ snd) <$> vfs) as Hkeys.
  { intros k. split.
    - intros [d Hl%gomap.insertAll_lookup_Some].
      apply list_elem_of_fmap in Hl as ([pf vf] & [= -> ->] & Hin).
      apply list_elem_of_fmap. by exists (pf, vf).
    - intros Hin. apply gomap.insertAll_is_Some.
      by rewrite <-list_fmap_compose. }
  split; [done|]. split; [|split].
  - etrans; [apply names.insertAll_size|]. by rewrite length_fmap.
  - split.
    + intros Hempty. destruct vfs as [|[pf vf] rest] eqn:Hvfs; [done|].
      destruct (proj2 (Hkeys (discovery.deviceNameOf vf))) as [d Hl].
      { by left. }
      by rewrite Hempty, lookup_empty in Hl.
    + by intros ->.
  - intros k d Hl.
    destruct (names.insertAll_last _ _ _ Hl) as (pre & post & Heq & Hpost).
    apply fmap_app_inv in Heq as (pre' & rest & -> & Hmid & ->).
    symmetry in Hmid.
    apply fmap_cons_inv in Hmid as ([pf vf] & post' & [= -> ->] & -> & ->).
    simpl. split; [done|]. split; [|split].
    + unfold discovery.deviceNameOf.
      apply names.ReplaceAll_stays_absent; [done|].
      by apply names.ReplaceAll_old_gone.
    + unfold discovery.deviceNameOf. by apply names.ReplaceAll_old_gone.
    + exists pre', pf, vf, post'. split; [done|]. split; [done|].
      split.
      { unfold discovery.deviceNameOf.
        by rewrite !names.ReplaceAll_length. }
      split; [done|].
      intros p Hp Heq. apply Hpost. rewrite <-list_fmap_compose.
      apply list_elem_of_fmap. by exists p.
Qed.

Lemma discover_keys_witness :
  size (discovery.catalogOf
          (discovery.DiscoverSriovDevices
             (discovery.demoHelpers ["0000:01:00.1"; "0000:01:00.1"])
             discovery.demoConsts))
  ≤ length (discovery.discoveredVFs
              (discovery.demoHelpers ["0000:01:00.1"; "0000:01:00.1"])).
Proof.
  refine (proj1 (proj2 (discover_keys
                          (discovery.demoHelpers
                             ["0000:01:00.1"; "0000:01:00.1"])
                          discovery.demoConsts
                          (discovery.catalogOf
                             (discovery.DiscoverSriovDevices
                                (discovery.demoHelpers
                                   ["0000:01:00.1"; "0000:01:00.1"])
                                discovery.demoConsts)) _))).
  eval_refl.
Defined.

(** ** No nil attribute on a discovered catalog *)

Module nopanic.
Section nopanic.
Variable deps : state.Deps.
Variable allocatable : gmap string resourceapi.Device.

(** Every device of the catalog has the attribute [applyConfig] of the
    checkpoint-backed manager dereferences. *)
Definition catalogOK : Prop :=
  ∀ device deviceInfo,
    allocatable !! device = Some deviceInfo →
    is_Some (state.pciAddressOf deviceInfo).

Lemma applyConfigLoop_returns config results acc msg :
  catalogOK →
  state.applyConfigLoop allocatable config results acc ≠ Panic msg.
Proof.
  intros Hok. revert acc.
  induction results as [|r rest IH]; intros acc; simpl; [done|].
  destruct (allocatable !! resourceapi.Device_ r) as [deviceInfo|] eqn:Hdev;
    [|done].
  destruct (Hok _ _ Hdev) as [pciAddress ->]. apply IH.
Qed.

Lemma applyConfigs_returns entries acc msg :
  catalogOK → state.applyConfigs deps allocatable entries acc ≠ Panic msg.
Proof.
  intros Hok. revert acc.
  induction entries as [|[c rs] rest IH]; intros acc; simpl; [done|].
  destruct (configapi.objValue c) as [config|]; [|done].
  destruct (state.Normalize deps config) as [config'|]; [|done].
  destruct (state.Validate deps config'); [done|].
  destruct (state.applyConfig allocatable config' rs)
    as [[new|]|msg'] eqn:Happly; [apply IH|done|].
  by apply applyConfigLoop_returns in Happly.
Qed.

Lemma Prepare_returns claim w msg w' :
  catalogOK → state.Prepare deps allocatable claim w ≠ (Panic msg, w').
Proof.
  intros Hok. unfold state.Prepare, state.GetCheckpoint.
  destruct (state.checkpointFile w) as [m|]; [|done].
  destruct (decide (m !!! resourceapi.UID claim ≠ [])); [done|].
  destruct (state.prepareDevices deps allocatable claim)
    as [[pds|]|msg'] eqn:Hprep; [|done|].
  - destruct (state.CreateClaimSpecFile deps _ _); [done|].
    by destruct (state.CreateCheckpoint deps _).
  - unfold state.prepareDevices in Hprep.
    destruct (resourceapi.Allocation (resourceapi.Status claim)); [|done].
    destruct (state.GetOpaqueDeviceConfigs deps _); [|done].
    destruct (state.configResultsMapOf deps allocatable _ _); [|done].
    destruct (state.applyConfigs deps allocatable _ ∅)
      as [[perDevice|]|msg''] eqn:Happly; [done..|].
    by apply applyConfigs_returns in Happly.
Qed.

End nopanic.
End nopanic.

(** X14. On the catalog discovery builds, the dereference of the pciAddress
    attribute in [applyConfig] cannot hit a nil pointer: the NRI-integrated
    [PrepareDevices] returns, with devices or an error, for every claim that
    is reserved for a consumer; and the checkpoint-backed [Prepare], which
    reads the attribute under the literal key pciAddress, returns for every
    claim provided that literal is the name discovery files the address
    under. *)
Theorem discovered_catalog_no_panic (helpers : discovery.HelpersInterface)
    (consts : discovery.AttributeNames)
    (catalog : gmap string resourceapi.Device) :
  discovery.DiscoverSriovDevices helpers consts = Ok catalog →
  NoDup [discovery.AttributeVendorID consts;
         discovery.AttributeDeviceID consts;
         discovery.AttributePciAddress consts;
         discovery.AttributePFName consts;
         discovery.AttributeEswitchMode consts] →
  (∀ (deps : devicestate.Deps) claim t,
     devicestate.AttributePciAddress deps
     = discovery.AttributePciAddress consts →
     resourceapi.ReservedFor (resourceapi.Status claim) ≠ [] →
     ∃ r, (devicestate.PrepareDevices deps catalog claim t).1 = Return r)
  ∧ (∀ (deps : state.Deps) claim w,
       discovery.AttributePciAddress consts = "pciAddress" →
       ∃ r, (state.Prepare deps catalog claim w).1 = Return r).
Proof.
  intros Hd Hnd. split.
  - intros deps claim t Hattr Hpods.
    pose proof (discovered_catalogOK helpers consts deps catalog Hd Hattr
                  Hnd) as Hok.
    destruct (devicestate.PrepareDevices deps catalog claim t)
      as [[r|msg] t'] eqn:Hprep; [by exists r|].
    by apply devicestate.PrepareDevices_no_panic in Hprep.
  - intros deps claim w Hattr.
    assert (nopanic.catalogOK catalog) as Hok.
    { intros device deviceInfo Hdev.
      destruct (discovery.discover_inv _ _ _ Hd) as (pci & _ & _ & _ & ->).
      apply gomap.insertAll_lookup_Some in Hdev.
      apply list_elem_of_fmap in Hdev as ([pfInfo vf] & [= -> ->] & _).
      destruct (discovery.vfDevice_attributes consts pfInfo vf Hnd)
        as (_ & _ & _ & Hpci & _).
      unfold state.pciAddressOf. rewrite <-Hattr.
      simpl in Hpci |- *. rewrite Hpci. by eexists. }
    destruct (state.Prepare deps catalog claim w) as [[r|msg] w'] eqn:Hprep;
      [by exists r|].
    by apply nopanic.Prepare_returns in Hprep.
Qed.

Lemma discovered_catalog_no_panic_witness :
  ∃ r, (devicestate.PrepareDevices demo.deps demo.allocatable
          sample.claimA []).1 = Return r.
Proof.
  refine (proj1 (discovered_catalog_no_panic
                   (discovery.demoHelpers ["0000:01:00.1"; "0000:01:00.2"])
                   discovery.demoConsts demo.allocatable _ _)
            demo.deps sample.claimA [] _ _).
  - eval_refl.
  - compute_done.
  - reflexivity.
  - discriminate.
Defined.

(** ** Marshalling a checkpoint twice (package checkpoint) *)

(** X15. [MarshalCheckpoint] does not depend on the checksum stored in the
    checkpoint it is called on, and calling it again on the checkpoint it
    leaves behind gives the same bytes, or the same error, and the same
    checkpoint; it never touches the prepared claims. When the first
    encoding fails, the checkpoint is left with a zero checksum:
    unlike [VerifyChecksum], it does not put the old checksum back. *)
Theorem MarshalCheckpoint_idempotent (codec : checkpoint.Codec)
    (cp : checkpoint.Checkpoint) :
  (∀ ck,
     checkpoint.MarshalCheckpoint codec (checkpoint.setChecksum cp ck)
     = checkpoint.MarshalCheckpoint codec cp)
  ∧ checkpoint.MarshalCheckpoint codec
      (checkpoint.MarshalCheckpoint codec cp).2
    = checkpoint.MarshalCheckpoint codec cp
  ∧ checkpoint.V1 (checkpoint.MarshalCheckpoint codec cp).2
    = checkpoint.V1 cp
  ∧ (∀ e,
       checkpoint.Marshal codec (checkpoint.setChecksum cp 0) = Err e →
       checkpoint.MarshalCheckpoint codec cp
       = (Err e, checkpoint.setChecksum cp 0)).
Proof.
  unfold checkpoint.MarshalCheckpoint. split; [done|].
  split; [|split].
  - destruct (checkpoint.Marshal codec (checkpoint.setChecksum cp 0))
      as [out|e] eqn:Hout;
      unfold checkpoint.setChecksum in *; simpl in *; by rewrite Hout.
  - by destruct (checkpoint.Marshal codec (checkpoint.setChecksum cp 0)).
  - by intros e ->.
Qed.

(** ** The checkpoint-backed driver (src/pkg/driver/driver.go) *)

Module driver.
Import resourceapi.

Section Driver.
Variable deps : state.Deps.
Variable allocatable : gmap string Device.

(** The loop that copies the prepared devices into the plugin's result. *)
Definition toDevices (preparedPBs : list drapbv1.Device)
  : list kubeletplugin.Device :=
  (λ preparedPB,
     {| kubeletplugin.Requests := drapbv1.RequestNames preparedPB;
        kubeletplugin.PoolName := drapbv1.PoolName preparedPB;
        kubeletplugin.DeviceName := drapbv1.DeviceName preparedPB;
        kubeletplugin.CDIDeviceIDs := drapbv1.CDIDeviceIDs preparedPB |})
  <$> preparedPBs.

Definition prepareResourceClaim (claim : ResourceClaim) (w : state.World)
  : outcome (list kubeletplugin.Device) * state.World :=
  match state.Prepare deps allocatable claim w with
  | (Panic msg, w) => (Panic msg, w)
  | (Return (Err e), w) =>
      (Return (Err ("error preparing devices for claim " +:+ UID claim
                    +:+ ": " +:+ e)), w)
  | (Return (Ok preparedPBs), w) => (Return (Ok (toDevices preparedPBs)), w)
  end.

(** [for _, claim := range claims { result[claim.UID] = ... }]; a panic
    while one claim is prepared ends the call. *)
Fixpoint prepareLoop (claims : list ResourceClaim)
    (prepared : gmap string (result (list kubeletplugin.Device)))
    (w : state.World)
  : outcome (gmap string (result (list kubeletplugin.Device)))
    * state.World :=
  match claims with
  | [] => (Return (Ok prepared), w)
  | claim :: rest =>
      match prepareResourceClaim claim w with
      | (Panic msg, w) => (Panic msg, w)
      | (Return r, w) => prepareLoop rest (<[UID claim := r]> prepared) w
      end
  end.

(** The returned pair is [(result, nil)]: [Return (Ok result)]. *)
Definition PrepareResourceClaims (claims : list ResourceClaim)
    (w : state.World)
  : outcome (gmap string (result (list kubeletplugin.Device)))
    * state.World :=
  prepareLoop claims ∅ w.

Definition unprepareResourceClaim (claim : drasriovtypes.NamespacedObject)
    (w : state.World) : option string * state.World :=
  match state.Unprepare deps (drasriovtypes.UID claim) w with
  | (Some e, w) =>
      (Some ("error unpreparing devices for claim "
             +:+ drasriovtypes.UID claim +:+ ": " +:+ e), w)
  | (None, w) => (None, w)
  end.

Fixpoint unprepareLoop (claims : list drasriovtypes.NamespacedObject)
    (unprepared : gmap string (option string)) (w : state.World)
  : gmap string (option string) * state.World :=
  match claims with
  | [] => (unprepared, w)
  | claim :: rest =>
      let '(e, w) := unprepareResourceClaim claim w in
      unprepareLoop rest (<[drasriovtypes.UID claim := e]> unprepared) w
  end.

Definition UnprepareResourceClaims
    (claims : list drasriovtypes.NamespacedObject) (w : state.World)
  : gmap string (option string) * state.World :=
  unprepareLoop claims ∅ w.

(** *** Preparing a batch a second time *)

(** The claim has an entry in the checkpoint, and the entry is not nil. *)
Definition recorded (w : state.World) (uid : string)
    (devices : list kubeletplugin.Device) : Prop :=
  ∃ preparedClaims,
    state.checkpointFile w = Some preparedClaims
    ∧ preparedClaims !!! uid ≠ []
    ∧ devices = toDevices (types.GetDevices (preparedClaims !!! uid)).

Lemma toDevices_nil preparedPBs : toDevices preparedPBs = [] → preparedPBs = [].
Proof. apply fmap_nil_inv. Qed.

Lemma prepareResourceClaim_records claim w devices w' :
  prepareResourceClaim claim w = (Return (Ok devices), w') →
  devices ≠ [] → recorded w' (UID claim) devices.
Proof.
  unfold prepareResourceClaim.
  destruct (state.Prepare deps allocatable claim w)
    as [[[preparedPBs|]|] w1] eqn:Hprep; [|done..].
  intros [= <- <-] Hne.
  destruct (state.Prepare_Ok_inv _ _ _ _ _ _ Hprep) as (m & Hfile & ->).
  exists m. split; [done|]. split; [|done].
  intros Hnil. apply Hne. by rewrite Hnil.
Qed.

Lemma prepareResourceClaim_keeps claim w r w' uid devices :
  prepareResourceClaim claim w = (r, w') →
  recorded w uid devices → recorded w' uid devices.
Proof.
  intros Hone (m & Hfile & Hne & ->). unfold prepareResourceClaim in Hone.
  destruct (state.Prepare deps allocatable claim w) as [r1 w1] eqn:Hprep.
  assert (w' = w1) as -> by (by destruct r1 as [[?|?]|?]; injection Hone).
  clear Hone. revert Hprep. unfold state.Prepare, state.GetCheckpoint.
  rewrite Hfile.
  destruct (decide (m !!! UID claim ≠ [])) as [|Hnil].
  { intros [= _ <-]. by exists m. }
  apply dec_stable in Hnil.
  destruct (state.prepareDevices deps allocatable claim) as [[pds|]|].
  2,3: intros [= _ <-]; by exists m.
  destruct (state.CreateClaimSpecFile deps _ _).
  { intros [= _ <-]. by exists m. }
  destruct (state.CreateCheckpoint deps _).
  { intros [= _ <-]. by exists m. }
  intros [= _ <-]. eexists. split; [done|].
  assert (uid ≠ UID claim) as Huid by (intros ->; by rewrite Hnil in Hne).
  by rewrite lookup_total_insert_ne.
Qed.

Lemma prepareLoop_snoc claims claim acc w :
  prepareLoop (claims ++ [claim]) acc w
  = match prepareLoop claims acc w with
    | (Return (Ok prepared), w1) =>
        match prepareResourceClaim claim w1 with
        | (Panic msg, w2) => (Panic msg, w2)
        | (Return r, w2) => (Return (Ok (<[UID claim := r]> prepared)), w2)
        end
    | other => other
    end.
Proof.
  revert acc w. induction claims as [|c rest IH]; intros acc w; simpl.
  - by destruct (prepareResourceClaim claim w) as [[r|msg] w1].
  - destruct (prepareResourceClaim c w) as [[r|msg] w1]; [apply IH|done].
Qed.

(** After a batch, every claim of it whose entry in the result is a
    non-empty device list is recorded in the checkpoint with these
    devices. *)
Lemma prepareLoop_recorded claims w prepared w' :
  prepareLoop claims ∅ w = (Return (Ok prepared), w') →
  (∀ uid, is_Some (prepared !! uid) ↔ uid ∈ UID <$> claims)
  ∧ ∀ uid devices,
      prepared !! uid = Some (Ok devices) → devices ≠ [] →
      recorded w' uid devices.
Proof.
  revert prepared w'.
  induction claims as [|claim claims IH] using rev_ind; intros prepared w'.
  - simpl. intros [= <- <-]. split.
    + intros uid. rewrite lookup_empty. split; [by intros []|].
      by intros ?%elem_of_nil.
    + intros uid devices Hl. by rewrite lookup_empty in Hl.
  - rewrite prepareLoop_snoc.
    destruct (prepareLoop claims ∅ w) as [[[prepared0|e]|msg] w1] eqn:Hloop;
      [|done..].
    destruct (prepareResourceClaim claim w1) as [[r|msg] w2] eqn:Hone;
      [|done].
    intros [= <- <-]. destruct (IH _ _ eq_refl) as [Hdom Hrec]. split.
    + intros uid. rewrite lookup_insert_is_Some', fmap_app, elem_of_app, Hdom.
      simpl. rewrite list_elem_of_singleton.
      split; (intros [H|H]; [right|left]; done).
    + intros uid devices [[<- ->]|[Hne Hl]]%lookup_insert_Some Hdev.
      * by eapply prepareResourceClaim_records.
      * eapply prepareResourceClaim_keeps; [exact Hone|]. by eapply Hrec.
Qed.

(** A batch all of whose claims are recorded: each one gets its recorded
    devices, and the checkpoint is only read. *)
Lemma prepareLoop_again claims acc w :
  (∀ claim, claim ∈ claims → ∃ devices, recorded w (UID claim) devices) →
  ∃ prepared,
    prepareLoop claims acc w
    = (Return (Ok prepared),
       {| state.checkpointFile := state.checkpointFile w;
          state.trace :=
            state.trace w ++ replicate (length claims) EvGetCheckpoint |})
    ∧ (∀ uid, uid ∉ UID <$> claims → prepared !! uid = acc !! uid)
    ∧ ∀ uid devices, uid ∈ UID <$> claims → recorded w uid devices →
                     prepared !! uid = Some (Ok devices).
Proof.
  revert acc w. induction claims as [|claim rest IH]; intros acc w Hall.
  - exists acc. simpl. rewrite app_nil_r. split; [by destruct w|].
    split; [done|]. by intros ?? ?%elem_of_nil.
  - destruct (Hall claim) as (devices & m & Hfile & Hne & ->); [by left|].
    simpl. unfold prepareResourceClaim.
    rewrite (state.Prepare_already_prepared deps allocatable claim w m Hfile
               Hne).
    set (w1 := state.log EvGetCheckpoint w).
    destruct (IH (<[UID claim :=
                      Ok (toDevices (types.GetDevices (m !!! UID claim)))]>
                    acc) w1) as (prepared & -> & Hout & Hin).
    { intros c Hc. destruct (Hall c) as (d & Hd); [by right|].
      exists d. destruct Hd as (m' & Hfile' & ?). by exists m'. }
    exists prepared. split; [|split].
    + simpl. by rewrite <-app_assoc.
    + intros uid [Hne' Hrest]%not_elem_of_cons.
      rewrite Hout by done. by rewrite lookup_insert_ne.
    + intros uid devices Huid (m' & Hfile' & Hne' & ->).
      rewrite Hfile in Hfile'. injection Hfile' as <-.
      destruct (decide (uid ∈ UID <$> rest)) as [Hrest|Hrest].
      * apply Hin; [done|]. by exists m.
      * rewrite Hout by done.
        apply elem_of_cons in Huid as [->|?]; [|done].
        by rewrite lookup_insert_eq.
Qed.

End Driver.
End driver.

(** X16. Preparing a batch a second time changes nothing: when
    [PrepareResourceClaims] of the checkpoint-backed driver has returned a
    non-empty device list for every claim of a batch, the same call on the
    same batch returns the same result for every claim, and all it does is
    read the checkpoint once per claim: no CDI spec file is written and no
    checkpoint. *)
Theorem PrepareResourceClaims_twice (deps : state.Deps)
    (allocatable : gmap string resourceapi.Device)
    (claims : list resourceapi.ResourceClaim) (w : state.World)
    (prepared : gmap string (result (list kubeletplugin.Device)))
    (w1 : state.World) :
  driver.PrepareResourceClaims deps allocatable claims w
  = (Return (Ok prepared), w1) →
  (∀ uid r, prepared !! uid = Some r →
            ∃ devices, r = Ok devices ∧ devices ≠ []) →
  driver.PrepareResourceClaims deps allocatable claims w1
  = (Return (Ok prepared),
     {| state.checkpointFile := state.checkpointFile w1;
        state.trace :=
          state.trace w1 ++ replicate (length claims) EvGetCheckpoint |}).
Proof.
  unfold driver.PrepareResourceClaims. intros Hfirst Hall.
  destruct (driver.prepareLoop_recorded _ _ _ _ _ _ Hfirst) as [Hdom Hrec].
  assert (∀ uid, uid ∈ resourceapi.UID <$> claims →
            ∃ devices, prepared !! uid = Some (Ok devices)
                       ∧ driver.recorded w1 uid devices) as Hknown.
  { intros uid [r Hr]%Hdom. destruct (Hall uid r Hr) as (devices & -> & Hne).
    exists devices. split; [done|]. by apply Hrec. }
  destruct (driver.prepareLoop_again deps allocatable claims ∅ w1)
    as (prepared' & -> & Hout & Hin).
  { intros claim Hclaim. destruct (Hknown (resourceapi.UID claim))
      as (devices & _ & Hd); [|by exists devices].
    apply list_elem_of_fmap. by exists claim. }
  f_equal. f_equal. f_equal. apply map_eq. intros uid.
  destruct (decide (uid ∈ resourceapi.UID <$> claims)) as [Huid|Huid].
  - destruct (Hknown uid Huid) as (devices & -> & Hd). by apply Hin.
  - rewrite Hout, lookup_empty by done. symmetry.
    apply eq_None_not_Some. by rewrite Hdom.
Qed.

Lemma PrepareResourceClaims_twice_witness :
  driver.PrepareResourceClaims demo.stateDeps demo.allocatable
    [sample.claimAB]
    (driver.PrepareResourceClaims demo.stateDeps demo.allocatable
       [sample.claimAB] sample.w0).2
  = (Return (Ok (sample.devicesOf
                   (driver.PrepareResourceClaims demo.stateDeps
                      demo.allocatable [sample.claimAB] sample.w0).1 ∅)),
     {| state.checkpointFile :=
          state.checkpointFile
            (driver.PrepareResourceClaims demo.stateDeps demo.allocatable
               [sample.claimAB] sample.w0).2;
        state.trace :=
          state.trace
            (driver.PrepareResourceClaims demo.stateDeps demo.allocatable
               [sample.claimAB] sample.w0).2
          ++ replicate 1 EvGetCheckpoint |}).
Proof.
  refine (PrepareResourceClaims_twice demo.stateDeps demo.allocatable
            [sample.claimAB] sample.w0
            (sample.devicesOf
               (driver.PrepareResourceClaims demo.stateDeps
                  demo.allocatable [sample.claimAB] sample.w0).1 ∅)
            (driver.PrepareResourceClaims demo.stateDeps demo.allocatable
               [sample.claimAB] sample.w0).2 _ _).
  - eval_refl.
  - intros uid r.
    assert (sample.devicesOf
              (driver.PrepareResourceClaims demo.stateDeps demo.allocatable
                 [sample.claimAB] sample.w0).1 ∅
            = {[ "uid-claim-a" :=
                   Ok (sample.devicesOf
                         (driver.prepareResourceClaim demo.stateDeps
                            demo.allocatable sample.claimAB sample.w0).1
                         []) ]}) as -> by eval_refl.
    intros [<- <-]%lookup_singleton_Some. eexists. split; [done|].
    vm_compute. discriminate.
Defined.

(** ** Starting the driver (NewDeviceState, NewDeviceStateManager, New) *)

Module startup.
Import resourceapi.

(** What the constructors call in packages whose sources are not at hand:
    the CDI handler, the kubelet's checkpoint manager, the kubelet plugin
    helper and the health check. [rangeValues] is the order in which the Go
    runtime ranges over the values of the catalog. *)
Record Deps := {
  NewCDIHandler : option string;
  CreateCommonSpecFile : option string;
  NewCheckpointManager : option string;
  ListCheckpoints : result (list string);
  CreateCheckpoint : checkpoint.Checkpoint → option string;
  DriverPluginCheckpointFile : string;
  Start : option string;
  startHealthcheck : option string;
  PublishResources_ : option string;
  NodeName : string;
  rangeValues : gmap string Device → list Device;
}.

(** [resourceslice.DriverResources], as far as [New] fills it in. *)
Record Slice := { Devices : list Device }.
Record Pool := { Slices : list Slice }.
Record DriverResources := { Pools : gmap string Pool }.

Inductive Event :=
| EvNewCDIHandler
| EvCreateCommonSpecFile
| EvNewCheckpointManager
| EvListCheckpoints
| EvCreateCheckpoint (cp : checkpoint.Checkpoint)
| EvStart
| EvStartHealthcheck
| EvPublishResources (resources : DriverResources).

Section startup.
Variable helpers : discovery.HelpersInterface.
Variable consts : discovery.AttributeNames.
Variable deps : Deps.

(** [for _, c := range checkpoints { if c == file { return state, nil } }]:
    whether the loop returns. *)
Fixpoint found (checkpoints : list string) : bool :=
  match checkpoints with
  | [] => false
  | c :: rest =>
      if decide (c = DriverPluginCheckpointFile deps) then true
      else found rest
  end.

(** The state the constructors return is given by its catalog. *)
Definition NewDeviceState : result (gmap string Device) * list Event :=
  match discovery.DiscoverSriovDevices helpers consts with
  | Err e => (Err ("error enumerating all possible devices: " +:+ e), [])
  | Ok allocatable =>
      let t := [EvNewCDIHandler] in
      match NewCDIHandler deps with
      | Some e => (Err ("unable to create CDI handler: " +:+ e), t)
      | None =>
          let t := t ++ [EvCreateCommonSpecFile] in
          match CreateCommonSpecFile deps with
          | Some e =>
              (Err ("unable to create CDI spec file for common edits: "
                    +:+ e), t)
          | None =>
              let t := t ++ [EvNewCheckpointManager] in
              match NewCheckpointManager deps with
              | Some e =>
                  (Err ("unable to create checkpoint manager: " +:+ e), t)
              | None =>
                  let t := t ++ [EvListCheckpoints] in
                  match ListCheckpoints deps with
                  | Err e => (Err ("unable to list checkpoints: " +:+ e), t)
                  | Ok checkpoints =>
                      if found checkpoints then (Ok allocatable, t)
                      else
                        let cp := checkpoint.NewCheckpoint in
                        let t := t ++ [EvCreateCheckpoint cp] in
                        match CreateCheckpoint deps cp with
                        | Some e =>
                            (Err ("unable to sync to checkpoint: " +:+ e), t)
                        | None => (Ok allocatable, t)
                        end
                  end
              end
          end
      end
  end.

Definition NewDeviceStateManager
  : result (gmap string Device) * list Event :=
  match discovery.DiscoverSriovDevices helpers consts with
  | Err e => (Err ("error enumerating all possible devices: " +:+ e), [])
  | Ok allocatable =>
      let t := [EvNewCDIHandler] in
      match NewCDIHandler deps with
      | Some e => (Err ("unable to create CDI handler: " +:+ e), t)
      | None =>
          let t := t ++ [EvCreateCommonSpecFile] in
          match CreateCommonSpecFile deps with
          | Some e =>
              (Err ("unable to create CDI spec file for common edits: "
                    +:+ e), t)
          | None => (Ok allocatable, t)
          end
      end
  end.

(** [New] of driver.go: the driver it returns is given by the catalog of
    its state. *)
Definition New : result (gmap string Device) * list Event :=
  match NewDeviceState with
  | (Err e, t) => (Err e, t)
  | (Ok allocatable, t) =>
      let t := t ++ [EvStart] in
      match Start deps with
      | Some e => (Err e, t)
      | None =>
          let devices := rangeValues deps allocatable in
          let resources :=
            {| Pools :=
                 {[ NodeName deps :=
                      {| Slices := [ {| Devices := devices |} ] |} ]} |} in
          let t := t ++ [EvStartHealthcheck] in
          match startHealthcheck deps with
          | Some e => (Err ("start healthcheck: " +:+ e), t)
          | None =>
              let t := t ++ [EvPublishResources resources] in
              match PublishResources_ deps with
              | Some e => (Err e, t)
              | None => (Ok allocatable, t)
              end
          end
      end
  end.

Lemma found_elem_of checkpoints :
  found checkpoints = true ↔ DriverPluginCheckpointFile deps ∈ checkpoints.
Proof.
  induction checkpoints as [|c rest IH]; simpl.
  - split; [done|]. by intros ?%elem_of_nil.
  - destruct (decide (c = DriverPluginCheckpointFile deps)) as [->|Hne].
    + split; [|done]. intros _. by left.
    + rewrite IH. split; [by right|].
      by intros [?|?]%elem_of_cons.
Qed.

(** In a discovered catalog a device is filed under its own name. *)
Lemma discovered_name catalog k d :
  discovery.DiscoverSriovDevices helpers consts = Ok catalog →
  catalog !! k = Some d → Name d = k.
Proof.
  intros Hd Hl.
  destruct (discovery.discover_inv _ _ _ Hd) as (pci & _ & _ & _ & ->).
  apply gomap.insertAll_lookup_Some in Hl.
  by apply list_elem_of_fmap in Hl as ([pfInfo vf] & [= -> ->] & _).
Qed.

End startup.

(** An event that is none of the events of a list is not in it. *)
Ltac absent Hin :=
  exfalso;
  repeat (apply elem_of_cons in Hin as [Hin|Hin]; [done|]);
  by apply elem_of_nil in Hin.

Lemma NewDeviceState_Ok helpers consts deps allocatable t :
  NewDeviceState helpers consts deps = (Ok allocatable, t) →
  discovery.DiscoverSriovDevices helpers consts = Ok allocatable
  ∧ ∀ e, e ∈ t → ∀ resources, e ≠ EvPublishResources resources.
Proof.
  unfold NewDeviceState.
  destruct (discovery.DiscoverSriovDevices helpers consts)
    as [allocatable'|]; simpl; [|done].
  destruct (NewCDIHandler deps); simpl; [done|].
  destruct (CreateCommonSpecFile deps); simpl; [done|].
  destruct (NewCheckpointManager deps); simpl; [done|].
  destruct (ListCheckpoints deps) as [checkpoints|]; simpl; [|done].
  destruct (found deps checkpoints); simpl.
  - intros [= <- <-]. split; [done|]. intros e Hin resources ->.
    absent Hin.
  - destruct (CreateCheckpoint deps _); simpl; [done|].
    intros [= <- <-]. split; [done|]. intros e Hin resources ->.
    absent Hin.
Qed.

End startup.

(** X17. [NewDeviceState] never overwrites a checkpoint: it writes a
    checkpoint at most once, only when [ListCheckpoints] succeeded and did
    not list the driver's checkpoint file, and then it writes the new empty
    checkpoint (zero checksum, no prepared claim). When it succeeds the
    catalog of the state is the one discovery returned, the CDI common
    spec file has been created, and the checkpoint file was listed or has
    just been written. When discovery fails both constructors fail before
    touching the CDI handler or the checkpoint manager. *)
Theorem NewDeviceState_checkpoint (helpers : discovery.HelpersInterface)
    (consts : discovery.AttributeNames) (deps : startup.Deps) :
  (∀ cp,
     startup.EvCreateCheckpoint cp
       ∈ (startup.NewDeviceState helpers consts deps).2 →
     cp = checkpoint.NewCheckpoint
     ∧ (∃ checkpoints,
          startup.ListCheckpoints deps = Ok checkpoints
          ∧ startup.DriverPluginCheckpointFile deps ∉ checkpoints)
     ∧ ∃ t, (startup.NewDeviceState helpers consts deps).2
            = t ++ [startup.EvCreateCheckpoint cp]
            ∧ ∀ cp', startup.EvCreateCheckpoint cp' ∉ t)
  ∧ (∀ allocatable,
       (startup.NewDeviceState helpers consts deps).1 = Ok allocatable →
       discovery.DiscoverSriovDevices helpers consts = Ok allocatable
       ∧ startup.CreateCommonSpecFile deps = None
       ∧ ∃ checkpoints,
           startup.ListCheckpoints deps = Ok checkpoints
           ∧ (startup.DriverPluginCheckpointFile deps ∈ checkpoints
              ∨ startup.CreateCheckpoint deps checkpoint.NewCheckpoint
                = None))
  ∧ (∀ e,
       discovery.DiscoverSriovDevices helpers consts = Err e →
       startup.NewDeviceState helpers consts deps
       = (Err ("error enumerating all possible devices: " +:+ e), [])
       ∧ startup.NewDeviceStateManager helpers consts deps
         = (Err ("error enumerating all possible devices: " +:+ e), [])).
Proof.
  split; [|split].
  - intros cp. unfold startup.NewDeviceState.
    destruct (discovery.DiscoverSriovDevices helpers consts)
      as [allocatable|]; simpl.
    2:{ by intros ?%elem_of_nil. }
    destruct (startup.NewCDIHandler deps); simpl.
    { intros Hin. startup.absent Hin. }
    destruct (startup.CreateCommonSpecFile deps); simpl.
    { intros Hin. startup.absent Hin. }
    destruct (startup.NewCheckpointManager deps); simpl.
    { intros Hin. startup.absent Hin. }
    destruct (startup.ListCheckpoints deps) as [checkpoints|]; simpl.
    2:{ intros Hin. startup.absent Hin. }
    destruct (startup.found deps checkpoints) eqn:Hfound; simpl.
    { intros Hin. startup.absent Hin. }
    assert (startup.DriverPluginCheckpointFile deps ∉ checkpoints) as Hfile.
    { rewrite <-startup.found_elem_of. by rewrite Hfound. }
    assert (∀ t0 : list startup.Event,
              t0 = [startup.EvNewCDIHandler; startup.EvCreateCommonSpecFile;
                    startup.EvNewCheckpointManager;
                    startup.EvListCheckpoints;
                    startup.EvCreateCheckpoint checkpoint.NewCheckpoint] →
              startup.EvCreateCheckpoint cp ∈ t0 →
              cp = checkpoint.NewCheckpoint
              ∧ (∃ checkpoints0,
                   Ok checkpoints = Ok checkpoints0
                   ∧ startup.DriverPluginCheckpointFile deps ∉ checkpoints0)
              ∧ ∃ t, t0 = t ++ [startup.EvCreateCheckpoint cp]
                     ∧ ∀ cp', startup.EvCreateCheckpoint cp' ∉ t) as Hlast.
    { intros t0 -> Hin.
      repeat (apply elem_of_cons in Hin as [Hin|Hin]; [try done|]).
      2:{ by apply elem_of_nil in Hin. }
      injection Hin as ->. split; [done|]. split; [by exists checkpoints|].
      exists [startup.EvNewCDIHandler; startup.EvCreateCommonSpecFile;
              startup.EvNewCheckpointManager; startup.EvListCheckpoints].
      split; [done|]. intros cp' Hin'. startup.absent Hin'. }
    destruct (startup.CreateCheckpoint deps _); simpl; by apply Hlast.
  - intros allocatable. unfold startup.NewDeviceState.
    destruct (discovery.DiscoverSriovDevices helpers consts)
      as [allocatable'|]; simpl; [|done].
    destruct (startup.NewCDIHandler deps); simpl; [done|].
    destruct (startup.CreateCommonSpecFile deps); simpl; [done|].
    destruct (startup.NewCheckpointManager deps); simpl; [done|].
    destruct (startup.ListCheckpoints deps) as [checkpoints|]; simpl;
      [|done].
    destruct (startup.found deps checkpoints) eqn:Hfound; simpl.
    + intros [= <-]. split; [done|]. split; [done|]. exists checkpoints.
      split; [done|]. left. by apply startup.found_elem_of.
    + destruct (startup.CreateCheckpoint deps _) eqn:Hcp; simpl; [done|].
      intros [= <-]. split; [done|]. split; [done|]. exists checkpoints.
      split; [done|]. by right.
  - intros e He. unfold startup.NewDeviceState,
      startup.NewDeviceStateManager. by rewrite He.
Qed.

(** X18. When [New] of the checkpoint-backed driver succeeds, the last
    thing it has done is to publish resources with a single pool, named
    after the node, holding a single slice; the slice lists every device of
    the discovered catalog exactly once, and no two of its devices have the
    same name. *)
Theorem New_publishes_catalog (helpers : discovery.HelpersInterface)
    (consts : discovery.AttributeNames) (deps : startup.Deps)
    (allocatable : gmap string resourceapi.Device) :
  (∀ m, startup.rangeValues deps m ≡ₚ (map_to_list m).*2) →
  (startup.New helpers consts deps).1 = Ok allocatable →
  discovery.DiscoverSriovDevices helpers consts = Ok allocatable
  ∧ ∃ t devices,
      (startup.New helpers consts deps).2
      = t ++ [startup.EvPublishResources
                {| startup.Pools :=
                     {[ startup.NodeName deps :=
                          {| startup.Slices :=
                               [ {| startup.Devices := devices |} ] |} ]} |}]
      ∧ devices ≡ₚ (map_to_list allocatable).*2
      ∧ length devices = size allocatable
      ∧ NoDup (resourceapi.Name <$> devices)
      ∧ ∀ e, e ∈ t → ∀ resources, e ≠ startup.EvPublishResources resources.
Proof.
  intros Hrange. unfold startup.New.
  destruct (startup.NewDeviceState helpers consts deps)
    as [[allocatable'|] t0] eqn:Hstate; [|done].
  apply startup.NewDeviceState_Ok in Hstate as [Hd Ht0].
  destruct (startup.Start deps); [done|].
  destruct (startup.startHealthcheck deps); [done|].
  destruct (startup.PublishResources_ deps); [done|].
  simpl. intros [= <-]. split; [done|].
  eexists _, _. split; [done|]. split; [done|]. split; [|split].
  - by rewrite Hrange, length_fmap, length_map_to_list.
  - rewrite Hrange.
    assert (resourceapi.Name <$> (map_to_list allocatable').*2
            = (map_to_list allocatable').*1) as ->.
    { rewrite <-list_fmap_compose. apply list_fmap_ext.
      intros i [k d] Hkd. simpl.
      apply (startup.discovered_name helpers consts _ _ _ Hd).
      apply elem_of_map_to_list. by eapply list_elem_of_lookup_2. }
    apply NoDup_fst_map_to_list.
  - intros e [[Hin|Hin]%elem_of_app|Hin]%elem_of_app resources.
    + by apply Ht0.
    + apply list_elem_of_singleton in Hin as ->. done.
    + apply list_elem_of_singleton in Hin as ->. done.
Qed.

Module samplestart.

Definition deps : startup.Deps :=
  {| startup.NewCDIHandler := None;
     startup.CreateCommonSpecFile := None;
     startup.NewCheckpointManager := None;
     startup.ListCheckpoints := Ok ["checkpoint.json"];
     startup.CreateCheckpoint := λ _, None;
     startup.DriverPluginCheckpointFile := "checkpoint.json";
     startup.Start := None;
     startup.startHealthcheck := None;
     startup.PublishResources_ := None;
     startup.NodeName := "node-1";
     startup.rangeValues := λ m, (map_to_list m).*2 |}.

End samplestart.

Lemma New_publishes_catalog_witness :
  discovery.DiscoverSriovDevices
    (discovery.demoHelpers ["0000:01:00.1"; "0000:01:00.2"])
    discovery.demoConsts = Ok demo.allocatable.
Proof.
  refine (proj1 (New_publishes_catalog
                   (discovery.demoHelpers ["0000:01:00.1"; "0000:01:00.2"])
                   discovery.demoConsts samplestart.deps demo.allocatable
                   _ _)).
  - reflexivity.
  - eval_refl.
Defined.

(** ** The helpers over sysfs (package devicestate, helpers) *)

Module sysfs.

(** The calls the helpers make into packages os, path/filepath and ghw.
    [Lstat] gives the error, if any; [ReadDir] gives the names of the
    entries, in the order it returns them. *)
Record OS := {
  Lstat : string → option string;
  ReadDir : string → result (list string);
  Readlink : string → result string;
  Join : list string → string;
  Base : string → string;
  ghwPCI : result discovery.PCIInfo;
}.

Definition sysBusPci : string := "/sys/bus/pci/devices".

Section Helpers.
Variable os : OS.

Definition IsSriovVF (pciAddress : string) : bool :=
  let physfnPath := "/sys/bus/pci/devices/" +:+ pciAddress +:+ "/physfn" in
  match Lstat os physfnPath with
  | None => true
  | Some _ => false
  end.

Definition IsSriovPF (pciAddress : string) : bool :=
  let virtfnPath := "/sys/bus/pci/devices/" +:+ pciAddress +:+ "/virtfn0" in
  match Lstat os virtfnPath with
  | None => true
  | Some _ => false
  end.

(** [for _, entry := range entries]. *)
Fixpoint vfLoop (pfPath : string) (entries : list string)
    (vfList : list string) : list string :=
  match entries with
  | [] => vfList
  | name :: rest =>
      if String.prefix "virtfn" name then
        let linkPath := Join os [pfPath; name] in
        match Readlink os linkPath with
        | Err _ => vfLoop pfPath rest vfList
        | Ok target =>
            let vfAddr := Base os target in
            vfLoop pfPath rest (vfList ++ [vfAddr])
        end
      else vfLoop pfPath rest vfList
  end.

Definition GetVFList (pfPciAddress : string) : result (list string) :=
  let pfPath := "/sys/bus/pci/devices/" +:+ pfPciAddress in
  match ReadDir os pfPath with
  | Err e => Err ("failed to read PF directory: " +:+ e)
  | Ok entries => Ok (vfLoop pfPath entries [])
  end.

Definition PCI : result discovery.PCIInfo := ghwPCI os.

(** [for _, device := range pciInfo.Devices]. *)
Fixpoint findDevice (address : string) (devices : list discovery.PCIDevice)
  : result discovery.PCIDevice :=
  match devices with
  | [] => Err ("PCI device with address " +:+ address +:+ " not found")
  | device :: rest =>
      if decide (discovery.Address device = address) then Ok device
      else findDevice address rest
  end.

Definition GetPCIDeviceByAddress (address : string)
  : result discovery.PCIDevice :=
  match ghwPCI os with
  | Err e => Err e
  | Ok pciInfo => findDevice address (discovery.Devices pciInfo)
  end.

Definition TryGetInterfaceName (pciAddr : string) : string :=
  let netDir := Join os [sysBusPci; pciAddr; "net"] in
  match Lstat os netDir with
  | Some _ => ""
  | None =>
      match ReadDir os netDir with
      | Err _ => ""
      | Ok fInfos =>
          match fInfos with
          | [] => ""
          | first :: _ => first
          end
      end
  end.

Definition GetNicSriovMode (pciAddr : string) : string := "legacy".

(** [NewHelpers()]: the helpers discovery runs on. *)
Definition NewHelpers : discovery.HelpersInterface :=
  {| discovery.IsSriovVF := IsSriovVF;
     discovery.GetVFList := GetVFList;
     discovery.PCI := PCI;
     discovery.TryGetInterfaceName := TryGetInterfaceName;
     discovery.GetNicSriovMode := GetNicSriovMode |}.

(** The address a directory entry of a PF stands for, if it is a readable
    virtfn symlink. *)
Definition vfOfEntry (pfPath name : string) : option string :=
  if String.prefix "virtfn" name then
    match Readlink os (Join os [pfPath; name]) with
    | Ok target => Some (Base os target)
    | Err _ => None
    end
  else None.

Lemma vfLoop_omap pfPath entries vfList :
  vfLoop pfPath entries vfList
  = vfList ++ omap (vfOfEntry pfPath) entries.
Proof.
  revert vfList. induction entries as [|name rest IH]; intros vfList; simpl.
  - by rewrite app_nil_r.
  - unfold vfOfEntry at 1. destruct (String.prefix "virtfn" name); [|done].
    destruct (Readlink os _) as [target|]; [|done].
    by rewrite IH, <-app_assoc.
Qed.

Lemma findDevice_Ok address devices device :
  findDevice address devices = Ok device ↔
    ∃ pre post,
      devices = pre ++ device :: post
      ∧ discovery.Address device = address
      ∧ ∀ d, d ∈ pre → discovery.Address d ≠ address.
Proof.
  induction devices as [|d rest IH]; simpl.
  - split; [done|]. intros (pre & post & Heq & _). by destruct pre.
  - destruct (decide (discovery.Address d = address)) as [Hd|Hd].
    + split.
      * intros [= ->]. exists [], rest. split; [done|]. split; [done|].
        by intros ? ?%elem_of_nil.
      * intros ([|d' pre] & post & Heq & Ha & Hpre).
        -- by injection Heq as ->.
        -- injection Heq as -> _. destruct (Hpre d'); [by left|done].
    + rewrite IH. split.
      * intros (pre & post & -> & Ha & Hpre). exists (d :: pre), post.
        split; [done|]. split; [done|].
        intros d' [->|?]%elem_of_cons; auto.
      * intros ([|d' pre] & post & Heq & Ha & Hpre).
        -- injection Heq as -> _. done.
        -- injection Heq as -> ->. exists pre, post. split; [done|].
           split; [done|]. intros d'' ?. apply Hpre. by right.
Qed.

Lemma findDevice_Err address devices :
  is_err (findDevice address devices) ↔
    ∀ d, d ∈ devices → discovery.Address d ≠ address.
Proof.
  induction devices as [|d rest IH]; simpl.
  - split; [|done]. by intros _ ? ?%elem_of_nil.
  - destruct (decide (discovery.Address d = address)) as [Hd|Hd]; simpl.
    + split; [done|]. intros Hall. destruct (Hall d); [by left|done].
    + rewrite IH. split.
      * intros Hall d' [->|?]%elem_of_cons; auto.
      * intros Hall d' ?. apply Hall. by right.
Qed.

End Helpers.
End sysfs.

(** X19. [GetVFList] fails only when the directory of the PF cannot be
    read. Otherwise it returns, in the order of the directory entries, the
    base name of the target of every entry whose name starts with virtfn and
    whose link can be read: an entry with another name is ignored, an
    unreadable link is skipped without an error, so there are at most as
    many addresses as virtfn entries. *)
Theorem GetVFList_entries (os : sysfs.OS) (pfPciAddress : string) :
  (∀ e,
     sysfs.ReadDir os ("/sys/bus/pci/devices/" +:+ pfPciAddress) = Err e →
     sysfs.GetVFList os pfPciAddress
     = Err ("failed to read PF directory: " +:+ e))
  ∧ (∀ entries,
       sysfs.ReadDir os ("/sys/bus/pci/devices/" +:+ pfPciAddress)
       = Ok entries →
       ∃ vfList,
         sysfs.GetVFList os pfPciAddress = Ok vfList
         ∧ vfList
           = omap (sysfs.vfOfEntry os
                     ("/sys/bus/pci/devices/" +:+ pfPciAddress)) entries
         ∧ length vfList
           ≤ length (filter (λ name, String.prefix "virtfn" name = true)
                       entries)
         ∧ (∀ vf, vf ∈ vfList ↔
              ∃ name target,
                name ∈ entries
                ∧ String.prefix "virtfn" name = true
                ∧ sysfs.Readlink os
                    (sysfs.Join os
                       ["/sys/bus/pci/devices/" +:+ pfPciAddress; name])
                  = Ok target
                ∧ vf = sysfs.Base os target)).
Proof.
  unfold sysfs.GetVFList. split.
  - by intros e ->.
  - intros entries ->. eexists. split; [done|].
    rewrite sysfs.vfLoop_omap. simpl. split; [done|]. split.
    + induction entries as [|name rest IH]; [done|]. simpl.
      unfold sysfs.vfOfEntry at 1.
      destruct (String.prefix "virtfn" name) eqn:Hp.
      * rewrite filter_cons_True by done.
        destruct (sysfs.Readlink os _); simpl.
        -- apply le_n_S. exact IH.
        -- apply le_S. exact IH.
      * rewrite filter_cons_False; [done|]. by rewrite Hp.
    + intros vf. rewrite list_elem_of_omap. split.
      * intros (name & Hin & Hvf). unfold sysfs.vfOfEntry in Hvf.
        destruct (String.prefix "virtfn" name) eqn:Hp; [|done].
        destruct (sysfs.Readlink os _) as [target|] eqn:Hl; [|done].
        injection Hvf as <-. by exists name, target.
      * intros (name & target & Hin & Hp & Hl & ->). exists name.
        split; [done|]. unfold sysfs.vfOfEntry. by rewrite Hp, Hl.
Qed.

(** X20. [GetPCIDeviceByAddress] returns the first device of the PCI
    enumeration that has the address; it fails exactly when the enumeration
    fails, whose error it passes on unchanged, or when no device has the
    address. *)
Theorem GetPCIDeviceByAddress_first (os : sysfs.OS) (address : string) :
  (∀ device,
     sysfs.GetPCIDeviceByAddress os address = Ok device ↔
       ∃ pciInfo pre post,
         sysfs.ghwPCI os = Ok pciInfo
         ∧ discovery.Devices pciInfo = pre ++ device :: post
         ∧ discovery.Address device = address
         ∧ ∀ d, d ∈ pre → discovery.Address d ≠ address)
  ∧ (is_err (sysfs.GetPCIDeviceByAddress os address) ↔
       is_err (sysfs.ghwPCI os)
       ∨ ∃ pciInfo,
           sysfs.ghwPCI os = Ok pciInfo
           ∧ ∀ d, d ∈ discovery.Devices pciInfo →
                  discovery.Address d ≠ address)
  ∧ (∀ e, sysfs.ghwPCI os = Err e →
          sysfs.GetPCIDeviceByAddress os address = Err e).
Proof.
  unfold sysfs.GetPCIDeviceByAddress. split; [|split].
  - intros device. destruct (sysfs.ghwPCI os) as [pciInfo|e].
    + rewrite sysfs.findDevice_Ok. split.
      * intros (pre & post & ?). by exists pciInfo, pre, post.
      * intros (pciInfo' & pre & post & [= <-] & ?). by exists pre, post.
    + split; [done|]. by intros (? & ? & ? & ? & _).
  - destruct (sysfs.ghwPCI os) as [pciInfo|e]; simpl.
    + rewrite sysfs.findDevice_Err. split.
      * intros Hall. right. by exists pciInfo.
      * by intros [[]|(pciInfo' & [= <-] & Hall)].
    + split; [by left|done].
  - by intros e ->.
Qed.

(** X21. Discovery on the helpers over sysfs. A PCI device is taken as a PF
    exactly when its class parses as 0x02, it has no physfn entry, its net
    directory exists and can be listed, and the first entry of that
    directory has a non-empty name, which becomes the PF's interface name.
    Since [GetNicSriovMode] always answers legacy, every device of the
    catalog has the eswitch mode legacy. *)
Theorem discovery_on_sysfs (os : sysfs.OS) (consts : discovery.AttributeNames)
    (catalog : gmap string resourceapi.Device) :
  discovery.DiscoverSriovDevices (sysfs.NewHelpers os) consts = Ok catalog →
  NoDup [discovery.AttributeVendorID consts;
         discovery.AttributeDeviceID consts;
         discovery.AttributePciAddress consts;
         discovery.AttributePFName consts;
         discovery.AttributeEswitchMode consts] →
  (∀ k d, catalog !! k = Some d →
          resourceapi.Attributes d !! discovery.AttributeEswitchMode consts
          = Some {| resourceapi.StringValue := Some "legacy" |})
  ∧ (∀ device,
       discovery.isPF (sysfs.NewHelpers os) device = true ↔
         strconv.ParseInt16 (discovery.Class_ID device) = Some 2%Z
         ∧ is_Some (sysfs.Lstat os ("/sys/bus/pci/devices/"
                                    +:+ discovery.Address device
                                    +:+ "/physfn"))
         ∧ sysfs.Lstat os
             (sysfs.Join os [sysfs.sysBusPci; discovery.Address device;
                             "net"]) = None
         ∧ ∃ name rest,
             sysfs.ReadDir os
               (sysfs.Join os [sysfs.sysBusPci; discovery.Address device;
                               "net"]) = Ok (name :: rest)
             ∧ name ≠ ""
             ∧ discovery.TryGetInterfaceName (sysfs.NewHelpers os)
                 (discovery.Address device) = name).
Proof.
  intros Hd Hnd. split.
  - intros k d Hl.
    destruct (discovery.discover_inv _ _ _ Hd) as (pci & _ & _ & _ & ->).
    apply gomap.insertAll_lookup_Some in Hl.
    apply list_elem_of_fmap in Hl as ([pfInfo vf] & [= -> ->] & Hin).
    destruct (discovery.vfDevice_attributes consts pfInfo vf Hnd)
      as (_ & _ & _ & _ & _ & Hmode).
    unfold discovery.AttributeEswitchMode in *. rewrite Hmode. clear Hmode.
    unfold discovery.vfPairs in Hin.
    apply list_elem_of_bind in Hin as (pf & Hin & Hpf).
    apply list_elem_of_fmap in Hin as (vf' & [= -> ->] & _).
    by apply list_elem_of_fmap in Hpf as (device & -> & _).
  - intros device. unfold discovery.isPF. simpl.
    destruct (strconv.ParseInt16 (discovery.Class_ID device))
      as [devClass|].
    2:{ split; [done|]. by intros [? _]. }
    destruct (Z.eqb_spec devClass discovery.NetClass) as [->|Hne]; simpl.
    2:{ split; [done|]. intros [[= ?] _]. done. }
    unfold sysfs.IsSriovVF, sysfs.TryGetInterfaceName.
    destruct (sysfs.Lstat os (_ +:+ _ +:+ "/physfn")) as [e|]; simpl.
    2:{ split; [done|]. by intros (_ & [] & _). }
    destruct (sysfs.Lstat os (sysfs.Join os _)) as [e'|]; simpl.
    { split; [done|]. by intros (_ & _ & ? & _). }
    destruct (sysfs.ReadDir os _) as [[|name rest]|e']; simpl.
    + split; [done|]. by intros (_ & _ & _ & ? & ? & ? & _).
    + case_bool_decide as Hname; simpl.
      * split; [done|].
        intros (_ & _ & _ & name' & rest' & [= <- <-] & ? & _). done.
      * split; [|done]. intros _. split; [done|]. split; [by eexists|].
        split; [done|]. by exists name, rest.
    + split; [done|]. by intros (_ & _ & _ & ? & ? & ? & _).
Qed.

Module samplefs.

(** A small sysfs tree: the PF 0000:01:00.0 with interface ens1f0 and two
    VFs, and a third virtfn link that cannot be read. *)
Definition os : sysfs.OS :=
  {| sysfs.Lstat := λ path,
       if decide (path = "/sys/bus/pci/devices/0000:01:00.2/physfn"
                  ∨ path = "/sys/bus/pci/devices/0000:01:00.0/net")
       then None else Some "no such file or directory";
     sysfs.ReadDir := λ path,
       if decide (path = "/sys/bus/pci/devices/0000:01:00.0") then
         Ok ["driver"; "net"; "virtfn0"; "virtfn1"; "virtfn2"]
       else if decide (path = "/sys/bus/pci/devices/0000:01:00.0/net") then
         Ok ["ens1f0"]
       else Err "no such file or directory";
     sysfs.Readlink := λ path,
       if decide (path = "/sys/bus/pci/devices/0000:01:00.0/virtfn0") then
         Ok "../0000:01:00.1"
       else if decide (path = "/sys/bus/pci/devices/0000:01:00.0/virtfn1")
       then Ok "../0000:01:00.2"
       else Err "invalid argument";
     sysfs.Join := λ parts,
       match parts with
       | [] => ""
       | first :: rest => foldl (λ p q, p +:+ "/" +:+ q) first rest
       end;
     sysfs.Base := λ target,
       String.substring 3 (String.length target - 3) target;
     sysfs.ghwPCI := Ok {| discovery.Devices := discovery.demoDevices |} |}.

End samplefs.

Lemma discovery_on_sysfs_witness :
  ∃ d,
    discovery.catalogOf
      (discovery.DiscoverSriovDevices (sysfs.NewHelpers samplefs.os)
         discovery.demoConsts) !! "0000-01-00-1" = Some d
    ∧ resourceapi.Attributes d !! "EswitchMode"
      = Some {| resourceapi.StringValue := Some "legacy" |}.
Proof.
  destruct (discovery.catalogOf
              (discovery.DiscoverSriovDevices (sysfs.NewHelpers samplefs.os)
                 discovery.demoConsts) !! "0000-01-00-1")
    as [d|] eqn:Hd; [|by vm_compute in Hd].
  exists d. split; [done|].
  refine (proj1 (discovery_on_sysfs samplefs.os discovery.demoConsts
                   (discovery.catalogOf
                      (discovery.DiscoverSriovDevices
                         (sysfs.NewHelpers samplefs.os)
                         discovery.demoConsts)) _ _)
            "0000-01-00-1" d Hd).
  - eval_refl.
  - compute_done.
Defined.

(** On that tree discovery finds the two VFs whose links can be read. *)
Example discovery_on_sysfs_demo :
  sysfs.GetVFList samplefs.os "0000:01:00.0"
  = Ok ["0000:01:00.1"; "0000:01:00.2"]
  ∧ discovery.DiscoverSriovDevices (sysfs.NewHelpers samplefs.os)
      discovery.demoConsts = Ok demo.allocatable.
Proof. split; [vm_compute; reflexivity|eval_refl]. Qed.

(** ** The CNI runtime (package cni) *)

Module cni.

(** [libcni.RuntimeConf], as far as the runtime fills it in. *)
Record RuntimeConf := {
  ContainerID : string;
  NetNS : string;
  IfName : string;
  Args : list (string * string);
}.

Section Runtime.
(** A parsed network configuration, the result of a CNI ADD and the
    network data made from it. *)
Variables ConfList CniResult NetworkData : Type.

(** The calls into libcni and the network-attachment-definition client; an
    ADD that returns a nil result without an error is [Ok None]. *)
Record Libs := {
  GetCNIConfigFromSpec : string → string → result string;
  ConfFromBytes : string → result ConfList;
  AddNetwork : ConfList → RuntimeConf → result (option CniResult);
  DelNetwork : ConfList → RuntimeConf → option string;
  cniResultToNetworkData : CniResult → result NetworkData;
}.

Inductive Call :=
| CallAddNetwork (confList : ConfList) (rt : RuntimeConf)
| CallDelNetwork (confList : ConfList) (rt : RuntimeConf).

Variable libs : Libs.
Variable DriverName : string.

Definition runtimeConf (pod : nri.PodSandbox) (podNetworkNamespace : string)
    (deviceConfig : drasriovtypes.PreparedDevice) : RuntimeConf :=
  {| ContainerID := nri.Id pod;
     NetNS := podNetworkNamespace;
     IfName := drasriovtypes.IfName deviceConfig;
     Args := [ ("IgnoreUnknown", "true");
               ("K8S_POD_NAMESPACE", nri.Namespace pod);
               ("K8S_POD_NAME", nri.Name pod);
               ("K8S_POD_INFRA_CONTAINER_ID", nri.Id pod);
               ("K8S_POD_UID", nri.Uid pod) ] |}.

Definition AttachNetwork (pod : nri.PodSandbox)
    (podNetworkNamespace : string)
    (deviceConfig : drasriovtypes.PreparedDevice)
  : result NetworkData * list Call :=
  let rt := runtimeConf pod podNetworkNamespace deviceConfig in
  match GetCNIConfigFromSpec libs
          (drasriovtypes.NetAttachDefConfig deviceConfig) DriverName with
  | Err e => (Err ("failed to GetCNIConfigFromSpec: " +:+ e), [])
  | Ok rawNetConf =>
      match ConfFromBytes libs rawNetConf with
      | Err e => (Err ("failed to ConfListFromBytes: " +:+ e), [])
      | Ok confList =>
          let calls := [CallAddNetwork confList rt] in
          match AddNetwork libs confList rt with
          | Err e => (Err ("failed to AddNetwork: " +:+ e), calls)
          | Ok None => (Err "cni result is nil", calls)
          | Ok (Some cniResult) =>
              (cniResultToNetworkData libs cniResult, calls)
          end
      end
  end.

Definition DetachNetwork (pod : nri.PodSandbox)
    (podNetworkNamespace : string)
    (deviceConfig : drasriovtypes.PreparedDevice)
  : option string * list Call :=
  let rt := runtimeConf pod podNetworkNamespace deviceConfig in
  match GetCNIConfigFromSpec libs
          (drasriovtypes.NetAttachDefConfig deviceConfig) DriverName with
  | Err e => (Some ("failed to GetCNIConfigFromSpec: " +:+ e), [])
  | Ok rawNetConf =>
      match ConfFromBytes libs rawNetConf with
      | Err e => (Some ("failed to ConfListFromBytes: " +:+ e), [])
      | Ok confList =>
          let calls := [CallDelNetwork confList rt] in
          match DelNetwork libs confList rt with
          | Some e => (Some ("failed to DelNetwork: " +:+ e), calls)
          | None => (None, calls)
          end
      end
  end.

End Runtime.

Arguments GetCNIConfigFromSpec {_ _ _} _ _ _.
Arguments ConfFromBytes {_ _ _} _ _.
Arguments AddNetwork {_ _ _} _ _ _.
Arguments DelNetwork {_ _ _} _ _ _.
Arguments cniResultToNetworkData {_ _ _} _ _.
Arguments CallAddNetwork {_} _ _.
Arguments CallDelNetwork {_} _ _.
Arguments AttachNetwork {_ _ _} _ _ _ _ _.
Arguments DetachNetwork {_ _ _} _ _ _ _ _.

End cni.

(** X22. The CNI DEL of a device mirrors its ADD: for the same sandbox,
    namespace path and prepared device, [DetachNetwork] calls the plugin
    exactly when [AttachNetwork] does, namely when the device's network
    attachment config converts and parses; each calls it once, with the
    same parsed configuration and the same runtime configuration (the
    sandbox ID as container ID, the namespace path, the device's interface
    name, and the pod's namespace, name, sandbox ID and UID as arguments).
    When the config does not convert or parse, both fail without calling
    the plugin. An ADD that succeeds with a nil result is an error of
    [AttachNetwork]. *)
Theorem cni_del_mirrors_add {ConfList CniResult NetworkData : Type}
    (libs : cni.Libs ConfList CniResult NetworkData) (DriverName : string)
    (pod : nri.PodSandbox) (podNetworkNamespace : string)
    (deviceConfig : drasriovtypes.PreparedDevice) :
  (∀ rawNetConf confList,
     cni.GetCNIConfigFromSpec libs
       (drasriovtypes.NetAttachDefConfig deviceConfig) DriverName
     = Ok rawNetConf →
     cni.ConfFromBytes libs rawNetConf = Ok confList →
     (cni.AttachNetwork libs DriverName pod podNetworkNamespace
        deviceConfig).2
     = [cni.CallAddNetwork confList
          (cni.runtimeConf pod podNetworkNamespace deviceConfig)]
     ∧ (cni.DetachNetwork libs DriverName pod podNetworkNamespace
          deviceConfig).2
       = [cni.CallDelNetwork confList
            (cni.runtimeConf pod podNetworkNamespace deviceConfig)]
     ∧ (cni.AddNetwork libs confList
          (cni.runtimeConf pod podNetworkNamespace deviceConfig) = Ok None →
        (cni.AttachNetwork libs DriverName pod podNetworkNamespace
           deviceConfig).1 = Err "cni result is nil")
     ∧ ((cni.DetachNetwork libs DriverName pod podNetworkNamespace
           deviceConfig).1 = None ↔
        cni.DelNetwork libs confList
          (cni.runtimeConf pod podNetworkNamespace deviceConfig) = None))
  ∧ (is_err (cni.GetCNIConfigFromSpec libs
               (drasriovtypes.NetAttachDefConfig deviceConfig) DriverName)
     ∨ (∃ rawNetConf,
          cni.GetCNIConfigFromSpec libs
            (drasriovtypes.NetAttachDefConfig deviceConfig) DriverName
          = Ok rawNetConf
          ∧ is_err (cni.ConfFromBytes libs rawNetConf)) →
     is_err (cni.AttachNetwork libs DriverName pod podNetworkNamespace
               deviceConfig).1
     ∧ (cni.AttachNetwork libs DriverName pod podNetworkNamespace
          deviceConfig).2 = []
     ∧ is_Some (cni.DetachNetwork libs DriverName pod podNetworkNamespace
                  deviceConfig).1
     ∧ (cni.DetachNetwork libs DriverName pod podNetworkNamespace
          deviceConfig).2 = []).
Proof.
  unfold cni.AttachNetwork, cni.DetachNetwork. split.
  - intros rawNetConf confList -> ->.
    split; [by destruct (cni.AddNetwork libs _ _) as [[?|]|]|].
    split; [by destruct (cni.DelNetwork libs _ _)|].
    split; [by intros ->|].
    by destruct (cni.DelNetwork libs _ _).
  - intros [Herr|(rawNetConf & -> & Herr)].
    + by destruct (cni.GetCNIConfigFromSpec libs _ _).
    + by destruct (cni.ConfFromBytes libs rawNetConf).
Qed.

(** *** Unpreparing a batch a second time *)

Module unprepared.
Section unprepared.
Variable deps : state.Deps.

(** The checkpoint holds no devices for the claim. *)
Definition gone (w : state.World) (uid : string) : Prop :=
  ∃ preparedClaims,
    state.checkpointFile w = Some preparedClaims
    ∧ preparedClaims !!! uid = [].

Lemma unprepareResourceClaim_gone claim w w' :
  driver.unprepareResourceClaim deps claim w = (None, w') →
  gone w' (drasriovtypes.UID claim).
Proof.
  unfold driver.unprepareResourceClaim, state.Unprepare, state.GetCheckpoint.
  destruct (state.checkpointFile w) as [m|] eqn:Hfile; [|done].
  destruct (decide (m !!! drasriovtypes.UID claim = [])).
  { intros [= <-]. by exists m. }
  simpl. destruct (state.DeleteClaimSpecFile deps _); [done|].
  destruct (state.CreateCheckpoint deps _); [done|].
  intros [= <-]. eexists. split; [done|].
  by rewrite lookup_total_delete_eq.
Qed.

Lemma unprepareResourceClaim_keeps claim w e w' uid :
  driver.unprepareResourceClaim deps claim w = (e, w') →
  gone w uid → gone w' uid.
Proof.
  intros Hone (m & Hfile & Hnil). revert Hone.
  unfold driver.unprepareResourceClaim, state.Unprepare, state.GetCheckpoint.
  rewrite Hfile.
  destruct (decide (m !!! drasriovtypes.UID claim = [])).
  { intros [= _ <-]. by exists m. }
  simpl. destruct (state.DeleteClaimSpecFile deps _).
  { intros [= _ <-]. by exists m. }
  destruct (state.CreateCheckpoint deps _).
  { intros [= _ <-]. by exists m. }
  intros [= _ <-]. eexists. split; [done|].
  destruct (decide (uid = drasriovtypes.UID claim)) as [->|Hne].
  - by rewrite lookup_total_delete_eq.
  - by rewrite lookup_total_delete_ne.
Qed.

Lemma unprepareLoop_snoc claims claim acc w :
  driver.unprepareLoop deps (claims ++ [claim]) acc w
  = (<[drasriovtypes.UID claim :=
         (driver.unprepareResourceClaim deps claim
            (driver.unprepareLoop deps claims acc w).2).1]>
       (driver.unprepareLoop deps claims acc w).1,
     (driver.unprepareResourceClaim deps claim
        (driver.unprepareLoop deps claims acc w).2).2).
Proof.
  revert acc w. induction claims as [|c rest IH]; intros acc w; simpl.
  - by destruct (driver.unprepareResourceClaim deps claim w).
  - destruct (driver.unprepareResourceClaim deps c w) as [e w1]. apply IH.
Qed.

Lemma unprepareLoop_gone claims w :
  (∀ uid, is_Some ((driver.unprepareLoop deps claims ∅ w).1 !! uid) ↔
          uid ∈ drasriovtypes.UID <$> claims)
  ∧ ∀ uid,
      (driver.unprepareLoop deps claims ∅ w).1 !! uid = Some None →
      gone (driver.unprepareLoop deps claims ∅ w).2 uid.
Proof.
  induction claims as [|claim claims [Hdom Hgone]] using rev_ind.
  - simpl. split.
    + intros uid. rewrite lookup_empty. split; [by intros []|].
      by intros ?%elem_of_nil.
    + intros uid Hl. by rewrite lookup_empty in Hl.
  - rewrite unprepareLoop_snoc. simpl.
    destruct (driver.unprepareLoop deps claims ∅ w) as [res0 w1]. simpl in *.
    destruct (driver.unprepareResourceClaim deps claim w1) as [e w2] eqn:Hone.
    simpl. split.
    + intros uid. rewrite lookup_insert_is_Some', fmap_app, elem_of_app, Hdom.
      simpl. rewrite list_elem_of_singleton.
      split; (intros [H|H]; [right|left]; done).
    + intros uid [[<- ->]|[Hne Hl]]%lookup_insert_Some.
      * by eapply unprepareResourceClaim_gone.
      * eapply unprepareResourceClaim_keeps; [exact Hone|]. by apply Hgone.
Qed.

Lemma unprepareLoop_again claims acc w :
  (∀ claim, claim ∈ claims → gone w (drasriovtypes.UID claim)) →
  ∃ res,
    driver.unprepareLoop deps claims acc w
    = (res,
       {| state.checkpointFile := state.checkpointFile w;
          state.trace :=
            state.trace w ++ replicate (length claims) EvGetCheckpoint |})
    ∧ (∀ uid, uid ∉ drasriovtypes.UID <$> claims → res !! uid = acc !! uid)
    ∧ ∀ uid, uid ∈ drasriovtypes.UID <$> claims → res !! uid = Some None.
Proof.
  revert acc w. induction claims as [|claim rest IH]; intros acc w Hall.
  - exists acc. simpl. rewrite app_nil_r. split; [by destruct w|].
    split; [done|]. by intros ? ?%elem_of_nil.
  - destruct (Hall claim) as (m & Hfile & Hnil); [by left|].
    simpl. unfold driver.unprepareResourceClaim, state.Unprepare,
      state.GetCheckpoint.
    rewrite Hfile, decide_True by done.
    destruct (IH (<[drasriovtypes.UID claim := None]> acc)
                (state.log EvGetCheckpoint w)) as (res & -> & Hout & Hin).
    { intros c Hc. destruct (Hall c) as (m' & Hfile' & ?); [by right|].
      by exists m'. }
    exists res. split; [|split].
    + simpl. by rewrite Hfile, <-app_assoc.
    + intros uid [Hne Hrest]%not_elem_of_cons.
      rewrite Hout by done. by rewrite lookup_insert_ne.
    + intros uid Huid.
      destruct (decide (uid ∈ drasriovtypes.UID <$> rest)) as [Hrest|Hrest].
      * by apply Hin.
      * rewrite Hout by done.
        apply elem_of_cons in Huid as [->|?]; [|done].
        by rewrite lookup_insert_eq.
Qed.

End unprepared.
End unprepared.

(** X23. Unpreparing a batch a second time changes nothing: when
    [UnprepareResourceClaims] of the checkpoint-backed driver has returned
    nil for every claim of a batch, the same call on the same batch returns
    nil for every claim again, and all it does is read the checkpoint once
    per claim: no CDI spec file is deleted and no checkpoint written. *)
Theorem UnprepareResourceClaims_twice (deps : state.Deps)
    (claims : list drasriovtypes.NamespacedObject) (w : state.World)
    (unprepared : gmap string (option string)) (w1 : state.World) :
  driver.UnprepareResourceClaims deps claims w = (unprepared, w1) →
  (∀ uid e, unprepared !! uid = Some e → e = None) →
  driver.UnprepareResourceClaims deps claims w1
  = (unprepared,
     {| state.checkpointFile := state.checkpointFile w1;
        state.trace :=
          state.trace w1 ++ replicate (length claims) EvGetCheckpoint |}).
Proof.
  unfold driver.UnprepareResourceClaims. intros Hfirst Hall.
  destruct (unprepared.unprepareLoop_gone deps claims w) as [Hdom Hgone].
  rewrite Hfirst in Hdom, Hgone. simpl in Hdom, Hgone.
  assert (∀ uid, uid ∈ drasriovtypes.UID <$> claims →
            unprepared !! uid = Some None) as Hnil.
  { intros uid [e He]%Hdom. by rewrite He, (Hall uid e He). }
  destruct (unprepared.unprepareLoop_again deps claims ∅ w1)
    as (res & -> & Hout & Hin).
  { intros claim Hclaim. apply Hgone, Hnil.
    apply list_elem_of_fmap. by exists claim. }
  f_equal. apply map_eq. intros uid.
  destruct (decide (uid ∈ drasriovtypes.UID <$> claims)) as [Huid|Huid].
  - by rewrite Hin, Hnil.
  - rewrite Hout, lookup_empty by done. symmetry.
    apply eq_None_not_Some. by rewrite Hdom.
Qed.

Lemma UnprepareResourceClaims_twice_witness :
  driver.UnprepareResourceClaims demo.stateDeps
    [ {| drasriovtypes.Name := "claim-a";
         drasriovtypes.Namespace := "default";
         drasriovtypes.UID := "uid-claim-a" |} ]
    (driver.UnprepareResourceClaims demo.stateDeps
       [ {| drasriovtypes.Name := "claim-a";
            drasriovtypes.Namespace := "default";
            drasriovtypes.UID := "uid-claim-a" |} ]
       (state.Prepare demo.stateDeps demo.allocatable sample.claimA
          sample.w0).2).2
  = ({[ "uid-claim-a" := None ]},
     {| state.checkpointFile :=
          state.checkpointFile
            (driver.UnprepareResourceClaims demo.stateDeps
               [ {| drasriovtypes.Name := "claim-a";
                    drasriovtypes.Namespace := "default";
                    drasriovtypes.UID := "uid-claim-a" |} ]
               (state.Prepare demo.stateDeps demo.allocatable sample.claimA
                  sample.w0).2).2;
        state.trace :=
          state.trace
            (driver.UnprepareResourceClaims demo.stateDeps
               [ {| drasriovtypes.Name := "claim-a";
                    drasriovtypes.Namespace := "default";
                    drasriovtypes.UID := "uid-claim-a" |} ]
               (state.Prepare demo.stateDeps demo.allocatable sample.claimA
                  sample.w0).2).2
          ++ replicate 1 EvGetCheckpoint |}).
Proof.
  refine (UnprepareResourceClaims_twice demo.stateDeps
            [ {| drasriovtypes.Name := "claim-a";
                 drasriovtypes.Namespace := "default";
                 drasriovtypes.UID := "uid-claim-a" |} ]
            (state.Prepare demo.stateDeps demo.allocatable sample.claimA
               sample.w0).2
            {[ "uid-claim-a" := None ]}
            (driver.UnprepareResourceClaims demo.stateDeps
               [ {| drasriovtypes.Name := "claim-a";
                    drasriovtypes.Namespace := "default";
                    drasriovtypes.UID := "uid-claim-a" |} ]
               (state.Prepare demo.stateDeps demo.allocatable sample.claimA
                  sample.w0).2).2 _ _).
  - eval_refl.
  - by intros uid e [_ <-]%lookup_singleton_Some.
Defined.
